(** * DeepSeek dialogue extractor: the multi-strategy extraction engine

    Shallow embedding of
      - src/shared/types/conversation.ts       (the wire records),
      - src/content/analyzer/strategies/base-strategy.ts  (BaseStrategy),
      - src/content/analyzer/strategies/structure-strategy.ts
                                (StructureStrategy and ReactStrategy),
      - src/shared/constants/index.ts          (DOMIntelligentAnalyzer),
    followed by the properties of the engine.

    Conventions of the embedding.
      - A JS string is a [string]: a sequence of 8-bit code units, read as
        the UTF-8 bytes of the text.  Substring tests commute with that
        encoding; [length], [toLowerCase] and [trim] agree with JS on ASCII
        text.
      - A JS number that is a length or an index is a [nat]; a number that
        goes through [/] or [Math.min] is a [Number]: an exact rational,
        an infinity or NaN.  Rounding is left out of [Number]; [Double] has
        the rounded operations, for the function whose values are stated
        exactly.
      - Elements are HTML elements under a document that has a body, as
        the declared types say: [className] is a string.
      - The rendered page is a tree of [Node]s; an [Element] is a handle
        into it, identified by its path from the document root.
      - [DOMPurify.sanitize] and the HTML parser behind [innerHTML] are
        opaque pure functions, taken as section variables. *)

From Stdlib Require Import List String Ascii Bool Arith ZArith QArith Qminmax Lia Lqa.
From Stdlib Require Import DecimalString.
From Stdlib Require Import Permutation Sorted.
From Stdlib Require Import Qabs.
From Stdlib Require SpecFloat.
Import ListNotations.
Close Scope Q_scope.
Open Scope list_scope.
Open Scope nat_scope.

(* ================================================================== *)
(** ** JS strings *)

Module JsString.

Definition code (c : ascii) : nat := nat_of_ascii c.

(** [\s] restricted to one-byte code units. *)
Definition isSpace (c : ascii) : bool :=
  let n := code c in
  ((9 <=? n) && (n <=? 13)) || (n =? 32).

Definition isLower (c : ascii) : bool :=
  let n := code c in (97 <=? n) && (n <=? 122).

Definition isUpper (c : ascii) : bool :=
  let n := code c in (65 <=? n) && (n <=? 90).

Definition isDigit (c : ascii) : bool :=
  let n := code c in (48 <=? n) && (n <=? 57).

(** [\w] = [A-Za-z0-9_]. *)
Definition isWord (c : ascii) : bool :=
  isLower c || isUpper c || isDigit c || (code c =? 95).

Definition lowerChar (c : ascii) : ascii :=
  if isUpper c then ascii_of_nat (code c + 32) else c.

(** [s.toLowerCase()] *)
Fixpoint toLowerCase (s : string) : string :=
  match s with
  | EmptyString => EmptyString
  | String c s' => String (lowerChar c) (toLowerCase s')
  end.

(** [s.startsWith(p)] *)
Definition startsWith (s p : string) : bool := String.prefix p s.

(** [s.includes(sub)] *)
Fixpoint includes (s sub : string) : bool :=
  startsWith s sub ||
  match s with
  | EmptyString => false
  | String _ s' => includes s' sub
  end.

Fixpoint trimStart (s : string) : string :=
  match s with
  | EmptyString => EmptyString
  | String c s' => if isSpace c then trimStart s' else s
  end.

(** Drops the trailing white space: a character is kept when something
    that is not white space follows it or it is not white space itself. *)
Fixpoint trimEnd (s : string) : string :=
  match s with
  | EmptyString => EmptyString
  | String c s' =>
      match trimEnd s' with
      | EmptyString => if isSpace c then EmptyString else String c EmptyString
      | t => String c t
      end
  end.

(** [s.trim()] *)
Definition trim (s : string) : string := trimEnd (trimStart s).

(** [parts.join(sep)] *)
Fixpoint join (sep : string) (parts : list string) : string :=
  match parts with
  | [] => EmptyString
  | [p] => p
  | p :: rest => (p ++ sep ++ join sep rest)%string
  end.

(** [s.split(sep)] for a non-empty separator string.  [skip] counts the
    characters of a separator occurrence still to be passed over, [cur]
    is the piece read so far. *)
Fixpoint splitGo (sep : string) (s : string) (skip : nat) (cur : string)
  : list string :=
  match s with
  | EmptyString => [cur]
  | String c s' =>
      match skip with
      | S k => splitGo sep s' k cur
      | O =>
          if startsWith s sep
          then cur :: splitGo sep s' (String.length sep - 1) EmptyString
          else splitGo sep s' 0 (cur ++ String c EmptyString)%string
      end
  end.

Definition split (sep : string) (s : string) : list string :=
  splitGo sep s 0 EmptyString.

(** [s.split(re).filter(Boolean)] where [re] matches one character (or a
    run of them) of the class [isSep]: the maximal runs of characters
    outside the class. *)
Fixpoint tokensGo (isSep : ascii -> bool) (s : string) (cur : string)
  : list string :=
  match s with
  | EmptyString =>
      match cur with EmptyString => [] | _ => [cur] end
  | String c s' =>
      if isSep c
      then match cur with
           | EmptyString => tokensGo isSep s' EmptyString
           | _ => cur :: tokensGo isSep s' EmptyString
           end
      else tokensGo isSep s' (cur ++ String c EmptyString)%string
  end.

Definition tokens (isSep : ascii -> bool) (s : string) : list string :=
  tokensGo isSep s EmptyString.

(** [String(n)] for a non-negative integer. *)
Definition ofNat (n : nat) : string :=
  NilEmpty.string_of_uint (Nat.to_uint n).

(** Truthiness of a string: the empty string is falsy. *)
Definition truthy (s : string) : bool :=
  match s with EmptyString => false | _ => true end.

(** [list.includes(x)] on strings. *)
Definition mem (x : string) (l : list string) : bool :=
  existsb (String.eqb x) l.

(** The distinct members of a list, first occurrences kept in order:
    [new Set(l)], and the [if (!seen.includes(x)) seen.push(x)] loops. *)
Fixpoint distinctGo (l : list string) (seen : list string) : list string :=
  match l with
  | [] => seen
  | x :: l' => distinctGo l' (if mem x seen then seen else seen ++ [x])
  end.

Definition distinct (l : list string) : list string := distinctGo l [].

(** The captures of [s.match(/<h([1-6])/g)], as digits. *)
Fixpoint headingMatches (s : string) : list nat :=
  match s with
  | String "<" ((String "h" (String d _)) as s') =>
      if (49 <=? code d) && (code d <=? 54)
      then (code d - 48) :: headingMatches s'
      else headingMatches s'
  | String _ s' => headingMatches s'
  | EmptyString => []
  end.

(** The maximal run of word characters at the head of [s]. *)
Fixpoint wordPrefix (s : string) : string :=
  match s with
  | String c s' => if isWord c then String c (wordPrefix s') else EmptyString
  | EmptyString => EmptyString
  end.

(** The captures of [s.match(/```(\w+)/g)]. *)
Fixpoint fenceMatches (s : string) : list string :=
  match s with
  | String "`" ((String "`" (String "`" t)) as s') =>
      match wordPrefix t with
      | EmptyString => fenceMatches s'
      | w => w :: fenceMatches s'
      end
  | String _ s' => fenceMatches s'
  | EmptyString => []
  end.

End JsString.

(* ================================================================== *)
(** ** JS numbers *)

Inductive Number : Type :=
| Fin (q : Q)
| PInf
| NInf
| NaN.

Module Num.

Definition ofNat (n : nat) : Number := Fin (inject_Z (Z.of_nat n)).

Definition zero : Number := Fin 0%Q.

(** [a + b] *)
Definition add (a b : Number) : Number :=
  match a, b with
  | NaN, _ | _, NaN => NaN
  | PInf, NInf | NInf, PInf => NaN
  | PInf, _ | _, PInf => PInf
  | NInf, _ | _, NInf => NInf
  | Fin x, Fin y => Fin (x + y)%Q
  end.

Definition scaleInf (positive : bool) (q : Q) : Number :=
  match Qcompare q 0%Q with
  | Eq => NaN
  | Gt => if positive then PInf else NInf
  | Lt => if positive then NInf else PInf
  end.

(** [a * b] *)
Definition mul (a b : Number) : Number :=
  match a, b with
  | NaN, _ | _, NaN => NaN
  | Fin x, Fin y => Fin (x * y)%Q
  | Fin x, PInf | PInf, Fin x => scaleInf true x
  | Fin x, NInf | NInf, Fin x => scaleInf false x
  | PInf, PInf | NInf, NInf => PInf
  | PInf, NInf | NInf, PInf => NaN
  end.

(** [a / b]: 0/0 is NaN, x/0 an infinity carrying the sign of x. *)
Definition div (a b : Number) : Number :=
  match a, b with
  | NaN, _ | _, NaN => NaN
  | Fin x, Fin y =>
      match Qcompare y 0%Q with
      | Eq => scaleInf true x
      | _ => Fin (x / y)%Q
      end
  | Fin _, (PInf | NInf) => Fin 0%Q
  | PInf, Fin y => if Qle_bool 0%Q y then PInf else NInf
  | NInf, Fin y => if Qle_bool 0%Q y then NInf else PInf
  | (PInf | NInf), (PInf | NInf) => NaN
  end.

(** [a > b]; false as soon as one side is NaN. *)
Definition gt (a b : Number) : bool :=
  match a, b with
  | NaN, _ | _, NaN => false
  | Fin x, Fin y => negb (Qle_bool x y)
  | PInf, PInf => false
  | PInf, _ => true
  | _, PInf => false
  | NInf, _ => false
  | Fin _, NInf => true
  end.

(** [a === b]; NaN is not equal to itself. *)
Definition strictEq (a b : Number) : bool :=
  match a, b with
  | Fin x, Fin y => Qeq_bool x y
  | PInf, PInf | NInf, NInf => true
  | _, _ => false
  end.

(** [Math.min(a, b)]: NaN if either argument is. *)
Definition min (a b : Number) : Number :=
  match a, b with
  | NaN, _ | _, NaN => NaN
  | _, _ => if gt a b then b else a
  end.

Definition isNaN (a : Number) : bool :=
  match a with NaN => true | _ => false end.

(** [sum + x] folded from 0: [xs.reduce((sum, x) => sum + x, 0)]. *)
Definition sum (xs : list Number) : Number := fold_left add xs zero.

End Num.

(* ================================================================== *)
(** ** The wire records (shared/types/conversation.ts) *)

Inductive Role : Type := user | assistant.

Record ElementInfo : Type := mkElementInfo {
  info_tagName : string;
  info_className : string
}.

Record FormatAnalysis : Type := mkFormatAnalysis {
  hasCodeBlocks : bool;
  codeLanguages : list string;
  hasHeadings : bool;
  headingLevels : list nat;
  hasLists : bool;
  hasTables : bool
}.

(** [ConversationMessage] with [role: 'user']. *)
Record UserMessage : Type := mkUserMessage {
  user_index : Z;
  user_timestamp : Z;
  user_role : Role;
  user_html : string;
  user_text : string;
  user_elementInfo : ElementInfo
}.

(** [ConversationMessage] with [role: 'assistant'] and [formatAnalysis]. *)
Record AssistantMessage : Type := mkAssistantMessage {
  assistant_index : Z;
  assistant_timestamp : Z;
  assistant_role : Role;
  assistant_html : string;
  assistant_text : string;
  formatAnalysis : FormatAnalysis;
  assistant_elementInfo : ElementInfo
}.

Record RoundMetadata : Type := mkRoundMetadata {
  extractionConfidence : Number;
  elementCount : nat
}.

Record ConversationRound : Type := mkConversationRound {
  round_index : Z;
  round_timestamp : Z;
  round_user : UserMessage;
  round_assistant : AssistantMessage;
  round_metadata : RoundMetadata
}.

Record PageInfo : Type := mkPageInfo {
  pi_title : string;
  pi_urlHash : string;
  pi_userAgent : string
}.

Record ConversationMetadata : Type := mkConversationMetadata {
  sourceUrl : string;
  extractedAt : string;
  extractorVersion : string;
  strategyUsed : string;
  confidenceScore : Number;
  pageInfo : PageInfo
}.

Record ExtractionStats : Type := mkExtractionStats {
  totalRounds : nat;
  successRate : nat;
  processingTimeMs : Z;
  domElementsAnalyzed : nat
}.

Record ExtractedConversation : Type := mkExtractedConversation {
  version : string;
  metadata : ConversationMetadata;
  conversation : list ConversationRound;
  extractionStats : ExtractionStats
}.

(** [conversation.reduce((sum, round) => sum + round.metadata.extractionConfidence, 0)] *)
Definition confidenceSum (conversation : list ConversationRound) : Number :=
  Num.sum (map (fun round => extractionConfidence (round_metadata round))
               conversation).

(** The [confidenceScore] expression of both [createExtractedConversation]s:
    the mean when there is a round, else 0. *)
Definition meanConfidence (conversation : list ConversationRound) : Number :=
  if 0 <? List.length conversation
  then Num.div (confidenceSum conversation)
               (Num.ofNat (List.length conversation))
  else Num.zero.

(* ================================================================== *)
(** ** The host page *)

(** The [type] of a retained component node: absent, a host tag name, or a
    component function or class with its [displayName] and [name] (the
    empty string when the property is missing). *)
Inductive ComponentType : Type :=
| TypeNone
| TypeHost (tag : string)
| TypeComponent (displayName name : string).

(** Resolved props: own enumerable keys in order, with string values. *)
Definition Props : Type := list (string * string).

(** A retained component node; [FiberNull] is the null link. *)
Inductive Fiber : Type :=
| FiberNull
| FiberNode (type : ComponentType) (memoizedProps : option Props)
            (child sibling : Fiber).

(** One element of the rendered tree with what the strategies read of it. *)
#[local] Unset Elimination Schemes.
Inductive Node : Type := mkNode {
  tagName : string;
  className : string;
  id : string;
  textContent : string;
  outerHTML : string;
  rectTop : Q;
  rectBottom : Q;
  computedStyle : list (string * string);
  reactRef : option Fiber;
  children : list Node
}.
#[local] Set Elimination Schemes.

(** The ambient globals of one extraction call. *)
Record Page : Type := mkPage {
  documentElement : Node;
  location_href : string;
  location_hash : string;
  document_title : string;
  navigator_userAgent : string;
  devtoolsHook : bool;
  clock : Z;
  clockISO : string
}.

(** A handle on an element: its path of child positions from the document
    root, the node, and its ancestors, nearest first. *)
Record Element : Type := mkElement {
  path : list nat;
  node : Node;
  ancestors : list Node
}.

Module Dom.

(** Identity of handles ([===] on elements). *)
Definition same (a b : Element) : bool :=
  if list_eq_dec Nat.eq_dec (path a) (path b) then true else false.

(** [list.includes(e)] *)
Definition mem (e : Element) (l : list Element) : bool :=
  existsb (same e) l.

(** [list.indexOf(e)] *)
Fixpoint indexOfFrom (i : Z) (l : list Element) (e : Element) : Z :=
  match l with
  | [] => (-1)%Z
  | x :: l' => if same x e then i else indexOfFrom (i + 1)%Z l' e
  end.

Definition indexOf (l : list Element) (e : Element) : Z := indexOfFrom 0 l e.

Fixpoint isPrefix (p q : list nat) : bool :=
  match p, q with
  | [], _ => true
  | _ :: _, [] => false
  | a :: p', b :: q' => (a =? b) && isPrefix p' q'
  end.

(** [other.contains(e)]: [e] is [other] or one of its descendants. *)
Definition contains (other e : Element) : bool :=
  isPrefix (path other) (path e).

(** The children of [n] as handles, given the handle data of [n]. *)
Fixpoint childrenFrom (p : list nat) (anc : list Node) (i : nat)
         (cs : list Node) : list Element :=
  match cs with
  | [] => []
  | c :: cs' => mkElement (p ++ [i]) c anc :: childrenFrom p anc (S i) cs'
  end.

(** [e.children] *)
Definition childElements (e : Element) : list Element :=
  childrenFrom (path e) (node e :: ancestors e) 0 (children (node e)).

(** [f i x] for each [x] of the list, [i] its position counted from the
    given start, the results put end to end. *)
Fixpoint flatMapi {A B : Type} (f : nat -> A -> list B) (i : nat) (l : list A)
  : list B :=
  match l with
  | [] => []
  | x :: l' => f i x ++ flatMapi f (S i) l'
  end.

(** The proper descendants of a node, in document order: each child
    followed by its own descendants. *)
Fixpoint descendantsFrom (p : list nat) (anc : list Node) (n : Node)
  : list Element :=
  flatMapi
    (fun i c =>
       mkElement (p ++ [i]) c (n :: anc)
         :: descendantsFrom (p ++ [i]) (n :: anc) c)
    0 (children n).

(** [e.querySelectorAll('*')] *)
Definition descendants (e : Element) : list Element :=
  descendantsFrom (path e) (ancestors e) (node e).

Definition root (pg : Page) : Element :=
  mkElement [] (documentElement pg) [].

(** [document.querySelectorAll('*')] *)
Definition allElements (pg : Page) : list Element :=
  root pg :: descendants (root pg).

(** [e.parentElement] *)
Definition parentElement (e : Element) : option Element :=
  match ancestors e with
  | [] => None
  | p :: anc => Some (mkElement (removelast (path e)) p anc)
  end.

(** Position of [e] among its parent's children. *)
Definition position (e : Element) : nat := last (path e) 0.

(** The element siblings of [e], as handles, in document order. *)
Definition siblings (e : Element) : list Element :=
  match ancestors e with
  | [] => []
  | p :: anc => childrenFrom (removelast (path e)) (ancestors e) 0 (children p)
  end.

(** [e.previousElementSibling], then its own, and so on: the preceding
    siblings, nearest first. *)
Definition previousSiblings (e : Element) : list Element :=
  rev (firstn (position e) (siblings e)).

(** [e.nextElementSibling], then its own, and so on. *)
Definition nextSiblings (e : Element) : list Element :=
  skipn (S (position e)) (siblings e).

(** Simple selectors of the strategies. *)
Definition isTag (t : string) (e : Element) : bool :=
  String.eqb (JsString.toLowerCase (tagName (node e))) t.

(** [[class*="sub"]] *)
Definition classHas (sub : string) (e : Element) : bool :=
  JsString.includes (className (node e)) sub.

(** [.token] *)
Definition hasClassToken (t : string) (e : Element) : bool :=
  JsString.mem t (JsString.tokens JsString.isSpace (className (node e))).

(** [parent > ...] *)
Definition childOf (parent : Element -> bool) (e : Element) : bool :=
  match parentElement e with
  | Some p => parent p
  | None => false
  end.

Definition hasId (i : string) (e : Element) : bool :=
  String.eqb (id (node e)) i.

(** [e.querySelectorAll(sel)] and [e.querySelector(sel) !== null] for a
    selector given as a predicate. *)
Definition querySelectorAll (sel : Element -> bool) (e : Element)
  : list Element :=
  filter sel (descendants e).

Definition hasMatch (sel : Element -> bool) (e : Element) : bool :=
  existsb sel (descendants e).

End Dom.

(* ================================================================== *)
(** ** BaseStrategy (base-strategy.ts) *)

(** What [execute()] does: it returns a result or throws. *)
Inductive Outcome : Type :=
| Threw (message : string)
| Returned (result : ExtractedConversation).

Module BaseStrategy.

Import Dom.

Definition selectors : list (Element -> bool) :=
  [ classHas "conversation";
    classHas "chat";
    classHas "message";
    isTag "main";
    isTag "article";
    hasClassToken "container";
    (fun e => isTag "div" e && childOf (hasId "root") e);
    (fun e => isTag "div" e && childOf (isTag "body") e) ].

Definition isConversationContainer (element : Element) : bool :=
  let hasUserMessages :=
    0 <? List.length (querySelectorAll
                   (fun e => classHas "user" e || classHas "question" e)
                   element) in
  let hasAssistantMessages :=
    0 <? List.length (querySelectorAll
                   (fun e => classHas "assistant" e || classHas "answer" e
                             || classHas "response" e)
                   element) in
  let hasMultipleMessages :=
    2 <=? List.length (querySelectorAll
                    (fun e => classHas "message" e || classHas "bubble" e)
                    element) in
  (hasUserMessages && hasAssistantMessages) || hasMultipleMessages.

(** The two nested loops with their early return: the first container, in
    selector order and then document order. *)
Definition findConversationContainer (pg : Page) : option Element :=
  find isConversationContainer
       (flat_map (fun selector => filter selector (allElements pg)) selectors).

(** The callback of the first [filter] of [extractMessageElements]. *)
Definition isMessageCandidate (element : Element) : bool :=
  let text := textContent (node element) in
  if JsString.truthy text && (String.length (JsString.trim text) <? 10)
  then false
  else
    let html := JsString.toLowerCase (outerHTML (node element)) in
    JsString.includes html "message"
    || JsString.includes html "bubble"
    || JsString.includes html "chat"
    || JsString.includes (JsString.toLowerCase (className (node element)))
                         "message".

Definition indexed {A : Type} (l : list A) : list (nat * A) :=
  combine (seq 0 (List.length l)) l.

(** The second [filter]: drop an element nested in another candidate. *)
Definition removeNested (candidates : list Element) : list Element :=
  map snd
    (filter
       (fun ie : nat * Element =>
          negb (existsb
                  (fun io : nat * Element =>
                     negb (fst io =? fst ie) && contains (snd io) (snd ie))
                  (indexed candidates)))
       (indexed candidates)).

Definition extractMessageElements (container : Element) : list Element :=
  let candidates := filter isMessageCandidate (descendants container) in
  removeNested candidates.

Definition countTrue (l : list bool) : nat :=
  List.length (filter (fun b => b) l).

Definition classifyMessage (element : Element) : Role :=
  let html := JsString.toLowerCase (outerHTML (node element)) in
  let className := JsString.toLowerCase (className (node element)) in
  let text := JsString.toLowerCase (textContent (node element)) in
  let userIndicators :=
    [ JsString.includes className "user";
      JsString.includes className "human";
      JsString.includes className "question";
      JsString.includes html "user";
      JsString.includes text "用户" || JsString.includes text "question";
      hasMatch (classHas "user") element ] in
  let aiIndicators :=
    [ JsString.includes className "assistant";
      JsString.includes className "ai";
      JsString.includes className "bot";
      JsString.includes className "answer";
      JsString.includes html "assistant";
      JsString.includes text "assistant" || JsString.includes text "回答";
      hasMatch (classHas "assistant") element ] in
  let userScore := countTrue userIndicators in
  let aiScore := countTrue aiIndicators in
  if aiScore <=? userScore then user else assistant.

End BaseStrategy.

(* ================================================================== *)
(** ** StructureStrategy (structure-strategy.ts, first class) *)

Module StructureStrategy.

Import Dom BaseStrategy.

Definition name : string := "DOM结构分析策略".
Definition priority : nat := 80.

Fixpoint calculateMaxDepth (element : Node) (depth : nat) : nat :=
  match children element with
  | [] => depth
  | cs =>
      fold_left
        (fun maxChildDepth child =>
           let childDepth := calculateMaxDepth child (S depth) in
           if maxChildDepth <? childDepth then childDepth else maxChildDepth)
        cs depth
  end.

Definition containsCode (element : Element) : bool :=
  hasMatch (fun e => isTag "pre" e || isTag "code" e) element
  || JsString.includes (textContent (node element)) "```"
  || (let html := outerHTML (node element) in
      JsString.includes html "<pre>"
      || JsString.includes html "<code>"
      || JsString.includes html "```").

(** The callback of the candidate [filter] of [findMessageClusters]. *)
Definition isClusterCandidate (element : Element) : bool :=
  let text := JsString.trim (textContent (node element)) in
  if (String.length text <? 20) && negb (containsCode element)
  then false
  else
    let children := List.length (children (node element)) in
    let depth := calculateMaxDepth (node element) 0 in
    let hasComplexContent := (0 <? children) || (2 <? depth) in
    hasComplexContent && (10 <? String.length text).

Definition calculateElementSignature (element : Element) : string :=
  let n := node element in
  let features := [ ("tag:" ++ JsString.toLowerCase (tagName n))%string ] in
  let classes := JsString.tokens JsString.isSpace (className n) in
  let features :=
    features ++ map (fun cls => ("cls:" ++ cls)%string) (firstn 3 classes) in
  let features :=
    features
    ++ [ ("children:" ++ JsString.ofNat (List.length (children n)))%string ] in
  let textLength := String.length (textContent n) in
  let features :=
    features
    ++ [ if textLength <? 100 then "text:short"%string
         else if textLength <? 500 then "text:medium"%string
         else "text:long"%string ] in
  let features :=
    if containsCode element then features ++ ["has:code"%string]
    else features in
  let features :=
    if hasMatch (fun e => isTag "ul" e || isTag "ol" e || isTag "li" e) element
    then features ++ ["has:list"%string] else features in
  let features :=
    if hasMatch (isTag "img") element
    then features ++ ["has:img"%string] else features in
  JsString.join "|" features.

(** Jaccard similarity of the two feature sets. *)
Definition similarity (sig1 sig2 : string) : Number :=
  let features1 := JsString.distinct (JsString.split "|" sig1) in
  let features2 := JsString.distinct (JsString.split "|" sig2) in
  let intersection :=
    JsString.distinct
      (filter (fun x => JsString.mem x features2) features1) in
  let union := JsString.distinct (features1 ++ features2) in
  Num.div (Num.ofNat (List.length intersection))
          (Num.ofNat (List.length union)).

Definition isSimilarSignature (sig1 sig2 : string) : bool :=
  Num.gt (similarity sig1 sig2) (Fin (6 # 10)).

(** One of the two [while] loops of [findMessageClusters]: [siblings] are
    the successive values of the sibling cursor, [extend] is [unshift] or
    [push].  An empty list is the null cursor. *)
Fixpoint walk (candidateElements : list Element) (elementSignature : string)
         (extend : Element -> list Element -> list Element)
         (siblings : list Element) (cluster processed : list Element)
  : list Element * list Element :=
  match siblings with
  | [] => (cluster, processed)
  | sibling :: rest =>
      if mem sibling candidateElements && negb (mem sibling processed)
      then
        if isSimilarSignature elementSignature
                              (calculateElementSignature sibling)
        then walk candidateElements elementSignature extend rest
                  (extend sibling cluster) (sibling :: processed)
        else walk candidateElements elementSignature extend rest
                  cluster processed
      else (cluster, processed)
  end.

Definition unshift (x : Element) (l : list Element) : list Element := x :: l.
Definition push (x : Element) (l : list Element) : list Element := l ++ [x].

(** The body of the [for] loop over the candidates. *)
Definition clusterStep (candidateElements : list Element)
           (state : list (list Element) * list Element) (element : Element)
  : list (list Element) * list Element :=
  let (clusters, processed) := state in
  if mem element processed then state
  else
    let cluster := [element] in
    let processed := element :: processed in
    let elementSignature := calculateElementSignature element in
    let (cluster, processed) :=
      walk candidateElements elementSignature unshift
           (previousSiblings element) cluster processed in
    let (cluster, processed) :=
      walk candidateElements elementSignature push
           (nextSiblings element) cluster processed in
    if 2 <=? List.length cluster
    then (clusters ++ [cluster], processed)
    else (clusters, processed).

(** [clusters.sort((a, b) => b.length - a.length)], a stable sort. *)
Fixpoint insertBySize (c : list Element) (sorted : list (list Element))
  : list (list Element) :=
  match sorted with
  | [] => [c]
  | d :: rest =>
      if List.length c <? List.length d
      then d :: insertBySize c rest
      else c :: sorted
  end.

Definition sortBySize (clusters : list (list Element))
  : list (list Element) :=
  fold_right insertBySize [] clusters.

Definition candidateElements (container : Element) : list Element :=
  filter isClusterCandidate (descendants container).

Definition findMessageClusters (container : Element)
  : list (list Element) :=
  let candidateElements := candidateElements container in
  let (clusters, _) :=
    fold_left (clusterStep candidateElements) candidateElements ([], []) in
  sortBySize clusters.

(** The [for] loop of [processMessageCluster] with its [break]. *)
Fixpoint scanCluster (cluster : list Element)
         (userElement assistantElement : option Element)
  : option Element * option Element :=
  match cluster with
  | [] => (userElement, assistantElement)
  | element :: rest =>
      let role := classifyMessage element in
      let (userElement, assistantElement) :=
        match role, userElement, assistantElement with
        | user, None, _ => (Some element, assistantElement)
        | assistant, _, None => (userElement, Some element)
        | _, _, _ => (userElement, assistantElement)
        end in
      match userElement, assistantElement with
      | Some _, Some _ => (userElement, assistantElement)
      | _, _ => scanCluster rest userElement assistantElement
      end
  end.

Definition getElementPath (element : Element) : string :=
  let part (current : Node) : string :=
    let tag := JsString.toLowerCase (tagName current) in
    let id :=
      if JsString.truthy (id current)
      then ("#" ++ id current)%string else ""%string in
    let classes :=
      if JsString.truthy (className current)
      then ("." ++ JsString.join "." (JsString.split " " (className current)))%string
      else ""%string in
    (tag ++ id ++ classes)%string in
  JsString.join " > "
    (rev (map part (firstn 5 (node element :: ancestors element)))).

Definition calculatePathSimilarity (path1 path2 : string) : Number :=
  let parts1 := JsString.split " > " path1 in
  let parts2 := JsString.split " > " path2 in
  let matches :=
    List.length
      (filter (fun ab : string * string => String.eqb (fst ab) (snd ab))
              (combine parts1 parts2)) in
  Num.div (Num.ofNat matches)
          (Num.ofNat (Nat.max (List.length parts1) (List.length parts2))).

Definition properties : list string :=
  [ "display"; "position"; "float"; "clear";
    "width"; "height"; "margin"; "padding";
    "border"; "background"; "color"; "font";
    "textAlign"; "lineHeight" ]%string.

(** [style[prop]]; [None] is [undefined]. *)
Fixpoint styleOf (style : list (string * string)) (prop : string)
  : option string :=
  match style with
  | [] => None
  | (k, v) :: rest => if String.eqb k prop then Some v else styleOf rest prop
  end.

Definition sameStyle (a b : option string) : bool :=
  match a, b with
  | None, None => true
  | Some x, Some y => String.eqb x y
  | _, _ => false
  end.

Definition calculateStyleSimilarity (element1 element2 : Element) : Number :=
  let style1 := computedStyle (node element1) in
  let style2 := computedStyle (node element2) in
  let matches :=
    List.length
      (filter (fun prop => sameStyle (styleOf style1 prop) (styleOf style2 prop))
              properties) in
  Num.div (Num.ofNat matches) (Num.ofNat (List.length properties)).

Definition calculateStructureConfidence (userElement assistantElement : Element)
  : Number :=
  let confidence := Fin (6 # 10) in
  let userPath := getElementPath userElement in
  let assistantPath := getElementPath assistantElement in
  let pathSimilarity := calculatePathSimilarity userPath assistantPath in
  let confidence := Num.add confidence (Num.mul pathSimilarity (Fin (2 # 10))) in
  let userBottom := rectBottom (node userElement) in
  let assistantTop := rectTop (node assistantElement) in
  let confidence :=
    if negb (Qle_bool assistantTop userBottom)
       && negb (Qle_bool 500 (assistantTop - userBottom))
    then Num.add confidence (Fin (15 # 100))
    else confidence in
  let styleSimilarity := calculateStyleSimilarity userElement assistantElement in
  let confidence := Num.add confidence (Num.mul styleSimilarity (Fin (15 # 100))) in
  Num.min confidence (Fin (95 # 100)).

Definition extractText (element : Element) : string :=
  JsString.trim (textContent (node element)).

Definition distinctNat (l : list nat) : list nat :=
  fold_left (fun seen x => if existsb (Nat.eqb x) seen then seen else seen ++ [x])
            l [].

Definition analyzeFormat (element : Element) : FormatAnalysis :=
  let html := outerHTML (node element) in
  {| hasCodeBlocks := containsCode element;
     codeLanguages := JsString.distinct (JsString.fenceMatches html);
     hasHeadings := 0 <? List.length (JsString.headingMatches html);
     headingLevels := distinctNat (JsString.headingMatches html);
     hasLists :=
       hasMatch (fun e => isTag "ul" e || isTag "ol" e || isTag "li" e) element;
     hasTables := hasMatch (isTag "table") element |}.

(** The [for] loop of [fallbackToSequentialPairing], over the round
    constructor [mk]: the control flow reads the rounds only through the
    length of [conversation].  [i] is the loop index, [rest] the elements
    from [i] on; the value is the state of the two loop variables at the
    exit. *)
Fixpoint fallbackLoop {R : Type} (mk : Z -> Element -> Element -> R)
         (elements : list Element) (i : nat) (rest : list Element)
         (conversation : list R) (userElement : option Element)
  : list R * option Element :=
  match rest with
  | [] => (conversation, userElement)
  | element :: rest' =>
      match classifyMessage element, userElement with
      | user, _ =>
          fallbackLoop mk elements (S i) rest' conversation (Some element)
      | assistant, Some u =>
          let userIndex := indexOf elements u in
          if (Z.of_nat i - userIndex <=? 3)%Z
          then
            let round :=
              mk (Z.of_nat (List.length conversation) + 1)%Z u element in
            fallbackLoop mk elements (S i) rest' (conversation ++ [round]) None
          else fallbackLoop mk elements (S i) rest' conversation userElement
      | assistant, None =>
          fallbackLoop mk elements (S i) rest' conversation userElement
      end
  end.

Section Host.

  (** [DOMPurify.sanitize] *)
Variable sanitize : string -> string.
Variable pg : Page.

Definition createConversationRound (index : Z)
             (userElement assistantElement : Element) : ConversationRound :=
    let now := clock pg in
    {| round_index := index;
       round_timestamp := now;
       round_user :=
         {| user_index := index;
            user_timestamp := now;
            user_role := user;
            user_html := sanitize (outerHTML (node userElement));
            user_text := extractText userElement;
            user_elementInfo :=
              {| info_tagName := tagName (node userElement);
                 info_className := className (node userElement) |} |};
       round_assistant :=
         {| assistant_index := index;
            assistant_timestamp := now;
            assistant_role := assistant;
            assistant_html := sanitize (outerHTML (node assistantElement));
            assistant_text := extractText assistantElement;
            formatAnalysis := analyzeFormat assistantElement;
            assistant_elementInfo :=
              {| info_tagName := tagName (node assistantElement);
                 info_className := className (node assistantElement) |} |};
       round_metadata :=
         {| extractionConfidence :=
              calculateStructureConfidence userElement assistantElement;
            elementCount := 2 |} |}.

Definition processMessageCluster (cluster : list Element)
    : option ConversationRound :=
    if List.length cluster <? 2 then None
    else
      match scanCluster cluster None None with
      | (Some userElement, Some assistantElement) =>
          Some (createConversationRound
                  (indexOf cluster userElement
                   + indexOf cluster assistantElement)%Z
                  userElement assistantElement)
      | _ => None
      end.

Definition fallbackToSequentialPairing (container : Element)
    : list ConversationRound :=
    let elements := extractMessageElements container in
    fst (fallbackLoop createConversationRound elements 0 elements [] None).

Definition extractUsingStructureAnalysis (container : Element)
    : list ConversationRound :=
    let messageClusters := findMessageClusters container in
    let conversation :=
      fold_left
        (fun conversation cluster =>
           match processMessageCluster cluster with
           | Some round => conversation ++ [round]
           | None => conversation
           end)
        messageClusters [] in
    match conversation with
    | [] => fallbackToSequentialPairing container
    | _ => conversation
    end.

Definition createExtractedConversation
             (conversation : list ConversationRound) : ExtractedConversation :=
    let confidenceScore := meanConfidence conversation in
    {| version := "1.0";
       metadata :=
         {| sourceUrl := location_href pg;
            extractedAt := clockISO pg;
            extractorVersion := "1.0.0";
            strategyUsed := "structure-analysis";
            confidenceScore := confidenceScore;
            pageInfo :=
              {| pi_title := document_title pg;
                 pi_urlHash := location_hash pg;
                 pi_userAgent := navigator_userAgent pg |} |};
       conversation := conversation;
       extractionStats :=
         {| totalRounds := List.length conversation;
            successRate := if 0 <? List.length conversation then 100 else 0;
            processingTimeMs := 0%Z;
            domElementsAnalyzed := List.length (allElements pg) |} |}.

  (** [analyzePageStructure] only logs; its value is passed on and never
      read, so it is left out. *)
Definition execute : Outcome :=
    match findConversationContainer pg with
    | None => Threw "未找到对话容器"
    | Some container =>
        Returned (createExtractedConversation
                    (extractUsingStructureAnalysis container))
    end.

End Host.

End StructureStrategy.

(* ================================================================== *)
(** ** ReactStrategy (structure-strategy.ts, second class) *)

(** A record pushed by [extractReactFiberData]; [content] is [None] when
    [props.children || props.content] is undefined. *)
Record ReactMessage : Type := mkReactMessage {
  rm_role : Role;
  rm_content : option string;
  rm_props : Props
}.

Module ReactStrategy.

Import Dom BaseStrategy.

Definition name : string := "React组件分析策略".
Definition priority : nat := 100.

(** [props[key]] *)
Fixpoint prop (props : Props) (key : string) : option string :=
  match props with
  | [] => None
  | (k, v) :: rest => if String.eqb k key then Some v else prop rest key
  end.

Definition propIs (props : Props) (key value : string) : bool :=
  match prop props key with
  | Some v => String.eqb v value
  | None => false
  end.

(** [typeof type === 'string' ? type : (type.displayName || type.name || '')] *)
Definition typeNameOf (type : ComponentType) : string :=
  match type with
  | TypeHost tag => tag
  | TypeComponent displayName name =>
      if JsString.truthy displayName then displayName else name
  | TypeNone => ""%string
  end.

(** [!type] *)
Definition typeMissing (type : ComponentType) : bool :=
  match type with
  | TypeNone => true
  | TypeHost tag => negb (JsString.truthy tag)
  | TypeComponent _ _ => false
  end.

Definition isMessageComponent (type : ComponentType) (props : Props) : bool :=
  if typeMissing type then false
  else
    let typeName := typeNameOf type in
    let propKeys := map fst props in
    let indicators :=
      [ JsString.includes (JsString.toLowerCase typeName) "message";
        JsString.includes (JsString.toLowerCase typeName) "chat";
        JsString.includes (JsString.toLowerCase typeName) "bubble";
        existsb (fun key => JsString.includes (JsString.toLowerCase key) "message")
                propKeys;
        existsb (fun key => JsString.includes (JsString.toLowerCase key) "role")
                propKeys;
        propIs props "role" "user" || propIs props "role" "assistant" ] in
    existsb (fun b => b) indicators.

(** Reached only with a [type] that is not missing. *)
Definition detectRoleFromComponent (type : ComponentType) (props : Props)
  : Role :=
  match prop props "role" with
  | Some (String _ _ as role) =>
      if String.eqb role "user" then user else assistant
  | _ =>
      let typeName :=
        match type with
        | TypeHost tag => tag
        | TypeComponent _ _ => JsString.toLowerCase (typeNameOf type)
        | TypeNone => ""%string
        end in
      if JsString.includes typeName "user" || JsString.includes typeName "human"
      then user else assistant
  end.

(** [props.children || props.content] *)
Definition contentOf (props : Props) : option string :=
  match prop props "children" with
  | Some (String _ _ as c) => Some c
  | _ => prop props "content"
  end.

(** The closure [traverse] of [extractReactFiberData], threading the
    [messages] array it pushes to. *)
Fixpoint traverse (node : Fiber) (messages : list ReactMessage)
  : list ReactMessage :=
  match node with
  | FiberNull => messages
  | FiberNode type memoizedProps child sibling =>
      let props := match memoizedProps with Some p => p | None => [] end in
      let messages :=
        if isMessageComponent type props
        then messages
             ++ [ {| rm_role := detectRoleFromComponent type props;
                     rm_content := contentOf props;
                     rm_props := props |} ]
        else messages in
      let messages := traverse child messages in
      traverse sibling messages
  end.

Definition extractReactFiberData (fiber : Fiber) : list ReactMessage :=
  traverse fiber [].

(** The value under the first [__reactFiber$] or [__reactProps$] key met
    on the way up, at most 10 levels; [None] is null. *)
Definition findReactRoot (element : Element) : option Fiber :=
  match find (fun n => match reactRef n with Some _ => true | None => false end)
             (firstn 10 (node element :: ancestors element)) with
  | Some n => reactRef n
  | None => None
  end.

Definition findCommonWords (str1 str2 : string) : list string :=
  let notLetter c := negb (JsString.isLower c) in
  let words1 := JsString.tokens notLetter (JsString.toLowerCase str1) in
  let words2 := JsString.tokens notLetter (JsString.toLowerCase str2) in
  filter (fun word => JsString.mem word words2) words1.

Definition calculateConfidence (userElement assistantElement : Element)
  : Number :=
  let confidence := Fin (7 # 10) in
  let confidence :=
    if negb (Qle_bool (rectTop (node assistantElement))
                      (rectBottom (node userElement)))
    then Num.add confidence (Fin (2 # 10))
    else confidence in
  let userClasses := className (node userElement) in
  let assistantClasses := className (node assistantElement) in
  let confidence :=
    if JsString.truthy userClasses && JsString.truthy assistantClasses
    then
      let commonWords := findCommonWords userClasses assistantClasses in
      if 0 <? List.length commonWords
      then Num.add confidence (Fin (1 # 10))
      else confidence
    else confidence in
  Num.min confidence (Fin (95 # 100)).

Definition analyzeFormat (html : string) : FormatAnalysis :=
  {| hasCodeBlocks :=
       JsString.includes html "<pre>" || JsString.includes html "<code>"
       || JsString.includes html "```";
     codeLanguages := JsString.distinct (JsString.fenceMatches html);
     hasHeadings := 0 <? List.length (JsString.headingMatches html);
     headingLevels := StructureStrategy.distinctNat (JsString.headingMatches html);
     hasLists :=
       JsString.includes html "<ul>" || JsString.includes html "<ol>"
       || JsString.includes html "<li>";
     hasTables := JsString.includes html "<table>" |}.

(** The [forEach] loop that [extractFromReactData] (over records) and
    [extractFromDOM] (over elements) share in shape, over the item type,
    its role and the round constructor; the value is the state of the two
    captured variables after the last callback. *)
Fixpoint alternate {A R : Type} (roleOf : A -> Role) (mk : Z -> A -> A -> R)
         (items : list A) (conversation : list R) (userMessage : option A)
  : list R * option A :=
  match items with
  | [] => (conversation, userMessage)
  | message :: rest =>
      match roleOf message, userMessage with
      | user, _ => alternate roleOf mk rest conversation (Some message)
      | assistant, Some u =>
          let round :=
            mk (Z.of_nat (List.length conversation) + 1)%Z u message in
          alternate roleOf mk rest (conversation ++ [round]) None
      | assistant, None => alternate roleOf mk rest conversation userMessage
      end
  end.

Section Host.

  (** [DOMPurify.sanitize] *)
Variable sanitize : string -> string.
  (** The text content of a detached [div] whose [innerHTML] is the
      argument. *)
Variable innerHTMLText : string -> string.
Variable pg : Page.

Definition sanitizeHTML (html : string) : string := sanitize html.

Definition extractText (html : string) : string :=
    JsString.trim (innerHTMLText html).

  (** [message.content || ''] *)
Definition orEmpty (content : option string) : string :=
    match content with Some c => c | None => ""%string end.

Definition tryGetReactData (container : Element)
    : option (list ReactMessage) :=
    if devtoolsHook pg
    then match findReactRoot container with
         | Some (FiberNode _ _ _ _ as reactRoot) =>
             Some (extractReactFiberData reactRoot)
         | _ => None
         end
    else None.

  (** [createConversationRound], from two records. *)
Definition createConversationRound (index : Z)
             (userMessage assistantMessage : ReactMessage) : ConversationRound :=
    let now := clock pg in
    {| round_index := index;
       round_timestamp := now;
       round_user :=
         {| user_index := index;
            user_timestamp := now;
            user_role := user;
            user_html := sanitizeHTML (orEmpty (rm_content userMessage));
            user_text := extractText (orEmpty (rm_content userMessage));
            user_elementInfo :=
              {| info_tagName := "div";
                 info_className := "react-user-message" |} |};
       round_assistant :=
         {| assistant_index := index;
            assistant_timestamp := now;
            assistant_role := assistant;
            assistant_html := sanitizeHTML (orEmpty (rm_content assistantMessage));
            assistant_text := extractText (orEmpty (rm_content assistantMessage));
            formatAnalysis := analyzeFormat (orEmpty (rm_content assistantMessage));
            assistant_elementInfo :=
              {| info_tagName := "div";
                 info_className := "react-assistant-message" |} |};
       round_metadata :=
         {| extractionConfidence := Fin (9 # 10);
            elementCount := 2 |} |}.

Definition createConversationRoundFromElements (index : Z)
             (userElement assistantElement : Element) : ConversationRound :=
    let now := clock pg in
    {| round_index := index;
       round_timestamp := now;
       round_user :=
         {| user_index := index;
            user_timestamp := now;
            user_role := user;
            user_html := sanitizeHTML (outerHTML (node userElement));
            user_text := extractText (textContent (node userElement));
            user_elementInfo :=
              {| info_tagName := tagName (node userElement);
                 info_className := className (node userElement) |} |};
       round_assistant :=
         {| assistant_index := index;
            assistant_timestamp := now;
            assistant_role := assistant;
            assistant_html := sanitizeHTML (outerHTML (node assistantElement));
            assistant_text := extractText (textContent (node assistantElement));
            formatAnalysis := analyzeFormat (outerHTML (node assistantElement));
            assistant_elementInfo :=
              {| info_tagName := tagName (node assistantElement);
                 info_className := className (node assistantElement) |} |};
       round_metadata :=
         {| extractionConfidence :=
              calculateConfidence userElement assistantElement;
            elementCount := 2 |} |}.

Definition createExtractedConversation
             (conversation : list ConversationRound) (strategyUsed : string)
    : ExtractedConversation :=
    let confidenceScore := meanConfidence conversation in
    {| version := "1.0";
       metadata :=
         {| sourceUrl := location_href pg;
            extractedAt := clockISO pg;
            extractorVersion := "1.0.0";
            strategyUsed := strategyUsed;
            confidenceScore := confidenceScore;
            pageInfo :=
              {| pi_title := document_title pg;
                 pi_urlHash := location_hash pg;
                 pi_userAgent := navigator_userAgent pg |} |};
       conversation := conversation;
       extractionStats :=
         {| totalRounds := List.length conversation;
            successRate := if 0 <? List.length conversation then 100 else 0;
            processingTimeMs := 0%Z;
            domElementsAnalyzed := List.length (allElements pg) |} |}.

Definition extractFromReactData (messages : list ReactMessage)
    : ExtractedConversation :=
    createExtractedConversation
      (fst (alternate rm_role createConversationRound messages [] None))
      "react-strategy".

Definition extractFromDOM (container : Element) : ExtractedConversation :=
    let elements := extractMessageElements container in
    createExtractedConversation
      (fst (alternate classifyMessage createConversationRoundFromElements
                      elements [] None))
      "dom-fallback".

  (** An array, even an empty one, is truthy: whenever the probe found a
      root, its records are used. *)
Definition execute : Outcome :=
    match findConversationContainer pg with
    | None => Threw "未找到对话容器"
    | Some container =>
        match tryGetReactData container with
        | Some messages => Returned (extractFromReactData messages)
        | None => Returned (extractFromDOM container)
        end
    end.

End Host.

End ReactStrategy.

(* ================================================================== *)
(** ** DOMIntelligentAnalyzer (shared/constants/index.ts) *)

Module DOMIntelligentAnalyzer.

Definition evaluateExtraction (result : ExtractedConversation) : Number :=
  let score := Num.zero in
  let score :=
    if 0 <? List.length (conversation result)
    then Num.add score
                 (Num.ofNat (Nat.min (List.length (conversation result) * 10) 30))
    else score in
  let avgConfidence :=
    Num.div (confidenceSum (conversation result))
            (Num.ofNat (List.length (conversation result))) in
  let score := Num.add score (Num.mul avgConfidence (Fin 40)) in
  let hasCodeBlocks :=
    existsb (fun round => hasCodeBlocks (formatAnalysis (round_assistant round)))
            (conversation result) in
  let hasHeadings :=
    existsb (fun round => hasHeadings (formatAnalysis (round_assistant round)))
            (conversation result) in
  let score := if hasCodeBlocks then Num.add score (Fin 15) else score in
  let score := if hasHeadings then Num.add score (Fin 15) else score in
  score.

(** The predicate of the [filter] of [validateAndEnhance]. *)
Definition nonEmptyRound (round : ConversationRound) : bool :=
  (0 <? String.length (JsString.trim (user_text (round_user round))))
  && (0 <? String.length (JsString.trim (assistant_text (round_assistant round)))).

Definition validateAndEnhance (pg : Page) (result : ExtractedConversation)
  : ExtractedConversation :=
  let conversation := filter nonEmptyRound (conversation result) in
  {| version := version result;
     metadata :=
       {| sourceUrl := location_href pg;
          extractedAt := clockISO pg;
          extractorVersion := extractorVersion (metadata result);
          strategyUsed := strategyUsed (metadata result);
          confidenceScore := confidenceScore (metadata result);
          pageInfo :=
            {| pi_title := document_title pg;
               pi_urlHash := location_hash pg;
               pi_userAgent := navigator_userAgent pg |} |};
     conversation := conversation;
     extractionStats :=
       {| totalRounds := List.length conversation;
          successRate := if 0 <? List.length conversation then 100 else 0;
          processingTimeMs := processingTimeMs (extractionStats result);
          domElementsAnalyzed := List.length (Dom.allElements pg) |} |}.

(** The state of the loop of [analyze]. *)
Record Best : Type := mkBest {
  bestResult : option ExtractedConversation;
  bestScore : Number
}.

Definition initial : Best := {| bestResult := None; bestScore := Num.zero |}.

(** One iteration: the [try] block and its [catch]. *)
Definition tryStrategy (best : Best) (outcome : Outcome) : Best :=
  match outcome with
  | Threw _ => best
  | Returned result =>
      let score := evaluateExtraction result in
      if Num.gt score (bestScore best)
      then {| bestResult := Some result; bestScore := score |}
      else best
  end.

Definition runStrategies (outcomes : list Outcome) : Best :=
  fold_left tryStrategy outcomes initial.

Definition setProcessingTime (processingTime : Z)
           (result : ExtractedConversation) : ExtractedConversation :=
  {| version := version result;
     metadata := metadata result;
     conversation := conversation result;
     extractionStats :=
       {| totalRounds := totalRounds (extractionStats result);
          successRate := successRate (extractionStats result);
          processingTimeMs := processingTime;
          domElementsAnalyzed := domElementsAnalyzed (extractionStats result) |} |}.

(** [analyze()], over what each registered strategy's [execute()] did, in
    registration order; [inl] is the error it throws. *)
Definition analyze (pg : Page) (startTime : Z) (outcomes : list Outcome)
  : string + ExtractedConversation :=
  match bestResult (runStrategies outcomes) with
  | None => inl "所有提取策略均失败"%string
  | Some bestResult =>
      let bestResult := validateAndEnhance pg bestResult in
      let processingTime := (clock pg - startTime)%Z in
      inr (setProcessingTime processingTime bestResult)
  end.

(** The strategies of the constructor, run on the page.  [VisualStrategy]
    is not part of the sources: what its [execute()] does is a
    parameter. *)
Definition strategies (sanitize innerHTMLText : string -> string) (pg : Page)
           (visual : Outcome) : list Outcome :=
  [ ReactStrategy.execute sanitize innerHTMLText pg;
    StructureStrategy.execute sanitize pg;
    visual ].

End DOMIntelligentAnalyzer.

(* ================================================================== *)
(** ** DeepSeekExtractor (the content script bundled after base-strategy.ts) *)

Module DeepSeekExtractor.

(** What [sendResponse] is called with. *)
Record Response (D : Type) : Type := mkResponse {
  success : bool;
  data : option D;
  message : option string;
  error : option string
}.

Arguments mkResponse {D}.
Arguments success {D}.
Arguments data {D}.
Arguments message {D}.
Arguments error {D}.

Section Handler.

(** The standard format and [converter.convertToStandardFormat], which are
    not part of the sources: the conversion returns or throws. *)
Variable D : Type.
Variable convertToStandardFormat : ExtractedConversation -> string + D.

(** [extractConversation()], over what [analyzer.analyze()] does. *)
Definition extractConversation (analysis : string + ExtractedConversation)
  : string + D :=
  match analysis with
  | inl e => inl e
  | inr extracted => convertToStandardFormat extracted
  end.

(** [handleMessage(request, sendResponse)], over [request.action]: the
    [switch] inside its [try], the [catch] answering with the message of
    the error. *)
Definition handleMessage (analysis : string + ExtractedConversation)
           (action : string) : Response D :=
  if String.eqb action "extract"
  then match extractConversation analysis with
       | inr result =>
           {| success := true; data := Some result;
              message := None; error := None |}
       | inl e =>
           {| success := false; data := None;
              message := None; error := Some e |}
       end
  else if String.eqb action "ping"
  then {| success := true; data := None;
          message := Some "pong"%string; error := None |}
  else {| success := false; data := None;
          message := None; error := Some "未知操作"%string |}.

End Handler.

End DeepSeekExtractor.

(* ================================================================== *)
(** ** IEEE 754 binary64 *)

(** The numbers of the program are IEEE 754 doubles.  [Number] carries
    their values as exact rationals: the comparisons and the bounds proved
    of it do not depend on rounding.  This module has the rounded
    operations themselves, for the function whose values are stated to the
    last bit. *)
Module Double.

Definition prec : Z := 53%Z.
Definition emax : Z := 1024%Z.

Definition ofZ (n : Z) : SpecFloat.spec_float :=
  SpecFloat.binary_normalize prec emax n 0%Z false.

(** The decimal literal with value [n / d]: the double nearest to it. *)
Definition literal (n d : Z) : SpecFloat.spec_float :=
  SpecFloat.SFdiv prec emax (ofZ n) (ofZ d).

(** [a + b] *)
Definition add (a b : SpecFloat.spec_float) : SpecFloat.spec_float :=
  SpecFloat.SFadd prec emax a b.

(** [Math.min(a, b)]: NaN if either argument is, and -0 below +0. *)
Definition min (a b : SpecFloat.spec_float) : SpecFloat.spec_float :=
  match SpecFloat.SFcompare a b with
  | None => SpecFloat.S754_nan
  | Some Lt => a
  | Some Gt => b
  | Some Eq =>
      match b with
      | SpecFloat.S754_zero true => b
      | _ => a
      end
  end.

(** The double just below [x]. *)
Definition pred (x : SpecFloat.spec_float) : SpecFloat.spec_float :=
  SpecFloat.SFpred prec emax x.

(** The value of a double; [None] for NaN and the infinities. *)
Definition toQ (x : SpecFloat.spec_float) : option Q :=
  match x with
  | SpecFloat.S754_zero _ => Some 0%Q
  | SpecFloat.S754_finite s m e =>
      Some (inject_Z (SpecFloat.cond_Zopp s (Zpos m)) * Qpower 2 e)%Q
  | _ => None
  end.

(** [ReactStrategy.calculateConfidence], with the additions rounded as
    the program rounds them. *)
Definition calculateConfidence (userElement assistantElement : Element)
  : SpecFloat.spec_float :=
  let confidence := literal 7 10 in
  let confidence :=
    if negb (Qle_bool (rectTop (node assistantElement))
                      (rectBottom (node userElement)))
    then add confidence (literal 2 10)
    else confidence in
  let userClasses := className (node userElement) in
  let assistantClasses := className (node assistantElement) in
  let confidence :=
    if JsString.truthy userClasses && JsString.truthy assistantClasses
    then
      let commonWords :=
        ReactStrategy.findCommonWords userClasses assistantClasses in
      if 0 <? List.length commonWords
      then add confidence (literal 1 10)
      else confidence
    else confidence in
  min confidence (literal 95 100).

End Double.

(* ================================================================== *)
(** ** Example pages *)

Module Examples.

Import Dom.

(** In the examples the markup carries no active content and the texts no
    markup: the sanitizer and the HTML parser leave such strings as they
    are. *)
Definition sanitize (html : string) : string := html.
Definition innerHTMLText (html : string) : string := html.

(** An element at the origin with no computed style read and no component
    reference. *)
Definition el (tag cls text html : string) (kids : list Node) : Node :=
  {| tagName := tag; className := cls; id := ""; textContent := text;
     outerHTML := html; rectTop := 0; rectBottom := 0;
     computedStyle := []; reactRef := None; children := kids |}.

Definition quote : string := String (ascii_of_nat 34) EmptyString.

(** The serialization of an element with a class attribute. *)
Definition markup (tag cls inner : string) : string :=
  let t := JsString.toLowerCase tag in
  ("<" ++ t ++ " class=" ++ quote ++ cls ++ quote ++ ">"
       ++ inner ++ "</" ++ t ++ ">")%string.

(** An element holding only text. *)
Definition leaf (tag cls text : string) : Node :=
  el tag cls text (markup tag cls text) [].

(** An element holding only elements. *)
Definition box (tag cls : string) (kids : list Node) : Node :=
  el tag cls
     (String.concat "" (map textContent kids))
     (markup tag cls (String.concat "" (map outerHTML kids)))
     kids.

Definition at_ (top bottom : Q) (n : Node) : Node :=
  {| tagName := tagName n; className := className n; id := id n;
     textContent := textContent n; outerHTML := outerHTML n;
     rectTop := top; rectBottom := bottom;
     computedStyle := computedStyle n; reactRef := reactRef n;
     children := children n |}.

Definition pageOf (body : list Node) : Page :=
  {| documentElement := box "HTML" "" [ box "BODY" "" body ];
     location_href := "https://chat.example/a";
     location_hash := "";
     document_title := "chat";
     navigator_userAgent := "ua";
     devtoolsHook := false;
     clock := 1000%Z;
     clockISO := "2024-01-01T00:00:00.000Z" |}.

(** The container located on a page, the document root when there is
    none. *)
Definition containerOf (pg : Page) : Element :=
  match BaseStrategy.findConversationContainer pg with
  | Some container => container
  | None => root pg
  end.

Definition para (text : string) : Node := leaf "P" "" text.

(** Three sibling messages; the middle one has another shape. *)
Definition gapPage : Page :=
  pageOf
    [ box "DIV" "chat"
          [ box "DIV" "message user"
                [ para "What is the answer to this question?" ];
            box "SECTION" "note wide"
                [ para "An unrelated note in between.";
                  para "It has two paragraphs." ];
            box "DIV" "message assistant"
                [ para "The answer to the question is four." ] ] ].

Definition gapContainer : Element := containerOf gapPage.
Definition gapFirst : Element := nth 0 (childElements gapContainer) gapContainer.
Definition gapNote : Element := nth 1 (childElements gapContainer) gapContainer.
Definition gapLast : Element := nth 2 (childElements gapContainer) gapContainer.

(** A conversation whose first user bubble is empty; the second exchange
    is laid out with the answer below the question. *)
Definition stalePage : Page :=
  pageOf
    [ box "DIV" "chat-container"
          [ leaf "DIV" "user message" "";
            leaf "DIV" "assistant message" "The first answer is here";
            at_ 0 10 (leaf "DIV" "user message" "Tell me some more please");
            at_ 20 30
                (leaf "DIV" "assistant message" "The second answer is here") ] ].

(** The run of [analyze] on [stalePage], started at time 0, with a third
    strategy that throws. *)
Definition staleRun : string + ExtractedConversation :=
  DOMIntelligentAnalyzer.analyze
    stalePage 0
    (DOMIntelligentAnalyzer.strategies sanitize innerHTMLText stalePage
                                       (Threw "no layout")).

Definition staleContainer : Element := containerOf stalePage.
Definition staleEmpty : Element :=
  nth 0 (childElements staleContainer) staleContainer.

(** A message wrapper around a body around a paragraph, next to a plain
    article with no message-like word in its markup. *)
Definition nestedPage : Page :=
  pageOf
    [ box "DIV" "chat"
          [ box "DIV" "message user"
                [ box "DIV" "message-body"
                      [ para "Where can I find the documentation?" ] ];
            box "ARTICLE" "assistant"
                [ para "It is linked from the front page." ] ] ].

Definition nestedContainer : Element := containerOf nestedPage.

(** The same page as [stalePage] with the instrumentation hook present and
    a retained component tree attached to the container: a list component
    over a user bubble and an assistant bubble. *)
Definition probeTree : Fiber :=
  FiberNode
    (TypeComponent "" "Conversation") None
    (FiberNode
       (TypeComponent "" "Bubble")
       (Some [("role", "user"); ("children", "What is 2+2?")]%string)
       FiberNull
       (FiberNode
          (TypeComponent "" "Bubble")
          (Some [("role", "assistant"); ("children", "It is 4.")]%string)
          FiberNull FiberNull))
    FiberNull.

Definition withFiber (fiber : Fiber) (n : Node) : Node :=
  {| tagName := tagName n; className := className n; id := id n;
     textContent := textContent n; outerHTML := outerHTML n;
     rectTop := rectTop n; rectBottom := rectBottom n;
     computedStyle := computedStyle n; reactRef := Some fiber;
     children := children n |}.

Definition probePage : Page :=
  {| documentElement :=
       box "HTML" ""
           [ box "BODY" ""
                 [ withFiber probeTree
                     (box "DIV" "chat-container"
                          [ leaf "DIV" "user message" "What is 2+2?";
                            leaf "DIV" "assistant message" "It is 4." ]) ] ];
     location_href := "https://chat.example/a";
     location_hash := "";
     document_title := "chat";
     navigator_userAgent := "ua";
     devtoolsHook := true;
     clock := 1000%Z;
     clockISO := "2024-01-01T00:00:00.000Z" |}.
Definition nestedWrapper : Element :=
  nth 0 (childElements nestedContainer) nestedContainer.
Definition nestedBody : Element :=
  nth 0 (childElements nestedWrapper) nestedWrapper.
Definition nestedArticle : Element :=
  nth 1 (childElements nestedContainer) nestedContainer.

End Examples.

(* ================================================================== *)
(** ** Vocabulary of the statements *)

(** The roles a [ConversationRound] has by its type: [user.role] is the
    literal ['user'], [assistant.role] the literal ['assistant']. *)
Definition typedRound (round : ConversationRound) : Prop :=
  user_role (round_user round) = user
  /\ assistant_role (round_assistant round) = assistant.

Definition validRound (round : ConversationRound) : Prop :=
  typedRound round
  /\ JsString.trim (user_text (round_user round)) <> EmptyString
  /\ JsString.trim (assistant_text (round_assistant round)) <> EmptyString.

(** The claimed test of a component node, in the claim's words: the type
    name or a prop key contains "message", "chat" or "bubble", or the role
    prop is "user" or "assistant". *)
Definition isMessageComponent_claimed (type : ComponentType) (props : Props)
  : bool :=
  let keyword (s : string) :=
    JsString.includes (JsString.toLowerCase s) "message"
    || JsString.includes (JsString.toLowerCase s) "chat"
    || JsString.includes (JsString.toLowerCase s) "bubble" in
  keyword (ReactStrategy.typeNameOf type)
  || existsb keyword (map fst props)
  || ReactStrategy.propIs props "role" "user"
  || ReactStrategy.propIs props "role" "assistant".

(** The claimed sibling walk, in the claim's words: it stops at the first
    sibling that is not a candidate, is processed, or is not similar to the
    seed. *)
Fixpoint walk_claimed (candidateElements : list Element)
         (elementSignature : string)
         (extend : Element -> list Element -> list Element)
         (siblings : list Element) (cluster processed : list Element)
  : list Element * list Element :=
  match siblings with
  | [] => (cluster, processed)
  | sibling :: rest =>
      if Dom.mem sibling candidateElements
         && negb (Dom.mem sibling processed)
         && StructureStrategy.isSimilarSignature
              elementSignature
              (StructureStrategy.calculateElementSignature sibling)
      then walk_claimed candidateElements elementSignature extend rest
                        (extend sibling cluster) (sibling :: processed)
      else (cluster, processed)
  end.

(** The longest prefix whose members all pass [f]. *)
Fixpoint takeWhile {A : Type} (f : A -> bool) (l : list A) : list A :=
  match l with
  | [] => []
  | x :: l' => if f x then x :: takeWhile f l' else []
  end.

(** A pairing decision of a sequential scan: the index handed to the round
    constructor, the user element and the assistant element. *)
Definition Pairing : Type := (Z * Element * Element)%type.

Definition pairing (index : Z) (userElement assistantElement : Element)
  : Pairing := (index, userElement, assistantElement).

Definition roundOf {R : Type} (mk : Z -> Element -> Element -> R) (t : Pairing)
  : R := mk (fst (fst t)) (snd (fst t)) (snd t).

(** [classifyMessage(e) === role] *)
Definition classifiedAs (role : Role) (e : Element) : bool :=
  match BaseStrategy.classifyMessage e, role with
  | user, user | assistant, assistant => true
  | _, _ => false
  end.

Definition confidenceWithin (lo hi : Q) (round : ConversationRound) : Prop :=
  exists q, extractionConfidence (round_metadata round) = Fin q
            /\ (lo <= q <= hi)%Q.

(** The rounds are numbered 1, 2, ... in order. *)
Definition numberedFromOne (conversation : list ConversationRound) : Prop :=
  map round_index conversation
  = map Z.of_nat (seq 1 (List.length conversation)).

(** The places of a role sequence where a user item is directly followed
    by an assistant item. *)
Fixpoint handovers (roles : list Role) : nat :=
  match roles with
  | [] => 0
  | user :: ((assistant :: _) as rest) => S (handovers rest)
  | _ :: rest => handovers rest
  end.

(** [stalePage] with the instrumentation hook present and, on the
    container, a retained tree that holds no message component. *)
Definition quietTree : Fiber :=
  FiberNode (TypeComponent "" "App") None
            (FiberNode (TypeHost "div") (Some [("id", "root")]%string)
                       FiberNull FiberNull)
            FiberNull.

Definition quietPage : Page :=
  {| documentElement :=
       Examples.box
         "HTML" ""
         [ Examples.box
             "BODY" ""
             [ Examples.withFiber quietTree
                 (Examples.box
                    "DIV" "chat-container"
                    [ Examples.leaf "DIV" "user message" "What is 2+2?";
                      Examples.leaf "DIV" "assistant message" "It is 4." ]) ] ];
     location_href := "https://chat.example/a";
     location_hash := "";
     document_title := "chat";
     navigator_userAgent := "ua";
     devtoolsHook := true;
     clock := 1000%Z;
     clockISO := "2024-01-01T00:00:00.000Z" |}.

(** The fields of a format analysis agree with one another: the heading
    levels are distinct numbers from 1 to 6 and there is one exactly when
    [hasHeadings] is set; the code languages are distinct non-empty words
    and there is one only when [hasCodeBlocks] is set. *)
Definition formatConsistent (fa : FormatAnalysis) : Prop :=
  NoDup (headingLevels fa)
  /\ Forall (fun level => 1 <= level <= 6) (headingLevels fa)
  /\ (hasHeadings fa = true <-> headingLevels fa <> [])
  /\ NoDup (codeLanguages fa)
  /\ Forall (fun lang => lang <> EmptyString) (codeLanguages fa)
  /\ (codeLanguages fa <> [] -> hasCodeBlocks fa = true).

(* ================================================================== *)
(** * Properties *)

(** ** Numbers *)

Lemma Qle_bool_false (x y : Q) : Qle_bool x y = false -> (y < x)%Q.
Proof.
  intros H. apply Qnot_le_lt. intros L.
  apply Qle_bool_iff in L. congruence.
Qed.

Lemma Qle_bool_true (x y : Q) : Qle_bool x y = true -> (x <= y)%Q.
Proof. apply Qle_bool_iff. Qed.

Ltac qbool :=
  repeat match goal with
  | H : negb _ = true |- _ => apply negb_true_iff in H
  | H : negb _ = false |- _ => apply negb_false_iff in H
  | H : Qle_bool _ _ = true |- _ => apply Qle_bool_true in H
  | H : Qle_bool _ _ = false |- _ => apply Qle_bool_false in H
  | |- negb _ = true => apply negb_true_iff
  | |- negb _ = false => apply negb_false_iff
  | |- Qle_bool _ _ = true => apply Qle_bool_iff
  | |- Qle_bool _ _ = false => apply not_true_is_false; intros ?
  end.

Lemma gt_NaN_l (b : Number) : Num.gt NaN b = false.
Proof. reflexivity. Qed.

Lemma gt_not_NaN (a b : Number) :
  Num.gt a b = true -> Num.isNaN a = false /\ Num.isNaN b = false.
Proof. destruct a, b; simpl; intros H; try discriminate; auto. Qed.

(** A score that does not beat [b] does not beat anything above [b]. *)
Lemma gt_false_raise (s b b' : Number) :
  Num.gt s b = false -> Num.gt b' b = true -> Num.gt s b' = false.
Proof.
  destruct s as [x| | |], b as [y| | |], b' as [z| | |]; simpl;
    intros H1 H2; try discriminate; try reflexivity.
  qbool. lra.
Qed.

Lemma gt_irrefl (a : Number) : Num.gt a a = false.
Proof. destruct a as [x| | |]; simpl; try reflexivity. qbool. lra. Qed.

(** What beats a level that is not below 0 is above 0, and stays not below
    0 when it becomes the level. *)
Lemma gt_above_zero (s b : Number) :
  Num.gt s b = true -> Num.gt (Fin 0) b = false ->
  Num.gt s (Fin 0) = true /\ Num.gt (Fin 0) s = false.
Proof.
  destruct s as [x| | |], b as [y| | |]; simpl; intros H1 H2;
    try discriminate; try (split; reflexivity).
  qbool. split; qbool; lra.
Qed.

(** A number that nothing above 0 beats is itself above 0, when there is
    something above 0. *)
Lemma gt_zero_below (s b : Number) :
  Num.gt s (Fin 0) = true -> Num.gt s b = false -> Num.isNaN b = false ->
  Num.gt b (Fin 0) = true.
Proof.
  destruct s as [x| | |], b as [y| | |]; simpl; intros H1 H2 H3;
    try discriminate; try reflexivity.
  qbool. lra.
Qed.

(** ** The orchestrator *)

Section Orchestrator.

Import DOMIntelligentAnalyzer.

Lemma runStrategies_snoc (outcomes : list Outcome) (o : Outcome) :
    runStrategies (outcomes ++ [o]) = tryStrategy (runStrategies outcomes) o.
Proof. unfold runStrategies. rewrite fold_left_app. reflexivity. Qed.

Lemma runStrategies_app (before after : list Outcome) :
    runStrategies (before ++ after)
    = fold_left tryStrategy after (runStrategies before).
Proof. unfold runStrategies. apply fold_left_app. Qed.

Lemma evaluate_no_rounds (result : ExtractedConversation) :
    conversation result = [] -> evaluateExtraction result = NaN.
Proof.
    intros H. unfold evaluateExtraction, confidenceSum. rewrite H. reflexivity.
Qed.

  (** Once a result is held, one is held to the end of the loop. *)
Lemma best_stays (outcomes : list Outcome) :
    forall best,
      bestResult best <> None ->
      bestResult (fold_left tryStrategy outcomes best) <> None.
Proof.
    induction outcomes as [|o outcomes IH]; intros best H; simpl; auto.
    apply IH. destruct o as [m|r]; simpl; auto.
    destruct (Num.gt _ _); simpl; auto. discriminate.
Qed.

  (** What the loop state knows about the outcomes it has been through. *)
Record Sound (outcomes : list Outcome) (best : Best) : Prop := {
    sound_number : Num.isNaN (bestScore best) = false;
    sound_held :
      forall r, bestResult best = Some r ->
                In (Returned r) outcomes /\ bestScore best = evaluateExtraction r;
    sound_max :
      forall r, In (Returned r) outcomes ->
                Num.gt (evaluateExtraction r) (bestScore best) = false
  }.

Lemma runStrategies_sound (outcomes : list Outcome) :
    Sound outcomes (runStrategies outcomes).
Proof.
    induction outcomes as [|o outcomes IH] using rev_ind.
    - split; simpl; auto; try discriminate. intros r [].
    - rewrite runStrategies_snoc. destruct IH as [Hn Hh Hm].
      destruct o as [m|r]; simpl.
      + split; auto.
        * intros r Hr. destruct (Hh r Hr). split; auto.
          apply in_or_app; auto.
        * intros r Hr. apply in_app_or in Hr as [Hr|[Hr|[]]]; auto.
          discriminate.
      + destruct (Num.gt (evaluateExtraction r) (bestScore (runStrategies outcomes)))
          eqn:G.
        * split; simpl.
          -- apply gt_not_NaN in G. tauto.
          -- intros r' Hr'. injection Hr' as <-. split; auto.
             apply in_or_app. right. left. reflexivity.
          -- intros r' Hr'. apply in_app_or in Hr' as [Hr'|[Hr'|[]]].
             ++ eapply gt_false_raise; eauto.
             ++ injection Hr' as <-. apply gt_irrefl.
        * split; auto.
          -- intros r' Hr'. destruct (Hh r' Hr'). split; auto.
             apply in_or_app; auto.
          -- intros r' Hr'. apply in_app_or in Hr' as [Hr'|[Hr'|[]]]; auto.
             injection Hr' as <-. exact G.
Qed.

  (** A held result was put there by a strategy that beat the running best. *)
Lemma held_was_scored (outcomes : list Outcome) :
    bestResult (runStrategies outcomes) <> None ->
    exists before result after,
      outcomes = before ++ Returned result :: after
      /\ Num.gt (evaluateExtraction result) (bestScore (runStrategies before))
         = true.
Proof.
    induction outcomes as [|o outcomes IH] using rev_ind.
    - simpl. intros H. contradiction H. reflexivity.
    - rewrite runStrategies_snoc. intros H.
      assert (Hold : bestResult (runStrategies outcomes) <> None ->
                     exists before result after,
                       outcomes ++ [o] = before ++ Returned result :: after
                       /\ Num.gt (evaluateExtraction result)
                                 (bestScore (runStrategies before)) = true).
      { intros H'. destruct (IH H') as (b & r & a & -> & G).
        exists b, r, (a ++ [o]). split; auto.
        rewrite <- app_assoc. reflexivity. }
      destruct o as [m|r]; simpl in H; auto.
      destruct (Num.gt (evaluateExtraction r) (bestScore (runStrategies outcomes)))
        eqn:G; auto.
      exists outcomes, r, []. split; auto.
Qed.

Lemma scored_is_held (before after : list Outcome)
        (result : ExtractedConversation) :
    Num.gt (evaluateExtraction result) (bestScore (runStrategies before)) = true ->
    bestResult (runStrategies (before ++ Returned result :: after)) <> None.
Proof.
    intros G. rewrite runStrategies_app. simpl. rewrite G.
    apply best_stays. simpl. discriminate.
Qed.

  (** What [analyze] returns when a result is held. *)
Lemma analyze_returns (pg : Page) (startTime : Z) (outcomes : list Outcome)
        (out : ExtractedConversation) :
    analyze pg startTime outcomes = inr out ->
    exists best,
      In (Returned best) outcomes
      /\ out = setProcessingTime (clock pg - startTime)
                                 (validateAndEnhance pg best)
      /\ forall r, In (Returned r) outcomes ->
                   Num.gt (evaluateExtraction r) (evaluateExtraction best) = false.
Proof.
    unfold analyze. intros H.
    destruct (runStrategies_sound outcomes) as [_ Hh Hm].
    destruct (bestResult (runStrategies outcomes)) as [best|] eqn:E;
      [|discriminate].
    injection H as <-. destruct (Hh best eq_refl) as [Hin Hs].
    exists best. repeat split; auto.
    intros r Hr. rewrite <- Hs. auto.
Qed.

(** While no result is held the running best is the 0 it started from. *)
Lemma unheld_score_zero (outcomes : list Outcome) :
  bestResult (runStrategies outcomes) = None ->
  bestScore (runStrategies outcomes) = Num.zero.
Proof.
  induction outcomes as [|o outcomes IH] using rev_ind; [reflexivity|].
  rewrite runStrategies_snoc. destruct o as [m|r]; simpl; auto.
  destruct (Num.gt _ _); simpl; [discriminate|auto].
Qed.

(** The running best is never below 0, and it is 0 or the score of a
    result returned so far. *)
Lemma runningBest_from_zero (outcomes : list Outcome) :
  Num.gt (Fin 0) (bestScore (runStrategies outcomes)) = false
  /\ (bestScore (runStrategies outcomes) = Fin 0
      \/ exists r, In (Returned r) outcomes
                   /\ bestScore (runStrategies outcomes) = evaluateExtraction r
                   /\ Num.gt (evaluateExtraction r) (Fin 0) = true).
Proof.
  induction outcomes as [|o outcomes [IH1 IH2]] using rev_ind.
  - split; [reflexivity | left; reflexivity].
  - rewrite runStrategies_snoc.
    assert (Hkeep : bestScore (runStrategies outcomes) = Fin 0
                    \/ exists r,
                        In (Returned r) (outcomes ++ [o])
                        /\ bestScore (runStrategies outcomes)
                           = evaluateExtraction r
                        /\ Num.gt (evaluateExtraction r) (Fin 0) = true).
    { destruct IH2 as [E|(r & Hin & E & G)]; [left; exact E|].
      right. exists r. split; [apply in_or_app; left; exact Hin|].
      split; assumption. }
    destruct o as [m|r]; cbn [tryStrategy]; [split; assumption|].
    destruct (Num.gt (evaluateExtraction r) (bestScore (runStrategies outcomes)))
      eqn:G; [|split; assumption].
    destruct (gt_above_zero _ _ G IH1) as [Habove Hnot].
    cbn [bestScore]. split; [exact Hnot|].
    right. exists r. split; [apply in_or_app; right; left; reflexivity|].
    split; [reflexivity | exact Habove].
Qed.

(** C1.  [analyze] goes on past a strategy that throws: the outcome of a
    run is the one of the run without that strategy.  The running best is
    0 before the first strategy, is never below 0, bounds the score of
    every result returned so far, and is 0 or the score of one of them.
    [analyze] throws, and then its own terminal error, exactly when no
    strategy returned a result that scored strictly above the running
    best, which is exactly when no returned result scored above 0.
    Otherwise it returns the validated result of a strategy that ran, one
    that scored above 0 and that no other returned result out-scores. *)
Theorem analyze_fails_iff_no_strategy_scored :
  forall (pg : Page) (startTime : Z) (outcomes : list Outcome),
    let runningBest := fun before => bestScore (runStrategies before) in
    let scored :=
      exists before result after,
        outcomes = before ++ Returned result :: after
        /\ Num.gt (evaluateExtraction result) (runningBest before) = true in
    let aboveZero :=
      exists result,
        In (Returned result) outcomes
        /\ Num.gt (evaluateExtraction result) (Fin 0) = true in
    (forall before message after,
        outcomes = before ++ Threw message :: after ->
        analyze pg startTime outcomes = analyze pg startTime (before ++ after))
    /\ runningBest [] = Fin 0
    /\ (forall before : list Outcome,
           Num.gt (Fin 0) (runningBest before) = false
           /\ (forall r, In (Returned r) before ->
                         Num.gt (evaluateExtraction r) (runningBest before)
                         = false)
           /\ (runningBest before = Fin 0
               \/ exists r, In (Returned r) before
                            /\ runningBest before = evaluateExtraction r))
    /\ (analyze pg startTime outcomes = inl "所有提取策略均失败"%string
        <-> ~ scored)
    /\ (scored <-> aboveZero)
    /\ (forall e, analyze pg startTime outcomes = inl e ->
                  e = "所有提取策略均失败"%string)
    /\ (aboveZero ->
        exists best,
          In (Returned best) outcomes
          /\ Num.gt (evaluateExtraction best) (Fin 0) = true
          /\ analyze pg startTime outcomes
             = inr (setProcessingTime (clock pg - startTime)
                                      (validateAndEnhance pg best))
          /\ forall r, In (Returned r) outcomes ->
                       Num.gt (evaluateExtraction r) (evaluateExtraction best)
                       = false).
Proof.
  intros pg startTime outcomes runningBest scored aboveZero.
  assert (Hthrows : analyze pg startTime outcomes
                    = inl "所有提取策略均失败"%string <-> ~ scored).
  { split.
    - intros H (before & result & after & -> & G).
      apply (scored_is_held before after result) in G.
      unfold analyze in H.
      destruct (bestResult (runStrategies (before ++ Returned result :: after)));
        [discriminate | contradiction G; reflexivity].
    - intros H. unfold analyze.
      destruct (bestResult (runStrategies outcomes)) as [b|] eqn:E; auto.
      contradiction H. apply held_was_scored. rewrite E. discriminate. }
  assert (Hzero : scored <-> aboveZero).
  { split.
    - intros (before & result & after & -> & G). exists result.
      split; [apply in_or_app; right; left; reflexivity|].
      destruct (runningBest_from_zero before) as [H0 _].
      apply (gt_above_zero _ _ G H0).
    - intros (result & Hin & G).
      apply held_was_scored. intros Hnone.
      destruct (runStrategies_sound outcomes) as [_ _ Hmax].
      specialize (Hmax result Hin).
      rewrite (unheld_score_zero _ Hnone) in Hmax.
      unfold Num.zero in Hmax. rewrite G in Hmax. discriminate. }
  split; [|split; [|split; [|split; [|split; [|split]]]]].
  - intros before message after ->. unfold analyze.
    rewrite !runStrategies_app. reflexivity.
  - reflexivity.
  - intros before. unfold runningBest.
    destruct (runningBest_from_zero before) as [H0 Hat].
    destruct (runStrategies_sound before) as [_ _ Hmax].
    split; [exact H0|]. split; [exact Hmax|].
    destruct Hat as [E|(r & Hin & E & _)]; [left; exact E|].
    right. exists r. split; assumption.
  - exact Hthrows.
  - exact Hzero.
  - unfold analyze. intros e.
    destruct (bestResult (runStrategies outcomes)); intros H;
      [discriminate | congruence].
  - intros Habove. pose proof (proj2 Hzero Habove) as Hs.
    destruct Habove as (result & Hin & G).
    destruct (runStrategies_sound outcomes) as [Hn Hh Hmax].
    unfold analyze.
    destruct (bestResult (runStrategies outcomes)) as [best|] eqn:E.
    + destruct (Hh best eq_refl) as [Hbest Hscore].
      exists best. split; [exact Hbest|]. rewrite <- Hscore.
      split; [|split; [reflexivity | exact Hmax]].
      apply (gt_zero_below (evaluateExtraction result)); auto.
    + exfalso. apply (proj1 Hthrows); [|exact Hs].
      unfold analyze. rewrite E. reflexivity.
Qed.

  (** C3.  A candidate with zero rounds scores NaN: the average-confidence
      term is 0/0.  The comparison with the running best is then false
      whatever the running best is, the loop state is left as it was, and
      the candidate is not the result held at the end of any run. *)
Theorem zero_round_candidate_never_best :
    forall result : ExtractedConversation,
      conversation result = [] ->
      evaluateExtraction result = NaN
      /\ (forall best : Best,
             Num.gt (evaluateExtraction result) (bestScore best) = false
             /\ tryStrategy best (Returned result) = best)
      /\ (forall outcomes : list Outcome,
             bestResult (runStrategies outcomes) <> Some result).
Proof.
    intros result H. pose proof (evaluate_no_rounds result H) as E.
    repeat split.
    - exact E.
    - rewrite E. reflexivity.
    - simpl. rewrite E. reflexivity.
    - intros outcomes Hb.
      destruct (runStrategies_sound outcomes) as [Hn Hh _].
      destruct (Hh result Hb) as [_ Hs]. rewrite E in Hs.
      rewrite Hs in Hn. discriminate.
Qed.

End Orchestrator.

(** ** Rounds and where they come from *)

Lemma ratio_range (n m : nat) :
  n <= m -> 0 < m ->
  exists q, Num.div (Num.ofNat n) (Num.ofNat m) = Fin q /\ (0 <= q <= 1)%Q.
Proof.
  intros Hnm Hm. unfold Num.div, Num.ofNat.
  assert (Hy : (0 < inject_Z (Z.of_nat m))%Q).
  { change 0%Q with (inject_Z 0). rewrite <- Zlt_Qlt. lia. }
  assert (Hx : (0 <= inject_Z (Z.of_nat n))%Q).
  { change 0%Q with (inject_Z 0). rewrite <- Zle_Qle. lia. }
  assert (Hxy : (inject_Z (Z.of_nat n) <= inject_Z (Z.of_nat m))%Q).
  { rewrite <- Zle_Qle. lia. }
  destruct (Qcompare_spec (inject_Z (Z.of_nat m)) 0) as [E|L|G].
  - rewrite E in Hy. exfalso. revert Hy. apply Qlt_irrefl.
  - exfalso. apply (Qlt_irrefl 0). eapply Qlt_trans; eauto.
  - eexists. split; [reflexivity|]. split.
    + apply Qle_shift_div_l; [exact Hy | rewrite Qmult_0_l; exact Hx].
    + apply Qle_shift_div_r; [exact Hy | rewrite Qmult_1_l; exact Hxy].
Qed.

Lemma min_cap (q : Q) :
  exists q', Num.min (Fin q) (Fin (95 # 100)) = Fin q'
             /\ (q' <= 95 # 100)%Q
             /\ (forall lo, (lo <= q)%Q -> (lo <= 95 # 100)%Q -> (lo <= q')%Q).
Proof.
  unfold Num.min, Num.gt.
  destruct (Qle_bool q (95 # 100)) eqn:E; simpl; eexists;
    (split; [reflexivity|]); qbool; split; auto; lra.
Qed.

Lemma splitGo_nonempty (sep s : string) (skip : nat) (cur : string) :
  0 < List.length (JsString.splitGo sep s skip cur).
Proof.
  revert skip cur. induction s as [|c s IH]; intros skip cur; simpl.
  - lia.
  - destruct skip; [|apply IH].
    match goal with
    | |- context [if ?b then _ else _] => destruct b
    end; [simpl; lia | apply IH].
Qed.

Lemma filter_length_le {A : Type} (f : A -> bool) (l : list A) :
  List.length (filter f l) <= List.length l.
Proof.
  induction l as [|x l IH]; simpl; auto. destruct (f x); simpl; lia.
Qed.

Section Confidence.

Import Dom BaseStrategy.

Lemma pathSimilarity_range (path1 path2 : string) :
  exists q, StructureStrategy.calculatePathSimilarity path1 path2 = Fin q
            /\ (0 <= q <= 1)%Q.
Proof.
  unfold StructureStrategy.calculatePathSimilarity. apply ratio_range.
  - etransitivity; [apply filter_length_le|].
    rewrite length_combine. lia.
  - pose proof (splitGo_nonempty " > " path1 0 EmptyString).
    unfold JsString.split. lia.
Qed.

Lemma styleSimilarity_range (element1 element2 : Element) :
  exists q, StructureStrategy.calculateStyleSimilarity element1 element2 = Fin q
            /\ (0 <= q <= 1)%Q.
Proof.
  unfold StructureStrategy.calculateStyleSimilarity. apply ratio_range.
  - apply filter_length_le.
  - simpl. lia.
Qed.

(** Variant A: base 0.6, capped at 0.95. *)
Lemma structureConfidence_range (userElement assistantElement : Element) :
  exists q,
    StructureStrategy.calculateStructureConfidence userElement assistantElement
    = Fin q
    /\ (6 # 10 <= q <= 95 # 100)%Q.
Proof.
  unfold StructureStrategy.calculateStructureConfidence.
  destruct (pathSimilarity_range
              (StructureStrategy.getElementPath userElement)
              (StructureStrategy.getElementPath assistantElement))
    as (ps & -> & Hps).
  destruct (styleSimilarity_range userElement assistantElement)
    as (ss & -> & Hss).
  match goal with
  | |- context [if ?c then _ else _] => destruct c
  end; simpl Num.add; simpl Num.mul;
  match goal with
  | |- context [Num.min (Fin ?x) _] =>
      destruct (min_cap x) as (q' & -> & Hhi & Hlo)
  end;
  exists q'; (split; [reflexivity|]); split; auto; apply Hlo; lra.
Qed.

(** Variant B: base 0.7, capped at 0.95. *)
Lemma domConfidence_range (userElement assistantElement : Element) :
  exists q,
    ReactStrategy.calculateConfidence userElement assistantElement = Fin q
    /\ (7 # 10 <= q <= 95 # 100)%Q.
Proof.
  unfold ReactStrategy.calculateConfidence.
  repeat match goal with
  | |- context [if ?c then _ else _] => destruct c
  end; simpl Num.add;
  match goal with
  | |- context [Num.min (Fin ?x) _] =>
      destruct (min_cap x) as (q' & -> & Hhi & Hlo)
  end;
  exists q'; (split; [reflexivity|]); split; auto; apply Hlo; lra.
Qed.

End Confidence.

Section Rounds.

Import Dom BaseStrategy.

Variables sanitize innerHTMLText : string -> string.
Variable pg : Page.

Lemma alternate_Forall {A R : Type} (roleOf : A -> Role)
      (mk : Z -> A -> A -> R) (P : R -> Prop) :
  (forall i u a, P (mk i u a)) ->
  forall items conversation userMessage,
    Forall P conversation ->
    Forall P (fst (ReactStrategy.alternate roleOf mk items conversation
                                           userMessage)).
Proof.
  intros Hmk. induction items as [|m items IH]; intros conv um Hc; simpl; auto.
  destruct (roleOf m); [apply IH; auto|].
  destruct um; apply IH; auto.
  apply Forall_app. split; auto.
Qed.

Lemma fallbackLoop_Forall {R : Type} (mk : Z -> Element -> Element -> R)
      (P : R -> Prop) (elements : list Element) :
  (forall i u a, P (mk i u a)) ->
  forall rest i conversation userElement,
    Forall P conversation ->
    Forall P (fst (StructureStrategy.fallbackLoop mk elements i rest
                                                  conversation userElement)).
Proof.
  intros Hmk. induction rest as [|e rest IH]; intros i conv um Hc; simpl; auto.
  destruct (classifyMessage e); [apply IH; auto|].
  destruct um; [|apply IH; auto].
  destruct (_ <=? 3)%Z; apply IH; auto.
  apply Forall_app. split; auto.
Qed.

Lemma cluster_rounds_Forall (P : ConversationRound -> Prop) :
  (forall i u a, P (StructureStrategy.createConversationRound sanitize pg i u a)) ->
  forall clusters acc,
    Forall P acc ->
    Forall P
      (fold_left
         (fun conversation cluster =>
            match StructureStrategy.processMessageCluster sanitize pg cluster with
            | Some round => conversation ++ [round]
            | None => conversation
            end)
         clusters acc).
Proof.
  intros Hmk. induction clusters as [|c cs IH]; intros acc Hacc; simpl; auto.
  apply IH. unfold StructureStrategy.processMessageCluster.
  destruct (_ <? 2); auto.
  destruct (StructureStrategy.scanCluster c None None) as [[u|] [a|]]; auto.
  apply Forall_app. split; auto.
Qed.

Lemma structure_rounds (P : ConversationRound -> Prop) :
  (forall i u a, P (StructureStrategy.createConversationRound sanitize pg i u a)) ->
  forall container,
    Forall P (StructureStrategy.extractUsingStructureAnalysis sanitize pg container).
Proof.
  intros Hmk container. unfold StructureStrategy.extractUsingStructureAnalysis.
  pose proof (cluster_rounds_Forall P Hmk
                (StructureStrategy.findMessageClusters container) []
                (Forall_nil P)) as H.
  destruct (fold_left _ _ _); auto.
  unfold StructureStrategy.fallbackToSequentialPairing.
  apply fallbackLoop_Forall; auto.
Qed.

Lemma structure_result_rounds (P : ConversationRound -> Prop) :
  (forall i u a, P (StructureStrategy.createConversationRound sanitize pg i u a)) ->
  forall result,
    StructureStrategy.execute sanitize pg = Returned result ->
    Forall P (conversation result).
Proof.
  intros Hmk result. unfold StructureStrategy.execute.
  destruct (findConversationContainer pg); [|discriminate].
  intros H. injection H as <-. simpl. apply structure_rounds; auto.
Qed.

Lemma react_result_rounds (P : ConversationRound -> Prop) :
  (forall i u a,
      P (ReactStrategy.createConversationRound sanitize innerHTMLText pg i u a)) ->
  (forall i u a,
      P (ReactStrategy.createConversationRoundFromElements
           sanitize innerHTMLText pg i u a)) ->
  forall result,
    ReactStrategy.execute sanitize innerHTMLText pg = Returned result ->
    Forall P (conversation result).
Proof.
  intros Hrec Hdom result. unfold ReactStrategy.execute.
  destruct (findConversationContainer pg); [|discriminate].
  destruct (ReactStrategy.tryGetReactData pg e); intros H; injection H as <-;
    simpl; apply alternate_Forall; auto.
Qed.

Lemma created_rounds_typed :
  (forall i u a,
      typedRound (StructureStrategy.createConversationRound sanitize pg i u a))
  /\ (forall i u a,
         typedRound (ReactStrategy.createConversationRound
                       sanitize innerHTMLText pg i u a))
  /\ (forall i u a,
         typedRound (ReactStrategy.createConversationRoundFromElements
                       sanitize innerHTMLText pg i u a)).
Proof. repeat split. Qed.

Lemma nonEmptyRound_texts (round : ConversationRound) :
  DOMIntelligentAnalyzer.nonEmptyRound round = true ->
  JsString.trim (user_text (round_user round)) <> EmptyString
  /\ JsString.trim (assistant_text (round_assistant round)) <> EmptyString.
Proof.
  unfold DOMIntelligentAnalyzer.nonEmptyRound. intros H.
  apply andb_true_iff in H as [Hu Ha].
  split; intros E; [rewrite E in Hu | rewrite E in Ha]; discriminate.
Qed.

(** C2.  Whatever [analyze] returns, each round of it has the user role on
    its user message, the assistant role on its assistant message, and two
    texts that are not empty once trimmed.  The third strategy is taken
    with the roles its return type gives it. *)
Theorem analyze_rounds_valid :
  forall (startTime : Z) (visual : Outcome) (out : ExtractedConversation),
    (forall result, visual = Returned result ->
                    Forall typedRound (conversation result)) ->
    DOMIntelligentAnalyzer.analyze
      pg startTime
      (DOMIntelligentAnalyzer.strategies sanitize innerHTMLText pg visual)
    = inr out ->
    Forall validRound (conversation out).
Proof.
  intros startTime visual out Hvisual H.
  apply analyze_returns in H as (best & Hin & -> & _).
  destruct created_rounds_typed as (Hs & Hr & Hd).
  assert (Htyped : Forall typedRound (conversation best)).
  { destruct Hin as [E|[E|[E|[]]]].
    - eapply react_result_rounds; eauto.
    - eapply structure_result_rounds; eauto.
    - apply Hvisual. auto. }
  simpl. apply Forall_forall. intros round Hround.
  apply filter_In in Hround as [Hround Hne].
  split.
  - rewrite Forall_forall in Htyped. auto.
  - apply nonEmptyRound_texts. exact Hne.
Qed.

(** C8.  The confidence of a round is a number between 0 and 1 and at most
    0.95: variant A lies between its base 0.6 and the cap 0.95, variant B
    between its base 0.7 and the cap, a probe-derived round carries 0.9;
    so it is for every round of a result of the two strategies. *)
Theorem emitted_confidence_capped :
  (forall userElement assistantElement,
      exists q,
        StructureStrategy.calculateStructureConfidence userElement assistantElement
        = Fin q /\ (6 # 10 <= q <= 95 # 100)%Q)
  /\ (forall userElement assistantElement,
         exists q,
           ReactStrategy.calculateConfidence userElement assistantElement = Fin q
           /\ (7 # 10 <= q <= 95 # 100)%Q)
  /\ (forall index userMessage assistantMessage,
         extractionConfidence
           (round_metadata
              (ReactStrategy.createConversationRound
                 sanitize innerHTMLText pg index userMessage assistantMessage))
         = Fin (9 # 10))
  /\ (forall result round,
         ReactStrategy.execute sanitize innerHTMLText pg = Returned result
         \/ StructureStrategy.execute sanitize pg = Returned result ->
         In round (conversation result) ->
         exists q,
           extractionConfidence (round_metadata round) = Fin q
           /\ (0 <= q <= 1)%Q /\ (q <= 95 # 100)%Q).
Proof.
  split; [exact structureConfidence_range|].
  split; [exact domConfidence_range|].
  split; [reflexivity|].
  intros result round Hres Hin.
  assert (H : Forall (confidenceWithin (6 # 10) (95 # 100)) (conversation result)).
  { destruct Hres as [Hres|Hres].
    - eapply react_result_rounds; eauto.
      + intros i u a. exists (9 # 10)%Q. split; [reflexivity|]. lra.
      + intros i u a. destruct (domConfidence_range u a) as (q & E & Hq).
        exists q. split; [exact E|]. lra.
    - eapply structure_result_rounds; eauto.
      intros i u a. destruct (structureConfidence_range u a) as (q & E & Hq).
      exists q. split; [exact E|]. lra. }
  rewrite Forall_forall in H. destruct (H round Hin) as (q & E & Hq).
  exists q. split; [exact E|]. lra.
Qed.

End Rounds.

(** ** The tree and its handles *)

Section NodeInduction.

Variable P : Node -> Prop.
Hypothesis step : forall n, Forall P (children n) -> P n.

Fixpoint Node_induction (n : Node) : P n :=
  step n
       ((fix all (cs : list Node) : Forall P cs :=
           match cs with
           | [] => Forall_nil P
           | c :: cs' => Forall_cons c (Node_induction c) (all cs')
           end) (children n)).

End NodeInduction.

Section Handles.

Import Dom.

Lemma same_iff (a b : Element) : same a b = true <-> path a = path b.
Proof.
  unfold same. destruct (list_eq_dec Nat.eq_dec (path a) (path b)); split;
    auto; discriminate.
Qed.

Lemma same_refl (a : Element) : same a a = true.
Proof. apply same_iff. reflexivity. Qed.

Lemma same_false (a b : Element) : path a <> path b -> same a b = false.
Proof.
  intros H. destruct (same a b) eqn:E; auto. apply same_iff in E. contradiction.
Qed.

Lemma childrenFrom_paths (p : list nat) (anc cs : list Node) :
  forall i, map path (childrenFrom p anc i cs)
            = map (fun k => p ++ [k]) (seq i (List.length cs)).
Proof.
  induction cs as [|c cs IH]; intros i; simpl; [reflexivity|].
  rewrite IH. reflexivity.
Qed.

Lemma siblings_NoDup (e : Element) : NoDup (map path (siblings e)).
Proof.
  unfold siblings. destruct (ancestors e) as [|p anc]; [constructor|].
  rewrite childrenFrom_paths.
  apply NoDup_map_NoDup_ForallPairs; [|apply seq_NoDup].
  intros x y _ _ H. apply app_inv_head in H. congruence.
Qed.

Lemma previousSiblings_NoDup (e : Element) :
  NoDup (map path (previousSiblings e)).
Proof.
  unfold previousSiblings. rewrite map_rev. apply NoDup_rev.
  rewrite <- firstn_map.
  apply (NoDup_app_remove_r _ (skipn (position e) (map path (siblings e)))).
  rewrite firstn_skipn. apply siblings_NoDup.
Qed.

Lemma nextSiblings_NoDup (e : Element) : NoDup (map path (nextSiblings e)).
Proof.
  unfold nextSiblings. rewrite <- skipn_map.
  apply (NoDup_app_remove_l (firstn (S (position e)) (map path (siblings e)))).
  rewrite firstn_skipn. apply siblings_NoDup.
Qed.

(** The paths of the proper descendants of a node are distinct and extend
    the path of the node. *)
Lemma descendantsFrom_paths (n : Node) :
  forall p anc,
    NoDup (map path (descendantsFrom p anc n))
    /\ forall e, In e (descendantsFrom p anc n) ->
                 exists k t, path e = p ++ k :: t.
Proof.
  induction n as [n IHn] using Node_induction. intros p anc.
  assert (Hflat :
            forall cs i,
              Forall (fun c => forall p anc,
                          NoDup (map path (descendantsFrom p anc c))
                          /\ forall e, In e (descendantsFrom p anc c) ->
                                       exists k t, path e = p ++ k :: t) cs ->
              let f := fun i c =>
                         mkElement (p ++ [i]) c (n :: anc)
                           :: descendantsFrom (p ++ [i]) (n :: anc) c in
              NoDup (map path (flatMapi f i cs))
              /\ forall e, In e (flatMapi f i cs) ->
                           exists k t, path e = p ++ k :: t /\ i <= k).
  { induction cs as [|c cs IHcs]; intros i Hcs f; simpl.
    - split; [constructor | intros e []].
    - inversion Hcs as [|? ? Hc Hcs']; subst.
      destruct (Hc (p ++ [i]) (n :: anc)) as [Hnd Hext].
      destruct (IHcs (S i) Hcs') as [Hnd' Hext'].
      fold f in Hnd', Hext'.
      assert (Hhere : forall e,
                 In e (descendantsFrom (p ++ [i]) (n :: anc) c) ->
                 exists t, path e = p ++ i :: t /\ t <> []).
      { intros e He. destruct (Hext e He) as (k & t & E).
        exists (k :: t). rewrite E, <- app_assoc. split; [reflexivity|discriminate]. }
      split.
      + rewrite map_app. simpl. constructor.
        * intros Hin. apply in_app_or in Hin as [Hin|Hin];
            apply in_map_iff in Hin as (e & E & He).
          -- destruct (Hhere e He) as (t & E' & Ht). rewrite E' in E.
             apply app_inv_head in E. injection E as E. contradiction.
          -- destruct (Hext' e He) as (k & t & E' & Hk). rewrite E' in E.
             apply app_inv_head in E. injection E as E _. lia.
        * apply NoDup_app; auto.
          intros q Hq Hq'.
          apply in_map_iff in Hq as (e & <- & He).
          apply in_map_iff in Hq' as (e' & E & He').
          destruct (Hhere e He) as (t & E1 & _).
          destruct (Hext' e' He') as (k & t' & E2 & Hk).
          rewrite E1, E2 in E. apply app_inv_head in E. injection E as E _. lia.
      + intros e [<-|He].
        * exists i, []. simpl. split; [reflexivity|lia].
        * apply in_app_or in He as [He|He].
          -- destruct (Hhere e He) as (t & E & _). exists i, t. split; [exact E|lia].
          -- destruct (Hext' e He) as (k & t & E & Hk).
             exists k, t. split; [exact E|lia]. }
  assert (E : descendantsFrom p anc n
              = flatMapi (fun i c =>
                            mkElement (p ++ [i]) c (n :: anc)
                              :: descendantsFrom (p ++ [i]) (n :: anc) c)
                         0 (children n)).
  { destruct n; reflexivity. }
  rewrite E. destruct (Hflat (children n) 0 IHn) as [Hnd Hext].
  split; [exact Hnd|].
  intros e He. destruct (Hext e He) as (k & t & Ee & _). eauto.
Qed.

Lemma descendants_NoDup (e : Element) : NoDup (map path (descendants e)).
Proof. apply descendantsFrom_paths. Qed.

Lemma filter_paths_NoDup (f : Element -> bool) (l : list Element) :
  NoDup (map path l) -> NoDup (map path (filter f l)).
Proof.
  induction l as [|x l IH]; simpl; auto.
  intros H. apply NoDup_cons_iff in H as [Hx Hl].
  destruct (f x); simpl; auto. constructor; auto.
  intros Hin. apply Hx. apply in_map_iff in Hin as (y & E & Hy).
  apply filter_In in Hy as [Hy _]. apply in_map_iff. eauto.
Qed.

Lemma selected_paths_NoDup (g : nat * Element -> bool) (l : list Element) :
  forall s,
    NoDup (map path l) ->
    NoDup (map path (map snd (filter g (combine s l)))).
Proof.
  induction l as [|x l IH]; intros s H.
  - destruct s; constructor.
  - destruct s as [|i s]; [constructor|].
    apply NoDup_cons_iff in H as [Hx Hl]. simpl.
    destruct (g (i, x)); simpl; auto. constructor; auto.
    intros Hin. apply Hx. apply in_map_iff in Hin as (y & E & Hy).
    apply in_map_iff in Hy as ([j z] & <- & Hz).
    apply filter_In in Hz as [Hz _]. apply in_combine_r in Hz.
    apply in_map_iff. eauto.
Qed.

Lemma extractMessageElements_NoDup (container : Element) :
  NoDup (map path (BaseStrategy.extractMessageElements container)).
Proof.
  unfold BaseStrategy.extractMessageElements, BaseStrategy.removeNested,
    BaseStrategy.indexed.
  apply selected_paths_NoDup, filter_paths_NoDup, descendants_NoDup.
Qed.

End Handles.

(** ** The component test of the probe *)

Section Probe.

Import ReactStrategy.

Lemma prop_key (props : Props) (key value : string) :
  prop props key = Some value -> In key (map fst props).
Proof.
  induction props as [|[k v] props IH]; simpl; [discriminate|].
  destruct (String.eqb k key) eqn:E.
  - apply String.eqb_eq in E. auto.
  - auto.
Qed.

Lemma propIs_key (props : Props) (key value : string) :
  propIs props key value = true -> In key (map fst props).
Proof.
  unfold propIs. destruct (prop props key) eqn:E; [|discriminate].
  intros _. eapply prop_key; eauto.
Qed.

(** C9, as the code has it.  A component node matches exactly when its type
    is there and either its type name contains "message", "chat" or
    "bubble", or one of its prop keys contains "message" or "role", case
    being ignored; a role prop equal to "user" or "assistant" adds nothing
    to the key test. *)
Theorem isMessageComponent_iff :
  forall (type : ComponentType) (props : Props),
    isMessageComponent type props = true
    <-> typeMissing type = false
        /\ ((exists keyword,
                In keyword ["message"; "chat"; "bubble"]%string
                /\ JsString.includes (JsString.toLowerCase (typeNameOf type))
                                     keyword = true)
            \/ (exists key keyword,
                   In key (map fst props)
                   /\ In keyword ["message"; "role"]%string
                   /\ JsString.includes (JsString.toLowerCase key) keyword
                      = true)).
Proof.
  intros type props. unfold isMessageComponent.
  destruct (typeMissing type); [split; [discriminate | intros [? _]; discriminate]|].
  cbn [existsb]. rewrite !orb_true_iff, !existsb_exists. split.
  - intros H. split; [reflexivity|].
    destruct H as [H|[H|[H|[(k & Hk & H)|[(k & Hk & H)|[H|H]]]]]];
      [| | | | | |discriminate].
    + left. exists "message"%string. simpl. auto.
    + left. exists "chat"%string. simpl. auto.
    + left. exists "bubble"%string. simpl. auto.
    + right. exists k, "message"%string. simpl. auto.
    + right. exists k, "role"%string. simpl. auto.
    + right. exists "role"%string, "role"%string.
      split; [|split; [simpl; auto | reflexivity]].
      destruct H as [H|H]; eapply propIs_key; eauto.
  - intros [_ [(kw & Hkw & H)|(k & kw & Hk & Hkw & H)]].
    + destruct Hkw as [<-|[<-|[<-|[]]]]; auto.
    + destruct Hkw as [<-|[<-|[]]].
      * right. right. right. left. exists k. auto.
      * do 4 right. left. exists k. auto.
Qed.

(** C9, as claimed, fails both ways: a host node whose only prop key
    contains "chat" is not matched, and one whose role prop is "button" is
    matched. *)
Lemma isMessageComponent_differs_from_claim :
  isMessageComponent (TypeHost "div") [("chatId", "42")]%string = false
  /\ isMessageComponent_claimed (TypeHost "div") [("chatId", "42")]%string = true
  /\ isMessageComponent (TypeHost "div") [("role", "button")]%string = true
  /\ isMessageComponent_claimed (TypeHost "div") [("role", "button")]%string
     = false.
Proof. repeat split. Qed.

End Probe.

(** ** The candidate filters *)

Section Filters.

Import Dom BaseStrategy.

Lemma removeNested_In (candidates : list Element) (e : Element) :
  In e (removeNested candidates) -> In e candidates.
Proof.
  unfold removeNested, indexed. intros H.
  apply in_map_iff in H as ([i x] & <- & H).
  apply filter_In in H as [H _]. apply in_combine_r in H. exact H.
Qed.

(** What the candidate filter does guarantee of each element it returns. *)
Lemma extractMessageElements_qualified (container e : Element) :
  In e (extractMessageElements container) ->
  In e (descendants container)
  /\ (textContent (node e) = EmptyString
      \/ 10 <= String.length (JsString.trim (textContent (node e))))
  /\ (exists keyword,
         In keyword ["message"; "bubble"; "chat"]%string
         /\ (JsString.includes (JsString.toLowerCase (outerHTML (node e)))
                               keyword = true
             \/ JsString.includes (JsString.toLowerCase (className (node e)))
                                  keyword = true)).
Proof.
  unfold extractMessageElements. intros H. apply removeNested_In in H.
  apply filter_In in H as [Hd H]. split; [exact Hd|].
  unfold isMessageCandidate in H.
  destruct (textContent (node e)) as [|c t] eqn:Et.
  - split; [left; reflexivity|]. simpl in H.
    rewrite !orb_true_iff in H. destruct H as [[[H|H]|H]|H].
    + exists "message"%string. simpl. auto.
    + exists "bubble"%string. simpl. auto.
    + exists "chat"%string. simpl. auto.
    + exists "message"%string. simpl. auto.
  - cbn [JsString.truthy andb] in H.
    destruct (String.length (JsString.trim (String c t)) <? 10) eqn:L;
      [discriminate|].
    apply Nat.ltb_ge in L. split; [right; exact L|].
    rewrite !orb_true_iff in H. destruct H as [[[H|H]|H]|H].
    + exists "message"%string. simpl. auto.
    + exists "bubble"%string. simpl. auto.
    + exists "chat"%string. simpl. auto.
    + exists "message"%string. simpl. auto.
Qed.

(** C10, at the failing input: the empty bubble of [stalePage] is returned
    by the candidate filter although its trimmed text has length 0. *)
Theorem empty_element_passes_candidate_filter :
  In Examples.staleEmpty (extractMessageElements Examples.staleContainer)
  /\ String.length (JsString.trim (textContent (node Examples.staleEmpty))) = 0
  /\ outerHTML (node Examples.staleEmpty)
     = ("<div class=" ++ Examples.quote ++ "user message" ++ Examples.quote
                      ++ "></div>")%string.
Proof.
  split; [|split; reflexivity].
  vm_compute. left. reflexivity.
Qed.

Lemma maxDepth_leaf (element : Node) (depth : nat) :
  children element = [] ->
  StructureStrategy.calculateMaxDepth element depth = depth.
Proof. destruct element; simpl. intros ->. reflexivity. Qed.

(** C6, as the code has it.  A candidate of the clustering step is a
    descendant of the container whose trimmed text has at least 20
    characters or which contains code, which has a child element or a
    subtree deeper than 2, and whose trimmed text has more than 10
    characters; it always has a child element. *)
Theorem cluster_candidate_qualification :
  forall (container e : Element),
    In e (StructureStrategy.candidateElements container) ->
    let text := JsString.trim (textContent (node e)) in
    In e (descendants container)
    /\ (20 <= String.length text \/ StructureStrategy.containsCode e = true)
    /\ (0 < List.length (children (node e))
        \/ 2 < StructureStrategy.calculateMaxDepth (node e) 0)
    /\ 10 < String.length text
    /\ children (node e) <> [].
Proof.
  intros container e H text.
  apply filter_In in H as [Hd H]. split; [exact Hd|].
  unfold StructureStrategy.isClusterCandidate in H. fold text in H.
  destruct (String.length text <? 20) eqn:L20.
  - destruct (StructureStrategy.containsCode e) eqn:C; [|discriminate].
    cbn [negb andb] in H. apply andb_true_iff in H as [Hc Ht].
    apply Nat.ltb_lt in Ht. apply orb_true_iff in Hc.
    repeat split; auto.
    + destruct Hc as [Hc|Hc]; [left; apply Nat.ltb_lt | right; apply Nat.ltb_lt];
        exact Hc.
    + intros E. destruct Hc as [Hc|Hc]; apply Nat.ltb_lt in Hc.
      * rewrite E in Hc. simpl in Hc. lia.
      * rewrite (maxDepth_leaf _ _ E) in Hc. lia.
  - cbn [andb] in H. apply andb_true_iff in H as [Hc Ht].
    apply Nat.ltb_lt in Ht. apply Nat.ltb_ge in L20. apply orb_true_iff in Hc.
    repeat split; auto.
    + destruct Hc as [Hc|Hc]; [left; apply Nat.ltb_lt | right; apply Nat.ltb_lt];
        exact Hc.
    + intros E. destruct Hc as [Hc|Hc]; apply Nat.ltb_lt in Hc.
      * rewrite E in Hc. simpl in Hc. lia.
      * rewrite (maxDepth_leaf _ _ E) in Hc. lia.
Qed.

Lemma cluster_candidate_qualification_witness :
  In Examples.nestedBody (descendants Examples.nestedContainer)
  /\ children (node Examples.nestedBody) <> [].
Proof.
  destruct (cluster_candidate_qualification
              Examples.nestedContainer Examples.nestedBody)
    as (Hd & _ & _ & _ & Hc).
  - vm_compute. right. left. reflexivity.
  - split; [exact Hd | exact Hc].
Defined.

(** C6, as claimed, fails: on [nestedPage] the clustering candidates hold
    an article that the candidate filter rejects (no message-like word in
    its markup), and both a wrapper and the body nested in it, which the
    de-duplication of the candidate filter would not keep together. *)
Lemma cluster_candidates_bypass_candidate_filter :
  In Examples.nestedArticle
     (StructureStrategy.candidateElements Examples.nestedContainer)
  /\ isMessageCandidate Examples.nestedArticle = false
  /\ mem Examples.nestedArticle
         (extractMessageElements Examples.nestedContainer) = false
  /\ In Examples.nestedWrapper
        (StructureStrategy.candidateElements Examples.nestedContainer)
  /\ In Examples.nestedBody
        (StructureStrategy.candidateElements Examples.nestedContainer)
  /\ same Examples.nestedWrapper Examples.nestedBody = false
  /\ contains Examples.nestedWrapper Examples.nestedBody = true
  /\ mem Examples.nestedBody
         (extractMessageElements Examples.nestedContainer) = false.
Proof.
  repeat split; try reflexivity; vm_compute; auto.
Qed.

End Filters.

(** ** Structural clustering: the sibling walks *)

Section Clustering.

Import Dom StructureStrategy.

Lemma takeWhile_ext_in {A : Type} (f g : A -> bool) (l : list A) :
  (forall x, In x l -> f x = g x) -> takeWhile f l = takeWhile g l.
Proof.
  induction l as [|x l IH]; intros H; simpl; [reflexivity|].
  rewrite <- (H x (or_introl eq_refl)).
  destruct (f x); [|reflexivity]. f_equal. apply IH.
  intros y Hy. apply H. right. exact Hy.
Qed.

(** A walk goes through the siblings up to the first one that is not a
    candidate or is processed, and takes from these the similar ones. *)
Lemma walk_eq (candidateElements : list Element) (elementSignature : string)
      (extend : Element -> list Element -> list Element) :
  forall sibs cluster processed,
    NoDup (map path sibs) ->
    walk candidateElements elementSignature extend sibs cluster processed
    = let added :=
        filter (fun s => isSimilarSignature elementSignature
                                            (calculateElementSignature s))
               (takeWhile (fun s => mem s candidateElements
                                    && negb (mem s processed))
                          sibs) in
      (fold_left (fun c s => extend s c) added cluster, rev added ++ processed).
Proof.
  induction sibs as [|s rest IH]; intros cluster processed Hnd;
    [reflexivity|].
  simpl in Hnd. apply NoDup_cons_iff in Hnd as [Hs Hrest].
  assert (Hext : takeWhile (fun x => mem x candidateElements
                                     && negb (mem x (s :: processed))) rest
                 = takeWhile (fun x => mem x candidateElements
                                       && negb (mem x processed)) rest).
  { apply takeWhile_ext_in. intros x Hx. unfold mem at 2. simpl.
    rewrite same_false; [reflexivity|].
    intros E. apply Hs. rewrite <- E. apply in_map. exact Hx. }
  cbn [walk takeWhile].
  destruct (mem s candidateElements && negb (mem s processed)); [|reflexivity].
  cbn [filter].
  destruct (isSimilarSignature elementSignature (calculateElementSignature s)).
  - rewrite (IH _ _ Hrest). cbv zeta. rewrite Hext. cbn [fold_left rev].
    rewrite <- app_assoc. reflexivity.
  - rewrite (IH _ _ Hrest). reflexivity.
Qed.

Lemma fold_unshift (added cluster : list Element) :
  fold_left (fun c s => unshift s c) added cluster = rev added ++ cluster.
Proof.
  revert cluster. induction added as [|a added IH]; intros cluster; simpl; auto.
  rewrite IH, <- app_assoc. reflexivity.
Qed.

Lemma fold_push (added cluster : list Element) :
  fold_left (fun c s => push s c) added cluster = cluster ++ added.
Proof.
  revert cluster. induction added as [|a added IH]; intros cluster; simpl.
  - rewrite app_nil_r. reflexivity.
  - rewrite IH. unfold push. rewrite <- app_assoc. reflexivity.
Qed.

(** C5, as the code has it.  Each of the two walks from a seed stops at the
    first sibling that is not a candidate or is already processed (or when
    the siblings run out).  A sibling before that point whose signature is
    not similar to the seed's is left out of the cluster and of the
    processed set, and the walk goes on to the siblings beyond it: the
    cluster gains exactly the similar ones among the siblings walked
    through, in document order. *)
Theorem sibling_walk_passes_over_dissimilar :
  forall (candidateElements : list Element) (elementSignature : string)
         (element : Element) (cluster processed : list Element),
    let open s := mem s candidateElements && negb (mem s processed) in
    let similar s :=
      isSimilarSignature elementSignature (calculateElementSignature s) in
    let before := filter similar (takeWhile open (previousSiblings element)) in
    let after := filter similar (takeWhile open (nextSiblings element)) in
    walk candidateElements elementSignature unshift
         (previousSiblings element) cluster processed
    = (rev before ++ cluster, rev before ++ processed)
    /\ walk candidateElements elementSignature push
            (nextSiblings element) cluster processed
       = (cluster ++ after, rev after ++ processed).
Proof.
  intros cands sig element cluster processed open similar before after.
  split.
  - rewrite walk_eq by apply previousSiblings_NoDup.
    cbv zeta. rewrite fold_unshift. reflexivity.
  - rewrite walk_eq by apply nextSiblings_NoDup.
    cbv zeta. rewrite fold_push. reflexivity.
Qed.

(** C5, as claimed, fails on [gapPage]: the note between the two messages
    is an unprocessed candidate that is not similar to the first message,
    yet the walk from the first message goes past it and takes the last
    message, where a walk that stops there takes nothing. *)
Lemma sibling_walk_differs_from_claim :
  let candidates := candidateElements Examples.gapContainer in
  let signature := calculateElementSignature Examples.gapFirst in
  nextSiblings Examples.gapFirst = [Examples.gapNote; Examples.gapLast]
  /\ mem Examples.gapNote candidates = true
  /\ isSimilarSignature signature (calculateElementSignature Examples.gapNote)
     = false
  /\ fst (walk candidates signature push (nextSiblings Examples.gapFirst)
               [Examples.gapFirst] [Examples.gapFirst])
     = [Examples.gapFirst; Examples.gapLast]
  /\ fst (walk_claimed candidates signature push
                       (nextSiblings Examples.gapFirst)
                       [Examples.gapFirst] [Examples.gapFirst])
     = [Examples.gapFirst]
  /\ findMessageClusters Examples.gapContainer
     = [[Examples.gapFirst; Examples.gapLast]].
Proof.
  cbv zeta. repeat split; vm_compute; reflexivity.
Qed.

End Clustering.

(** ** Sequential pairing *)

Section Pairing.

Import Dom BaseStrategy.

Lemma indexOfFrom_first (u : Element) (before after : list Element) :
  forall i,
    (forall x, In x before -> same x u = false) ->
    indexOfFrom i (before ++ u :: after) u
    = (i + Z.of_nat (List.length before))%Z.
Proof.
  induction before as [|x before IH]; intros i H; simpl.
  - rewrite same_refl. lia.
  - rewrite (H x (or_introl eq_refl)). rewrite IH.
    + lia.
    + intros y Hy. apply H. right. exact Hy.
Qed.

Lemma indexOf_position (u : Element) (before after : list Element) :
  NoDup (map path (before ++ u :: after)) ->
  indexOf (before ++ u :: after) u = Z.of_nat (List.length before).
Proof.
  intros Hnd. unfold indexOf. rewrite indexOfFrom_first; [lia|].
  intros x Hx. apply same_false. intros E.
  rewrite map_app in Hnd. simpl in Hnd.
  apply NoDup_remove_2 in Hnd. apply Hnd.
  apply in_or_app. left. rewrite <- E. apply in_map. exact Hx.
Qed.

(** The rounds of a scan are the images of its pairing decisions. *)
Lemma alternate_roundOf {R : Type} (mk : Z -> Element -> Element -> R) :
  forall items decisions userMessage,
    ReactStrategy.alternate classifyMessage mk items
                            (map (roundOf mk) decisions) userMessage
    = (map (roundOf mk)
           (fst (ReactStrategy.alternate classifyMessage pairing items
                                         decisions userMessage)),
       snd (ReactStrategy.alternate classifyMessage pairing items
                                    decisions userMessage)).
Proof.
  induction items as [|e items IH]; intros decisions um; simpl; [reflexivity|].
  destruct (classifyMessage e); [apply IH|].
  destruct um as [u|]; [|apply IH].
  rewrite <- IH. rewrite map_app, !length_map. reflexivity.
Qed.

(** The element a scan remembers is the last one it went through. *)
Lemma alternate_remembers_last {R : Type} (mk : Z -> Element -> Element -> R) :
  forall items conversation userMessage u,
    snd (ReactStrategy.alternate classifyMessage mk items conversation
                                 userMessage) = Some u ->
    (items = [] /\ userMessage = Some u)
    \/ exists items', items = items' ++ [u].
Proof.
  induction items as [|e items IH]; intros conv um u H; simpl in H; auto.
  right.
  assert (Hrec : forall conv' um',
             snd (ReactStrategy.alternate classifyMessage mk items conv' um')
             = Some u ->
             um' = Some e \/ um' = None ->
             exists items', e :: items = items' ++ [u]).
  { intros conv' um' H' Hum.
    destruct (IH _ _ _ H') as [[-> E]|(items' & ->)].
    - destruct Hum as [->| ->]; [|discriminate].
      injection E as <-. exists []. reflexivity.
    - exists (e :: items'). reflexivity. }
  destruct (classifyMessage e).
  - eapply Hrec; eauto.
  - destruct um as [w|].
    + eapply Hrec; eauto.
    + eapply Hrec; eauto.
Qed.

(** On distinct elements the remembered user is at the index just before,
    so the gap test of [fallbackToSequentialPairing] always passes: its loop
    goes as the one of [extractFromDOM]. *)
Lemma fallbackLoop_alternate {R : Type} (mk : Z -> Element -> Element -> R)
      (elements : list Element) :
  NoDup (map path elements) ->
  forall rest before after conversation userElement,
    elements = before ++ rest ++ after ->
    (forall u, userElement = Some u -> exists before', before = before' ++ [u]) ->
    StructureStrategy.fallbackLoop mk elements (List.length before) rest
                                   conversation userElement
    = ReactStrategy.alternate classifyMessage mk rest conversation userElement.
Proof.
  intros Hnd. induction rest as [|e rest IH];
    intros before after conv um Hsplit Hum; simpl; [reflexivity|].
  assert (Hnext : forall conv' um',
             (forall u, um' = Some u ->
                        exists before', before ++ [e] = before' ++ [u]) ->
             StructureStrategy.fallbackLoop mk elements (S (List.length before))
                                            rest conv' um'
             = ReactStrategy.alternate classifyMessage mk rest conv' um').
  { intros conv' um' Hum'.
    replace (S (List.length before)) with (List.length (before ++ [e]))
      by (rewrite length_app; simpl; lia).
    apply (IH (before ++ [e]) after); auto.
    rewrite Hsplit, <- app_assoc. reflexivity. }
  destruct (classifyMessage e).
  - apply Hnext. intros u E. injection E as <-. exists before. reflexivity.
  - destruct um as [u|].
    + destruct (Hum u eq_refl) as (before' & ->).
      assert (Hi : indexOf elements u = Z.of_nat (List.length before')).
      { rewrite Hsplit, <- app_assoc. simpl. apply indexOf_position.
        rewrite Hsplit, <- app_assoc in Hnd. exact Hnd. }
      rewrite Hi, length_app. simpl.
      replace (Z.of_nat (List.length before' + 1) - Z.of_nat (List.length before')
               <=? 3)%Z with true by (symmetry; apply Z.leb_le; lia).
      replace (S (List.length before' + 1))
        with (S (List.length (before' ++ [u])))
        by (rewrite length_app; simpl; lia).
      apply Hnext. intros w E. discriminate.
    + apply Hnext. intros w E. discriminate.
Qed.

(** Each pairing decision of a scan takes two neighbours, a user-classified
    element and the assistant-classified element right after it. *)
Lemma alternate_adjacent (elements : list Element) :
  let adjacent (t : Pairing) :=
    exists j, nth_error elements j = Some (snd (fst t))
              /\ nth_error elements (S j) = Some (snd t)
              /\ classifyMessage (snd (fst t)) = user
              /\ classifyMessage (snd t) = assistant in
  forall rest before decisions userMessage,
    elements = before ++ rest ->
    (forall u, userMessage = Some u ->
               classifyMessage u = user
               /\ exists before', before = before' ++ [u]) ->
    Forall adjacent decisions ->
    Forall adjacent
           (fst (ReactStrategy.alternate classifyMessage pairing rest
                                         decisions userMessage)).
Proof.
  intros adjacent. induction rest as [|e rest IH];
    intros before decisions um Hsplit Hum Hd; simpl; [exact Hd|].
  assert (Hsplit' : elements = (before ++ [e]) ++ rest).
  { rewrite Hsplit, <- app_assoc. reflexivity. }
  destruct (classifyMessage e) eqn:Ce.
  - apply (IH (before ++ [e])); auto.
    intros u E. injection E as <-. split; [exact Ce|]. exists before. reflexivity.
  - destruct um as [u|].
    + apply (IH (before ++ [e])); auto; [intros w E; discriminate|].
      apply Forall_app. split; [exact Hd|]. constructor; [|constructor].
      destruct (Hum u eq_refl) as (Cu & before' & ->).
      exists (List.length before'). cbn [fst snd pairing].
      rewrite Hsplit, <- app_assoc.
      change ([u] ++ e :: rest) with (u :: e :: rest).
      repeat split; auto.
      * rewrite nth_error_app2 by lia. rewrite Nat.sub_diag. reflexivity.
      * rewrite nth_error_app2 by lia.
        replace (S (List.length before') - List.length before') with 1 by lia.
        reflexivity.
    + apply (IH (before ++ [e])); auto. intros w E. discriminate.
Qed.

Variables sanitize innerHTMLText : string -> string.
Variable pg : Page.

(** C4.  Both DOM-level sequential pairing paths, over the elements the
    candidate filter returns for a container, take the same pairing
    decisions; each decision pairs a user-classified element with the
    assistant-classified element at the next index, so the assistant's index
    is never more than the user's plus 3.  In either scan a remembered user
    is the element at the index just before the current one, so that an
    assistant farther than 3 from a remembered user is never met; the loop of
    the structural path, were it to meet one, leaves its state as it is. *)
Theorem sequential_fallbacks_pair_neighbours :
  forall container : Element,
    let elements := extractMessageElements container in
    let decisions :=
      fst (ReactStrategy.alternate classifyMessage pairing elements [] None) in
    StructureStrategy.fallbackToSequentialPairing sanitize pg container
    = map (roundOf (StructureStrategy.createConversationRound sanitize pg))
          decisions
    /\ conversation (ReactStrategy.extractFromDOM sanitize innerHTMLText pg
                                                  container)
       = map (roundOf (ReactStrategy.createConversationRoundFromElements
                         sanitize innerHTMLText pg))
             decisions
    /\ (forall t : Pairing,
           In t decisions ->
           exists j,
             nth_error elements j = Some (snd (fst t))
             /\ nth_error elements (S j) = Some (snd t)
             /\ classifyMessage (snd (fst t)) = user
             /\ classifyMessage (snd t) = assistant
             /\ S j <= j + 3)
    /\ (forall before a after u,
           elements = before ++ a :: after ->
           snd (StructureStrategy.fallbackLoop
                  (StructureStrategy.createConversationRound sanitize pg)
                  elements 0 before [] None) = Some u
           \/ snd (ReactStrategy.alternate
                     classifyMessage
                     (ReactStrategy.createConversationRoundFromElements
                        sanitize innerHTMLText pg)
                     before [] None) = Some u ->
           exists before', before = before' ++ [u])
    /\ (forall i element rest conversation u,
           classifyMessage element = assistant ->
           (3 < Z.of_nat i - indexOf elements u)%Z ->
           StructureStrategy.fallbackLoop
             (StructureStrategy.createConversationRound sanitize pg)
             elements i (element :: rest) conversation (Some u)
           = StructureStrategy.fallbackLoop
               (StructureStrategy.createConversationRound sanitize pg)
               elements (S i) rest conversation (Some u)).
Proof.
  intros container elements decisions.
  pose proof (extractMessageElements_NoDup container) as Hnd.
  fold elements in Hnd.
  repeat split.
  - unfold StructureStrategy.fallbackToSequentialPairing. fold elements.
    rewrite (fallbackLoop_alternate _ elements Hnd elements [] []);
      [| rewrite app_nil_r; reflexivity | intros u E; discriminate].
    change (@nil ConversationRound)
      with (map (roundOf (StructureStrategy.createConversationRound sanitize pg))
                []).
    rewrite alternate_roundOf. reflexivity.
  - unfold ReactStrategy.extractFromDOM. fold elements. simpl.
    change (@nil ConversationRound)
      with (map (roundOf (ReactStrategy.createConversationRoundFromElements
                            sanitize innerHTMLText pg)) []).
    rewrite alternate_roundOf. reflexivity.
  - intros t Ht.
    pose proof (alternate_adjacent elements elements [] [] None eq_refl) as H.
    cbv zeta in H.
    specialize (H ltac:(intros u E; discriminate) (Forall_nil _)).
    rewrite Forall_forall in H.
    destruct (H t Ht) as (j & Hu & Ha & Cu & Ca).
    exists j. repeat split; auto. lia.
  - intros before a after u Hsplit [H|H].
    + rewrite (fallbackLoop_alternate _ elements Hnd before [] (a :: after))
        in H; [| exact Hsplit | intros w E; discriminate].
      apply alternate_remembers_last in H as [[_ E]|H]; [discriminate|exact H].
    + apply alternate_remembers_last in H as [[_ E]|H]; [discriminate|exact H].
  - intros i element rest conv u Ce Hgap. simpl. rewrite Ce.
    replace (Z.of_nat i - indexOf elements u <=? 3)%Z with false
      by (symmetry; apply Z.leb_gt; lia).
    reflexivity.
Qed.

End Pairing.

(** ** Further properties of the engine *)

Section Further.

Import Dom StructureStrategy.

Lemma mem_In (x : string) (l : list string) :
  JsString.mem x l = true <-> In x l.
Proof.
  unfold JsString.mem. rewrite existsb_exists. split.
  - intros (y & Hy & E). apply String.eqb_eq in E. subst. exact Hy.
  - intros H. exists x. split; [exact H | apply String.eqb_refl].
Qed.

Lemma distinctGo_spec (l : list string) :
  forall seen,
    NoDup seen ->
    NoDup (JsString.distinctGo l seen)
    /\ forall x, In x (JsString.distinctGo l seen) <-> In x seen \/ In x l.
Proof.
  induction l as [|y l IH]; intros seen Hs; simpl.
  - split; [exact Hs | intros x; tauto].
  - destruct (JsString.mem y seen) eqn:E.
    + destruct (IH seen Hs) as [Hn Hin]. split; [exact Hn|].
      intros x. rewrite Hin. apply mem_In in E.
      split; [tauto|]. intros [H|[<-|H]]; auto.
    + assert (Hs' : NoDup (seen ++ [y])).
      { apply NoDup_app; auto.
        - constructor; [intros []|constructor].
        - intros a Ha [<-|[]]. apply mem_In in Ha. congruence. }
      destruct (IH _ Hs') as [Hn Hin]. split; [exact Hn|].
      intros x. rewrite Hin, in_app_iff. simpl. tauto.
Qed.

Lemma distinct_NoDup (l : list string) : NoDup (JsString.distinct l).
Proof. apply distinctGo_spec. constructor. Qed.

Lemma distinct_In (l : list string) (x : string) :
  In x (JsString.distinct l) <-> In x l.
Proof.
  unfold JsString.distinct.
  destruct (distinctGo_spec l [] (NoDup_nil _)) as [_ H].
  rewrite H. simpl. tauto.
Qed.

Lemma same_members_same_size (l1 l2 : list string) :
  (forall x, In x l1 <-> In x l2) ->
  List.length (JsString.distinct l1) = List.length (JsString.distinct l2).
Proof.
  intros H. apply Nat.le_antisymm;
    apply NoDup_incl_length; try apply distinct_NoDup;
    intros x Hx; apply (proj2 (distinct_In _ _));
    apply (proj1 (distinct_In _ _)) in Hx; apply H; exact Hx.
Qed.

(** The Jaccard similarity of two signatures does not depend on their
    order, and is a number between 0 and 1. *)
Theorem similarity_symmetric_bounded :
  forall sig1 sig2 : string,
    similarity sig1 sig2 = similarity sig2 sig1
    /\ exists q, similarity sig1 sig2 = Fin q /\ (0 <= q <= 1)%Q.
Proof.
  intros sig1 sig2. unfold similarity. split.
  - f_equal; f_equal; apply same_members_same_size; intros x.
    + rewrite !filter_In, !mem_In. tauto.
    + rewrite !in_app_iff. tauto.
  - apply ratio_range.
    + apply NoDup_incl_length; [apply distinct_NoDup|].
      intros x Hx. apply (proj1 (distinct_In _ _)) in Hx.
      apply filter_In in Hx as [Hx _].
      apply (proj2 (distinct_In _ _)). apply in_or_app. left. exact Hx.
    + pose proof (splitGo_nonempty "|" sig1 0 EmptyString) as Hne.
      fold (JsString.split "|" sig1) in Hne.
      destruct (JsString.split "|" sig1) as [|f fs] eqn:E;
        [simpl in Hne; lia|].
      assert (Hin : In f (JsString.distinct
                            (JsString.distinct (f :: fs)
                             ++ JsString.distinct (JsString.split "|" sig2)))).
      { apply (proj2 (distinct_In _ _)), in_or_app. left.
        apply (proj2 (distinct_In _ _)). left. reflexivity. }
      destruct (JsString.distinct _) as [|]; [destruct Hin | simpl; lia].
Qed.

Lemma filter_idem {A : Type} (f : A -> bool) (l : list A) :
  filter f (filter f l) = filter f l.
Proof.
  induction l as [|x l IH]; simpl; auto.
  destruct (f x) eqn:E; simpl; rewrite ?E, IH; reflexivity.
Qed.

(** The validation pass is idempotent on one page snapshot. *)
Theorem validateAndEnhance_idempotent :
  forall (pg : Page) (result : ExtractedConversation),
    DOMIntelligentAnalyzer.validateAndEnhance
      pg (DOMIntelligentAnalyzer.validateAndEnhance pg result)
    = DOMIntelligentAnalyzer.validateAndEnhance pg result.
Proof.
  intros pg result. unfold DOMIntelligentAnalyzer.validateAndEnhance. simpl.
  rewrite filter_idem. reflexivity.
Qed.

(** The score of a strategy's result can be read off the result: with a
    round, the average that [evaluateExtraction] computes anew is the
    aggregate confidence the strategy stored, so the score is the
    round-count term, 40 times the stored confidence, and the two format
    bonuses.  Without a round the two part: the stored confidence is 0,
    the average and the score are NaN. *)
Theorem strategy_result_scored_from_stored_confidence :
  forall (sanitize innerHTMLText : string -> string) (pg : Page)
         (result : ExtractedConversation),
    ReactStrategy.execute sanitize innerHTMLText pg = Returned result
    \/ StructureStrategy.execute sanitize pg = Returned result ->
    let rounds := conversation result in
    let stored := confidenceScore (metadata result) in
    let codeBonus :=
      existsb (fun round => hasCodeBlocks (formatAnalysis (round_assistant round)))
              rounds in
    let headingBonus :=
      existsb (fun round => hasHeadings (formatAnalysis (round_assistant round)))
              rounds in
    (rounds <> [] ->
     stored = Num.div (confidenceSum rounds) (Num.ofNat (List.length rounds))
     /\ DOMIntelligentAnalyzer.evaluateExtraction result
        = let score :=
            Num.add Num.zero
                    (Num.ofNat (Nat.min (List.length rounds * 10) 30)) in
          let score := Num.add score (Num.mul stored (Fin 40)) in
          let score := if codeBonus then Num.add score (Fin 15) else score in
          if headingBonus then Num.add score (Fin 15) else score)
    /\ (rounds = [] ->
        stored = Fin 0
        /\ Num.div (confidenceSum rounds) (Num.ofNat (List.length rounds)) = NaN
        /\ DOMIntelligentAnalyzer.evaluateExtraction result = NaN).
Proof.
  intros sanitize innerHTMLText pg result H rounds stored codeBonus headingBonus.
  assert (E : stored = meanConfidence rounds).
  { unfold stored, rounds. destruct H as [H|H].
    - unfold ReactStrategy.execute in H.
      destruct (BaseStrategy.findConversationContainer pg); [|discriminate].
      destruct (ReactStrategy.tryGetReactData pg e);
        injection H as <-; reflexivity.
    - unfold StructureStrategy.execute in H.
      destruct (BaseStrategy.findConversationContainer pg); [|discriminate].
      injection H as <-. reflexivity. }
  split.
  - intros Hne.
    assert (Hlen : (0 <? List.length rounds) = true).
    { destruct rounds; [contradiction Hne; reflexivity | reflexivity]. }
    assert (Es : stored = Num.div (confidenceSum rounds)
                                  (Num.ofNat (List.length rounds))).
    { rewrite E. unfold meanConfidence. rewrite Hlen. reflexivity. }
    split; [exact Es|].
    unfold DOMIntelligentAnalyzer.evaluateExtraction.
    fold rounds. fold codeBonus. fold headingBonus.
    rewrite Hlen, <- Es. reflexivity.
  - intros Hnil. split; [rewrite E, Hnil; reflexivity|].
    split; [rewrite Hnil; reflexivity|].
    unfold DOMIntelligentAnalyzer.evaluateExtraction, confidenceSum.
    fold rounds. rewrite Hnil. reflexivity.
Qed.

Lemma strategy_result_scored_from_stored_confidence_witness :
  match StructureStrategy.execute Examples.sanitize Examples.stalePage with
  | Returned result =>
      confidenceScore (metadata result)
      = Num.div (confidenceSum (conversation result))
                (Num.ofNat (List.length (conversation result)))
      /\ Num.strictEq (DOMIntelligentAnalyzer.evaluateExtraction result)
                      (Fin 57)
         = true
  | Threw _ => False
  end.
Proof.
  destruct (StructureStrategy.execute Examples.sanitize Examples.stalePage)
    as [m|result] eqn:E.
  - vm_compute in E. discriminate.
  - destruct (strategy_result_scored_from_stored_confidence
                Examples.sanitize Examples.innerHTMLText Examples.stalePage
                result (or_intror E)) as [H _].
    destruct H as [Hs He].
    + vm_compute in E. injection E as <-. discriminate.
    + split; [exact Hs|].
      rewrite He. vm_compute in E. injection E as <-. vm_compute. reflexivity.
Defined.

End Further.

(** ** The container locator and the candidate filter *)

Section Locator.

Import Dom BaseStrategy.

Lemma find_first {A : Type} (f : A -> bool) (l : list A) (x : A) :
  find f l = Some x ->
  exists before after,
    l = before ++ x :: after /\ forall y, In y before -> f y = false.
Proof.
  induction l as [|a l IH]; simpl; [discriminate|].
  destruct (f a) eqn:E.
  - intros H. injection H as <-. exists [], l. split; [reflexivity|].
    intros y [].
  - intros H. destruct (IH H) as (before & after & -> & Hb).
    exists (a :: before), after. split; [reflexivity|].
    intros y [<-|Hy]; auto.
Qed.

(** The locator returns an element of the document that matches one of the
    selectors and is judged a container, the first such one in selector
    order and then document order; it returns nothing exactly when no
    element matching a selector is judged a container, and that is exactly
    when each of the two strategies throws its no-container error. *)
Theorem findConversationContainer_first_qualifying :
  forall (sanitize innerHTMLText : string -> string) (pg : Page),
    let matching :=
      flat_map (fun selector => filter selector (allElements pg)) selectors in
    (forall c,
        findConversationContainer pg = Some c ->
        isConversationContainer c = true
        /\ In c (allElements pg)
        /\ (exists selector, In selector selectors /\ selector c = true)
        /\ exists before after,
            matching = before ++ c :: after
            /\ forall e, In e before -> isConversationContainer e = false)
    /\ (findConversationContainer pg = None
        <-> forall e selector,
            In e (allElements pg) -> In selector selectors ->
            selector e = true -> isConversationContainer e = false)
    /\ (findConversationContainer pg = None
        <-> StructureStrategy.execute sanitize pg
            = Threw "未找到对话容器"%string)
    /\ (findConversationContainer pg = None
        <-> ReactStrategy.execute sanitize innerHTMLText pg
            = Threw "未找到对话容器"%string).
Proof.
  intros sanitize innerHTMLText pg matching. repeat split.
  - apply find_some in H. tauto.
  - apply find_some in H as [H _]. apply in_flat_map in H as (sel & _ & H).
    apply filter_In in H. tauto.
  - apply find_some in H as [H _]. apply in_flat_map in H as (sel & Hs & H).
    apply filter_In in H. exists sel. tauto.
  - apply find_first. exact H.
  - intros H e sel He Hsel Hm.
    apply (find_none _ _ H). apply in_flat_map. exists sel. split; auto.
    apply filter_In. auto.
  - intros H. unfold findConversationContainer.
    destruct (find _ _) as [c|] eqn:E; [|reflexivity].
    apply find_some in E as [E Hc]. apply in_flat_map in E as (sel & Hs & E).
    apply filter_In in E as [E Hm]. rewrite (H c sel E Hs Hm) in Hc.
    discriminate.
  - intros H. unfold StructureStrategy.execute. rewrite H. reflexivity.
  - unfold StructureStrategy.execute.
    destruct (findConversationContainer pg); [discriminate|reflexivity].
  - intros H. unfold ReactStrategy.execute. rewrite H. reflexivity.
  - unfold ReactStrategy.execute.
    destruct (findConversationContainer pg) as [c|]; [|reflexivity].
    destruct (ReactStrategy.tryGetReactData pg c); discriminate.
Qed.

Lemma indexed_from_In {A : Type} (l : list A) :
  forall s i x,
    In (i, x) (combine (seq s (List.length l)) l)
    <-> s <= i /\ nth_error l (i - s) = Some x.
Proof.
  induction l as [|y l IH]; intros s i x; simpl.
  - split; [intros [] | intros [_ H]; destruct (i - s); discriminate].
  - rewrite IH. split.
    + intros [E|[Hle H]].
      * injection E as <- <-. rewrite Nat.sub_diag. split; [lia|reflexivity].
      * split; [lia|]. replace (i - s) with (S (i - S s)) by lia. exact H.
    + intros [Hle H]. destruct (i - s) as [|k] eqn:E.
      * left. injection H as <-. f_equal. lia.
      * right. split; [lia|]. replace (i - S s) with k by lia. exact H.
Qed.

Lemma indexed_In {A : Type} (l : list A) (i : nat) (x : A) :
  In (i, x) (indexed l) <-> nth_error l i = Some x.
Proof.
  unfold indexed. rewrite indexed_from_In, Nat.sub_0_r.
  split; [tauto | intros H; split; [lia | exact H]].
Qed.

Lemma same_path_same_index (l : list Element) (i j : nat) (a b : Element) :
  NoDup (map path l) ->
  nth_error l i = Some a -> nth_error l j = Some b ->
  path a = path b -> i = j.
Proof.
  intros Hnd Ha Hb E.
  apply (proj1 (NoDup_nth_error (map path l)) Hnd).
  - rewrite length_map. apply nth_error_Some. congruence.
  - rewrite (map_nth_error path _ _ Ha), (map_nth_error path _ _ Hb).
    congruence.
Qed.

(** The candidate filter returns exactly the outermost message candidates
    under the container: the descendants that pass the size and keyword
    test and lie inside no other descendant that passes it. *)
Theorem extractMessageElements_keeps_outermost :
  forall container e : Element,
    let candidates := filter isMessageCandidate (descendants container) in
    In e (extractMessageElements container)
    <-> In e candidates
        /\ forall other,
            In other candidates -> contains other e = true ->
            path other = path e.
Proof.
  intros container e candidates.
  assert (Hnd : NoDup (map path candidates)).
  { apply filter_paths_NoDup, descendants_NoDup. }
  unfold extractMessageElements, removeNested. fold candidates.
  rewrite in_map_iff. split.
  - intros ([i x] & E & H). simpl in E. subst x.
    apply filter_In in H as [Hi Hg]. simpl in Hg.
    apply negb_true_iff in Hg.
    pose proof (proj1 (indexed_In _ _ _) Hi) as Hie.
    split; [eapply nth_error_In; eauto|].
    intros other Ho Hc.
    apply In_nth_error in Ho as (j & Hj).
    destruct (Nat.eq_dec j i) as [->|Hne]; [congruence|].
    exfalso.
    assert (Hex : existsb
                    (fun io : nat * Element =>
                       negb (fst io =? i) && contains (snd io) e)
                    (indexed candidates) = true).
    { apply existsb_exists. exists (j, other). split.
      - apply indexed_In. exact Hj.
      - simpl. rewrite Hc.
        destruct (j =? i) eqn:Eji; [apply Nat.eqb_eq in Eji; contradiction|].
        reflexivity. }
    congruence.
  - intros [He Hout].
    apply In_nth_error in He as (i & Hi).
    exists (i, e). split; [reflexivity|].
    apply filter_In. split; [apply indexed_In; exact Hi|].
    simpl. apply negb_true_iff.
    destruct (existsb _ _) eqn:Ex; [|reflexivity].
    apply existsb_exists in Ex as ([j o] & Hjo & Hb). simpl in Hb.
    apply andb_true_iff in Hb as [Hji Hc].
    apply indexed_In in Hjo.
    pose proof (Hout o (nth_error_In _ _ Hjo) Hc) as Ep.
    rewrite (same_path_same_index _ _ _ _ _ Hnd Hjo Hi Ep) in Hji.
    rewrite Nat.eqb_refl in Hji. discriminate.
Qed.

Lemma countTrue_none (l : list bool) :
  existsb (fun b => b) l = false -> countTrue l = 0.
Proof.
  unfold countTrue. induction l as [|b l IH]; simpl; auto.
  destruct b; simpl; [discriminate|exact IH].
Qed.

(** An element is classified as an assistant message only when one of the
    seven assistant cues is there; without any of them it is classified as
    a user message, whatever the user cues (ties go to the user). *)
Theorem classifyMessage_assistant_needs_cue :
  forall element : Element,
    let html := JsString.toLowerCase (outerHTML (node element)) in
    let className := JsString.toLowerCase (className (node element)) in
    let text := JsString.toLowerCase (textContent (node element)) in
    classifyMessage element = assistant ->
    JsString.includes className "assistant" = true
    \/ JsString.includes className "ai" = true
    \/ JsString.includes className "bot" = true
    \/ JsString.includes className "answer" = true
    \/ JsString.includes html "assistant" = true
    \/ JsString.includes text "assistant" = true
    \/ JsString.includes text "回答" = true
    \/ hasMatch (classHas "assistant") element = true.
Proof.
  intros element html className text. unfold classifyMessage.
  fold html. fold className. fold text.
  match goal with
  | |- context [countTrue ?ai <=? countTrue ?us] =>
      destruct (existsb (fun b => b) ai) eqn:E;
        [| rewrite (countTrue_none ai E); simpl; discriminate]
  end.
  intros _. cbn [existsb] in E.
  rewrite !orb_true_iff in E. intuition discriminate.
Qed.

Lemma classifyMessage_assistant_needs_cue_witness :
  let html := JsString.toLowerCase (outerHTML (node Examples.gapLast)) in
  let className := JsString.toLowerCase (className (node Examples.gapLast)) in
  let text := JsString.toLowerCase (textContent (node Examples.gapLast)) in
  JsString.includes className "assistant" = true
  \/ JsString.includes className "ai" = true
  \/ JsString.includes className "bot" = true
  \/ JsString.includes className "answer" = true
  \/ JsString.includes html "assistant" = true
  \/ JsString.includes text "assistant" = true
  \/ JsString.includes text "回答" = true
  \/ hasMatch (classHas "assistant") Examples.gapLast = true.
Proof.
  apply (classifyMessage_assistant_needs_cue Examples.gapLast).
  vm_compute. reflexivity.
Defined.

End Locator.

(** ** Depth and similarity measures of the structural strategy *)

Section Measures.

Import Dom StructureStrategy.

Lemma fold_left_ext_in {A B : Type} (f g : A -> B -> A) (l : list B) :
  (forall a b, In b l -> f a b = g a b) ->
  forall a, fold_left f l a = fold_left g l a.
Proof.
  induction l as [|b l IH]; intros H a; simpl; [reflexivity|].
  rewrite (H a b (or_introl eq_refl)). apply IH.
  intros a' b' Hb'. apply H. right. exact Hb'.
Qed.

Lemma maxDepth_fold (n : Node) (d : nat) :
  calculateMaxDepth n d
  = fold_left (fun m c => Nat.max m (calculateMaxDepth c (S d))) (children n) d.
Proof.
  destruct n as [tg cl i tx ht rt rb st rr cs]. simpl.
  destruct cs as [|c cs]; [reflexivity|].
  assert (Hmax : forall m c',
             (if m <? calculateMaxDepth c' (S d)
              then calculateMaxDepth c' (S d) else m)
             = Nat.max m (calculateMaxDepth c' (S d))).
  { intros m c'. destruct (Nat.ltb_spec m (calculateMaxDepth c' (S d))); lia. }
  simpl. rewrite Hmax. apply fold_left_ext_in. intros m c' _. apply Hmax.
Qed.

Lemma fold_max_shift {A : Type} (g : A -> nat) (d : nat) (l : list A) :
  forall a,
    fold_left (fun m c => Nat.max m (d + g c)) l (d + a)
    = d + fold_left (fun m c => Nat.max m (g c)) l a.
Proof.
  induction l as [|c l IH]; intros a; simpl; [reflexivity|].
  rewrite <- IH. f_equal. lia.
Qed.

Lemma fold_max_bounds {A : Type} (g : A -> nat) (l : list A) :
  forall a,
    let r := fold_left (fun m c => Nat.max m (g c)) l a in
    a <= r
    /\ (forall c, In c l -> g c <= r)
    /\ (r = a \/ exists c, In c l /\ r = g c).
Proof.
  induction l as [|c l IH]; intros a; cbv zeta; simpl.
  - repeat split; auto. intros c [].
  - destruct (IH (Nat.max a (g c))) as (Hge & Hin & Hat).
    cbv zeta in Hge, Hin, Hat. repeat split.
    + lia.
    + intros c' [<-|Hc']; [lia | auto].
    + destruct Hat as [E|(c' & Hc' & E)].
      * destruct (Nat.max_spec a (g c)) as [[_ Em]|[_ Em]].
        -- right. exists c. split; [left; reflexivity|]. rewrite E. exact Em.
        -- left. rewrite E. exact Em.
      * right. exists c'. split; [right; exact Hc' | exact E].
Qed.

Lemma maxDepth_shift (n : Node) :
  forall d, calculateMaxDepth n d = d + calculateMaxDepth n 0.
Proof.
  induction n as [n IH] using Node_induction. intros d.
  rewrite (maxDepth_fold n d), (maxDepth_fold n 0).
  rewrite Forall_forall in IH.
  rewrite (fold_left_ext_in
             (fun m c => Nat.max m (calculateMaxDepth c (S d)))
             (fun m c => Nat.max m (d + calculateMaxDepth c 1))).
  - replace d with (d + 0) at 1 by lia. apply fold_max_shift.
  - intros m c Hc. rewrite (IH c Hc (S d)), (IH c Hc 1). f_equal. lia.
Qed.

(** [calculateMaxDepth] adds the height of the subtree to the depth it is
    given: the height of an element without child elements is 0, and the
    height of any other element is one more than the largest height among
    its children. *)
Theorem calculateMaxDepth_is_height :
  forall (n : Node) (d : nat),
    calculateMaxDepth n d = d + calculateMaxDepth n 0
    /\ (children n = [] -> calculateMaxDepth n 0 = 0)
    /\ (children n <> [] ->
        (forall c, In c (children n) ->
                   calculateMaxDepth c 0 < calculateMaxDepth n 0)
        /\ exists c, In c (children n)
                     /\ calculateMaxDepth n 0 = S (calculateMaxDepth c 0)).
Proof.
  intros n d. split; [apply maxDepth_shift|]. split.
  - intros E. rewrite maxDepth_fold, E. reflexivity.
  - intros Hne. rewrite (maxDepth_fold n 0).
    destruct (fold_max_bounds (fun c => calculateMaxDepth c 1) (children n) 0)
      as (_ & Hin & Hat).
    cbv zeta in Hin, Hat. split.
    + intros c Hc. specialize (Hin c Hc). rewrite (maxDepth_shift c 1) in Hin.
      lia.
    + destruct Hat as [E|(c & Hc & E)].
      * destruct (children n) as [|c cs] eqn:Ec; [contradiction|].
        specialize (Hin c (or_introl eq_refl)).
        rewrite (maxDepth_shift c 1) in Hin. lia.
      * exists c. split; [exact Hc|]. rewrite E, (maxDepth_shift c 1). lia.
Qed.

Lemma ratio_one (n : nat) :
  0 < n ->
  exists q, Num.div (Num.ofNat n) (Num.ofNat n) = Fin q /\ (q == 1)%Q.
Proof.
  intros Hn. unfold Num.div, Num.ofNat.
  assert (Hy : (0 < inject_Z (Z.of_nat n))%Q).
  { change 0%Q with (inject_Z 0). rewrite <- Zlt_Qlt. lia. }
  destruct (Qcompare_spec (inject_Z (Z.of_nat n)) 0) as [E|L|G].
  - rewrite E in Hy. exfalso. revert Hy. apply Qlt_irrefl.
  - exfalso. apply (Qlt_irrefl 0). eapply Qlt_trans; eauto.
  - eexists. split; [reflexivity|]. unfold Qdiv. apply Qmult_inv_r.
    intros E. rewrite E in Hy. revert Hy. apply Qlt_irrefl.
Qed.

(** A signature is similar to itself with similarity 1: two elements with
    equal signatures always pass the similarity test. *)
Theorem isSimilarSignature_reflexive :
  forall sig : string,
    Num.strictEq (similarity sig sig) (Fin 1) = true
    /\ isSimilarSignature sig sig = true.
Proof.
  intros sig. unfold isSimilarSignature, similarity.
  set (f := JsString.distinct (JsString.split "|" sig)).
  assert (El : List.length
                 (JsString.distinct (filter (fun x => JsString.mem x f) f))
               = List.length (JsString.distinct (f ++ f))).
  { apply same_members_same_size. intros x.
    rewrite filter_In, mem_In, in_app_iff. tauto. }
  rewrite El.
  assert (Hpos : 0 < List.length (JsString.distinct (f ++ f))).
  { pose proof (splitGo_nonempty "|" sig 0 EmptyString) as Hne.
    fold (JsString.split "|" sig) in Hne. unfold f.
    destruct (JsString.split "|" sig) as [|x xs] eqn:E; [simpl in Hne; lia|].
    assert (Hin : In x (JsString.distinct
                          (JsString.distinct (x :: xs)
                           ++ JsString.distinct (x :: xs)))).
    { apply (proj2 (distinct_In _ _)), in_or_app. left.
      apply (proj2 (distinct_In _ _)). left. reflexivity. }
    destruct (JsString.distinct (_ ++ _)) as [|]; [destruct Hin | simpl; lia]. }
  destruct (ratio_one _ Hpos) as (q & -> & Hq). simpl. split.
  - apply Qeq_bool_iff. exact Hq.
  - qbool. rewrite Hq in H. revert H. apply Qlt_not_le. reflexivity.
Qed.

Lemma matches_sym (l1 : list string) :
  forall l2,
    List.length (filter (fun ab : string * string => String.eqb (fst ab) (snd ab))
                        (combine l1 l2))
    = List.length (filter (fun ab : string * string => String.eqb (fst ab) (snd ab))
                          (combine l2 l1)).
Proof.
  induction l1 as [|a l1 IH]; intros [|b l2]; simpl; auto.
  rewrite (String.eqb_sym a b). destruct (String.eqb b a); simpl; auto.
Qed.

Lemma matches_self (l : list string) :
  List.length (filter (fun ab : string * string => String.eqb (fst ab) (snd ab))
                      (combine l l))
  = List.length l.
Proof.
  induction l as [|a l IH]; simpl; auto.
  rewrite String.eqb_refl. simpl. auto.
Qed.

Lemma sameStyle_sym (a b : option string) : sameStyle a b = sameStyle b a.
Proof. destruct a, b; simpl; auto. apply String.eqb_sym. Qed.

Lemma sameStyle_refl (a : option string) : sameStyle a a = true.
Proof. destruct a; simpl; auto. apply String.eqb_refl. Qed.

(** The two similarity measures of confidence variant A do not depend on
    the order of their arguments, and are 1 when both arguments are the
    same path or the same element. *)
Theorem path_and_style_similarity_symmetric :
  forall (path1 path2 : string) (element1 element2 : Element),
    calculatePathSimilarity path1 path2 = calculatePathSimilarity path2 path1
    /\ Num.strictEq (calculatePathSimilarity path1 path1) (Fin 1) = true
    /\ calculateStyleSimilarity element1 element2
       = calculateStyleSimilarity element2 element1
    /\ Num.strictEq (calculateStyleSimilarity element1 element1) (Fin 1) = true.
Proof.
  intros path1 path2 element1 element2. repeat split.
  - unfold calculatePathSimilarity. rewrite matches_sym, Nat.max_comm.
    reflexivity.
  - unfold calculatePathSimilarity. rewrite matches_self, Nat.max_id.
    pose proof (splitGo_nonempty " > " path1 0 EmptyString) as Hne.
    fold (JsString.split " > " path1) in Hne.
    destruct (ratio_one _ Hne) as (q & -> & Hq). simpl.
    apply Qeq_bool_iff. exact Hq.
  - unfold calculateStyleSimilarity. do 2 f_equal. f_equal.
    apply filter_ext. intros prop. apply sameStyle_sym.
  - unfold calculateStyleSimilarity.
    rewrite (filter_ext _ (fun _ => true)) by (intros; apply sameStyle_refl).
    reflexivity.
Qed.

End Measures.

(** ** Structural clustering: the clusters *)

Section Clusters.

Import Dom BaseStrategy StructureStrategy.

Lemma mem_paths (e : Element) (l : list Element) :
  mem e l = true <-> In (path e) (map path l).
Proof.
  unfold mem. rewrite existsb_exists, in_map_iff. split.
  - intros (x & Hx & E). apply same_iff in E. eauto.
  - intros (x & E & Hx). exists x. split; [exact Hx|].
    apply same_iff. congruence.
Qed.

Lemma mem_same_path (a b : Element) (l : list Element) :
  path a = path b -> mem a l = mem b l.
Proof.
  intros E. unfold mem. induction l as [|x l IH]; simpl; [reflexivity|].
  rewrite IH. unfold same. rewrite E. reflexivity.
Qed.

Lemma mem_of_In (e : Element) (l : list Element) : In e l -> mem e l = true.
Proof. intros H. apply mem_paths. apply in_map. exact H. Qed.

(** What a cluster under construction keeps true: [P0] is the processed
    set when the seed was taken, [Q] a property of the seed's siblings. *)
Record Good (cands P0 : list Element) (Q : Element -> Prop)
       (C P : list Element) : Prop := {
  good_distinct : NoDup (map path C);
  good_members :
    forall m, In m C ->
              mem m cands = true /\ mem m P = true /\ mem m P0 = false /\ Q m;
  good_grows : forall x, mem x P0 = true -> mem x P = true
}.

Lemma walk_good (cands : list Element) (sig : string)
      (extend : Element -> list Element -> list Element)
      (P0 : list Element) (Q : Element -> Prop) :
  (forall s C m, In m (extend s C) -> m = s \/ In m C) ->
  (forall s C, ~ In (path s) (map path C) -> NoDup (map path C) ->
               NoDup (map path (extend s C))) ->
  forall sibs C P,
    (forall s, In s sibs -> Q s) ->
    Good cands P0 Q C P ->
    Good cands P0 Q (fst (walk cands sig extend sibs C P))
         (snd (walk cands sig extend sibs C P)).
Proof.
  intros Hin Hnd. induction sibs as [|s sibs IH]; intros C P HQ HG; simpl; auto.
  destruct (mem s cands) eqn:Hc; simpl; auto.
  destruct (mem s P) eqn:Hp; simpl; auto.
  assert (HQ' : forall x, In x sibs -> Q x) by (intros x Hx; apply HQ; right; auto).
  destruct (isSimilarSignature sig (calculateElementSignature s)); [|auto].
  apply IH; auto. destruct HG as [Hd Hm Hg]. split.
  - apply Hnd; auto. intros Hs.
    apply in_map_iff in Hs as (m & E & Hm').
    destruct (Hm m Hm') as (_ & Hmp & _).
    rewrite (mem_same_path m s P E) in Hmp. congruence.
  - intros m Hm'. apply Hin in Hm' as [->|Hm'].
    + repeat split; auto.
      * unfold mem. simpl. rewrite same_refl. reflexivity.
      * destruct (mem s P0) eqn:E0; auto. rewrite (Hg s E0) in Hp. discriminate.
      * apply HQ. left. reflexivity.
    + destruct (Hm m Hm') as (H1 & H2 & H3 & H4). repeat split; auto.
      unfold mem in *. simpl. rewrite H2. apply orb_true_r.
  - intros x Hx. unfold mem in *. simpl. rewrite (Hg x Hx). apply orb_true_r.
Qed.

Lemma unshift_In (s : Element) (C : list Element) (m : Element) :
  In m (unshift s C) -> m = s \/ In m C.
Proof. intros [<-|H]; auto. Qed.

Lemma push_In (s : Element) (C : list Element) (m : Element) :
  In m (push s C) -> m = s \/ In m C.
Proof.
  unfold push. intros H. apply in_app_or in H as [H|[<-|[]]]; auto.
Qed.

Lemma unshift_distinct (s : Element) (C : list Element) :
  ~ In (path s) (map path C) -> NoDup (map path C) ->
  NoDup (map path (unshift s C)).
Proof. intros H1 H2. simpl. constructor; auto. Qed.

Lemma push_distinct (s : Element) (C : list Element) :
  ~ In (path s) (map path C) -> NoDup (map path C) ->
  NoDup (map path (push s C)).
Proof.
  intros H1 H2. unfold push. rewrite map_app. simpl.
  apply NoDup_app; auto.
  - constructor; [intros []|constructor].
  - intros q Hq [<-|[]]. contradiction.
Qed.

Lemma childrenFrom_path (p : list nat) (anc cs : list Node) :
  forall i s, In s (childrenFrom p anc i cs) -> exists k, path s = p ++ [k].
Proof.
  induction cs as [|c cs IH]; intros i s; simpl; [intros []|].
  intros [<-|H]; [exists i; reflexivity | eapply IH; eauto].
Qed.

Lemma sibling_parent (e s : Element) :
  In s (siblings e) -> removelast (path s) = removelast (path e).
Proof.
  unfold siblings. destruct (ancestors e) as [|p anc]; [intros []|].
  intros H. apply childrenFrom_path in H as (k & ->).
  apply removelast_last.
Qed.

Lemma previousSiblings_parent (e s : Element) :
  In s (previousSiblings e) -> removelast (path s) = removelast (path e).
Proof.
  unfold previousSiblings. intros H. apply in_rev in H.
  apply sibling_parent. rewrite <- (firstn_skipn (position e) (siblings e)).
  apply in_or_app. left. exact H.
Qed.

Lemma nextSiblings_parent (e s : Element) :
  In s (nextSiblings e) -> removelast (path s) = removelast (path e).
Proof.
  unfold nextSiblings. intros H.
  apply sibling_parent. rewrite <- (firstn_skipn (S (position e)) (siblings e)).
  apply in_or_app. right. exact H.
Qed.

(** What the loop over the candidates keeps true of the clusters found so
    far and of the processed set. *)
Record ClustersOk (cands : list Element) (clusters : list (list Element))
       (P : list Element) : Prop := {
  ok_distinct : NoDup (map path (List.concat clusters));
  ok_each :
    forall cl, In cl clusters ->
               2 <= List.length cl
               /\ (forall m, In m cl -> mem m cands = true /\ mem m P = true)
               /\ (forall a b, In a cl -> In b cl ->
                               removelast (path a) = removelast (path b))
}.

Lemma clusterStep_ok (cands : list Element) (clusters : list (list Element))
      (P : list Element) (element : Element) :
  mem element cands = true ->
  ClustersOk cands clusters P ->
  ClustersOk cands (fst (clusterStep cands (clusters, P) element))
             (snd (clusterStep cands (clusters, P) element)).
Proof.
  intros Hc [Hd He]. unfold clusterStep.
  destruct (mem element P) eqn:Hp; [split; auto|].
  set (Q := fun m : Element => removelast (path m) = removelast (path element)).
  assert (G0 : Good cands P Q [element] (element :: P)).
  { split.
    - simpl. constructor; [intros []|constructor].
    - intros m [<-|[]]. repeat split; auto.
      unfold mem. simpl. rewrite same_refl. reflexivity.
    - intros x Hx. unfold mem in *. simpl. rewrite Hx. apply orb_true_r. }
  pose proof (walk_good cands (calculateElementSignature element) unshift P Q
                unshift_In unshift_distinct (previousSiblings element)
                [element] (element :: P)
                (previousSiblings_parent element) G0) as G1.
  destruct (walk cands (calculateElementSignature element) unshift
                 (previousSiblings element) [element] (element :: P))
    as [C1 P1].
  simpl in G1.
  pose proof (walk_good cands (calculateElementSignature element) push P Q
                push_In push_distinct (nextSiblings element) C1 P1
                (nextSiblings_parent element) G1) as G2.
  destruct (walk cands (calculateElementSignature element) push
                 (nextSiblings element) C1 P1)
    as [C2 P2].
  simpl in G2. destruct G2 as [Gd Gm Gg].
  assert (Hold : forall cl, In cl clusters ->
                   2 <= List.length cl
                   /\ (forall m, In m cl -> mem m cands = true /\ mem m P2 = true)
                   /\ (forall a b, In a cl -> In b cl ->
                                   removelast (path a) = removelast (path b))).
  { intros cl Hcl. destruct (He cl Hcl) as (H2 & Hm & Hs).
    split; [exact H2|]. split; [|exact Hs].
    intros m Hin. destruct (Hm m Hin) as [Hmc HmP]. split; [exact Hmc|].
    apply Gg. exact HmP. }
  destruct (2 <=? List.length C2) eqn:L; simpl; split; auto.
  - rewrite concat_app, map_app. simpl. rewrite app_nil_r.
    apply NoDup_app; auto.
    intros q Hq Hq'.
    apply in_map_iff in Hq as (m & <- & Hm).
    apply in_concat in Hm as (cl & Hcl & Hm).
    destruct (He cl Hcl) as (_ & Hmem & _). destruct (Hmem m Hm) as [_ HmP].
    apply in_map_iff in Hq' as (m' & E & Hm').
    destruct (Gm m' Hm') as (_ & _ & HmP0 & _).
    rewrite (mem_same_path m' m P E) in HmP0. congruence.
  - intros cl Hcl. apply in_app_or in Hcl as [Hcl|[<-|[]]]; auto.
    apply Nat.leb_le in L. split; [exact L|]. split.
    + intros m Hin. destruct (Gm m Hin) as (H1 & H2 & _). auto.
    + intros a b Ha Hb.
      destruct (Gm a Ha) as (_ & _ & _ & Qa).
      destruct (Gm b Hb) as (_ & _ & _ & Qb).
      unfold Q in Qa, Qb. congruence.
Qed.

Lemma clusterLoop_ok (cands : list Element) :
  forall l clusters P,
    (forall e, In e l -> mem e cands = true) ->
    ClustersOk cands clusters P ->
    ClustersOk cands (fst (fold_left (clusterStep cands) l (clusters, P)))
               (snd (fold_left (clusterStep cands) l (clusters, P))).
Proof.
  induction l as [|e l IH]; intros clusters P Hl Hok; cbn [fold_left]; auto.
  pose proof (clusterStep_ok cands clusters P e (Hl e (or_introl eq_refl)) Hok)
    as Hstep.
  destruct (clusterStep cands (clusters, P) e) as [clusters' P'].
  apply IH; auto. intros x Hx. apply Hl. right. exact Hx.
Qed.

Lemma insertBySize_perm (c : list Element) (l : list (list Element)) :
  Permutation (insertBySize c l) (c :: l).
Proof.
  induction l as [|d l IH]; simpl; auto.
  destruct (List.length c <? List.length d); auto.
  rewrite IH. apply perm_swap.
Qed.

Lemma sortBySize_perm (l : list (list Element)) :
  Permutation (sortBySize l) l.
Proof.
  induction l as [|c l IH]; simpl; auto.
  rewrite insertBySize_perm. constructor. exact IH.
Qed.

Lemma concat_perm (l1 l2 : list (list Element)) :
  Permutation l1 l2 -> Permutation (List.concat l1) (List.concat l2).
Proof.
  induction 1; simpl; auto.
  - apply Permutation_app_head. assumption.
  - rewrite !app_assoc. apply Permutation_app_tail, Permutation_app_comm.
  - etransitivity; eauto.
Qed.

Lemma insertBySize_sorted (c : list Element) (l : list (list Element)) :
  Sorted (fun a b => List.length b <= List.length a) l ->
  Sorted (fun a b => List.length b <= List.length a) (insertBySize c l).
Proof.
  induction l as [|d l IH]; intros Hs; simpl.
  - constructor; constructor.
  - apply Sorted_inv in Hs as [Hs Hd].
    destruct (Nat.ltb_spec (List.length c) (List.length d)).
    + constructor; auto.
      destruct l as [|d' l]; simpl.
      * constructor. lia.
      * apply HdRel_inv in Hd.
        destruct (List.length c <? List.length d'); constructor; lia.
    + constructor; [constructor; auto|]. constructor. lia.
Qed.

Lemma sortBySize_sorted (l : list (list Element)) :
  Sorted (fun a b => List.length b <= List.length a) (sortBySize l).
Proof.
  induction l as [|c l IH]; simpl; [constructor|].
  apply insertBySize_sorted. exact IH.
Qed.

(** The clusters of [findMessageClusters]: each has at least two members,
    every member has the identity of a candidate, the members of one
    cluster are children of one parent, no element is in two clusters or
    twice in one, and the clusters come in order of non-increasing size. *)
Theorem findMessageClusters_invariants :
  forall container : Element,
    let clusters := findMessageClusters container in
    (forall cluster, In cluster clusters ->
        2 <= List.length cluster
        /\ (forall m, In m cluster ->
                      mem m (candidateElements container) = true)
        /\ (forall a b, In a cluster -> In b cluster ->
                        removelast (path a) = removelast (path b)))
    /\ NoDup (map path (List.concat clusters))
    /\ Sorted (fun a b => List.length b <= List.length a) clusters.
Proof.
  intros container clusters. unfold clusters, findMessageClusters.
  pose proof (clusterLoop_ok (candidateElements container)
                (candidateElements container) [] []
                (fun e He => mem_of_In e _ He)) as Hok.
  destruct (fold_left (clusterStep (candidateElements container))
                      (candidateElements container) ([], []))
    as [found P].
  simpl in Hok.
  destruct Hok as [Hd He].
  { split; [constructor | intros cl []]. }
  split; [|split].
  - intros cluster Hin.
    apply (Permutation_in _ (sortBySize_perm found)) in Hin.
    destruct (He cluster Hin) as (H2 & Hm & Hs).
    split; [exact H2|]. split; [|exact Hs].
    intros m Hmem. apply Hm. exact Hmem.
  - eapply Permutation_NoDup; [|exact Hd].
    apply Permutation_map. symmetry. apply concat_perm, sortBySize_perm.
  - apply sortBySize_sorted.
Qed.

Lemma scanCluster_first (cluster : list Element) :
  forall userElement assistantElement,
    scanCluster cluster userElement assistantElement
    = (match userElement with
       | Some u => Some u
       | None => find (classifiedAs user) cluster
       end,
       match assistantElement with
       | Some a => Some a
       | None => find (classifiedAs assistant) cluster
       end).
Proof.
  induction cluster as [|e rest IH]; intros U A; simpl.
  - destruct U, A; reflexivity.
  - unfold classifiedAs at 1 3. destruct (classifyMessage e).
    + destruct U as [u|], A as [a|]; try reflexivity; rewrite IH; reflexivity.
    + destruct U as [u|], A as [a|]; try reflexivity; rewrite IH; reflexivity.
Qed.

Lemma find_none_all (role : Role) (cluster : list Element) :
  find (classifiedAs role) cluster = None ->
  forall e, In e cluster -> classifyMessage e <> role.
Proof.
  intros H e He E. pose proof (find_none _ _ H e He) as Hf.
  unfold classifiedAs in Hf. rewrite E in Hf. destruct role; discriminate.
Qed.

Variable sanitize : string -> string.
Variable pg : Page.

(** [processMessageCluster] gives no round exactly when the cluster has
    fewer than two elements or all its elements are classified alike.
    Otherwise the round pairs the first user-classified element with the
    first assistant-classified one; one of the two is the first element of
    the cluster, so the round index is the position of the other. *)
Theorem processMessageCluster_pairs_first_of_each_role :
  forall cluster : list Element,
    (processMessageCluster sanitize pg cluster = None
     <-> List.length cluster < 2
         \/ (forall e, In e cluster -> classifyMessage e = user)
         \/ (forall e, In e cluster -> classifyMessage e = assistant))
    /\ (forall round,
           processMessageCluster sanitize pg cluster = Some round ->
           exists u a,
             find (classifiedAs user) cluster = Some u
             /\ find (classifiedAs assistant) cluster = Some a
             /\ round = createConversationRound
                          sanitize pg
                          (indexOf cluster u + indexOf cluster a)%Z u a
             /\ (indexOf cluster u = 0%Z \/ indexOf cluster a = 0%Z)).
Proof.
  intros cluster. unfold processMessageCluster.
  rewrite scanCluster_first.
  destruct (Nat.ltb_spec (List.length cluster) 2) as [Hlt|Hge].
  - split; [split; auto | discriminate].
  - destruct (find (classifiedAs user) cluster) as [u|] eqn:Eu;
      destruct (find (classifiedAs assistant) cluster) as [a|] eqn:Ea.
    + split.
      * split; [discriminate|]. intros [H|[H|H]]; [lia| |].
        -- apply find_some in Ea as [Ha Ca]. unfold classifiedAs in Ca.
           rewrite (H a Ha) in Ca. discriminate.
        -- apply find_some in Eu as [Hu Cu]. unfold classifiedAs in Cu.
           rewrite (H u Hu) in Cu. discriminate.
      * intros round H. injection H as <-. exists u, a.
        repeat split; auto.
        destruct cluster as [|x rest]; [simpl in Hge; lia|].
        simpl in Eu, Ea. unfold indexOf. simpl.
        unfold classifiedAs in Eu, Ea.
        destruct (classifyMessage x).
        -- injection Eu as <-. rewrite same_refl. left. reflexivity.
        -- injection Ea as <-. rewrite same_refl. right. reflexivity.
    + split; [|discriminate]. split; auto. intros _. right. left.
      intros e He. pose proof (find_none_all _ _ Ea e He).
      destruct (classifyMessage e); congruence.
    + split; [|discriminate]. split; auto. intros _. right. right.
      intros e He. pose proof (find_none_all _ _ Eu e He).
      destruct (classifyMessage e); congruence.
    + split; [|discriminate]. split; auto. intros _. right. left.
      intros e He. pose proof (find_none_all _ _ Ea e He).
      destruct (classifyMessage e); congruence.
Qed.

End Clusters.

(** ** The sequential scans: numbering and count of the rounds *)

Section Scans.

Import Dom BaseStrategy.

Lemma numbered_snoc (conversation : list ConversationRound)
      (round : ConversationRound) :
  numberedFromOne conversation ->
  round_index round = (Z.of_nat (List.length conversation) + 1)%Z ->
  numberedFromOne (conversation ++ [round]).
Proof.
  unfold numberedFromOne. intros H E.
  rewrite map_app, length_app, H. simpl.
  rewrite seq_app, map_app. simpl. rewrite E. do 2 f_equal. lia.
Qed.

Lemma alternate_numbered {A : Type} (roleOf : A -> Role)
      (mk : Z -> A -> A -> ConversationRound) :
  (forall i u a, round_index (mk i u a) = i) ->
  forall items conversation userMessage,
    numberedFromOne conversation ->
    numberedFromOne
      (fst (ReactStrategy.alternate roleOf mk items conversation userMessage)).
Proof.
  intros Hmk. induction items as [|m items IH]; intros conv um Hc; simpl; auto.
  destruct (roleOf m); [apply IH; auto|].
  destruct um; apply IH; auto.
  apply numbered_snoc; auto.
Qed.

Lemma fallbackLoop_numbered (mk : Z -> Element -> Element -> ConversationRound)
      (elements : list Element) :
  (forall i u a, round_index (mk i u a) = i) ->
  forall rest i conversation userElement,
    numberedFromOne conversation ->
    numberedFromOne
      (fst (StructureStrategy.fallbackLoop mk elements i rest conversation
                                           userElement)).
Proof.
  intros Hmk. induction rest as [|e rest IH]; intros i conv um Hc; simpl; auto.
  destruct (classifyMessage e); [apply IH; auto|].
  destruct um; [|apply IH; auto].
  destruct (_ <=? 3)%Z; apply IH; auto.
  apply numbered_snoc; auto.
Qed.

Lemma handovers_bound (roles : list Role) :
  2 * handovers roles <= List.length roles
  /\ (forall rest, roles = assistant :: rest ->
                   2 * handovers roles <= List.length rest).
Proof.
  induction roles as [|r roles IH]; simpl.
  - split; [lia | intros rest E; discriminate].
  - destruct IH as [IH1 IH2]. destruct r.
    + destruct roles as [|r' roles'].
      * simpl. split; [lia | intros rest E; discriminate].
      * destruct r'.
        -- split; [simpl in *; lia | intros rest E; discriminate].
        -- specialize (IH2 roles' eq_refl).
           split; [simpl in *; lia | intros rest E; discriminate].
    + split; [lia|]. intros rest E. injection E as <-. exact IH1.
Qed.

(** The number of rounds a scan adds is the number of places where a user
    item is directly followed by an assistant item, one more when the scan
    starts with a remembered user right before an assistant item. *)
Lemma alternate_count {A R : Type} (roleOf : A -> Role) (mk : Z -> A -> A -> R) :
  forall items conversation userMessage,
    List.length (fst (ReactStrategy.alternate roleOf mk items conversation
                                              userMessage))
    = List.length conversation
      + match userMessage, map roleOf items with
        | Some _, assistant :: _ => 1
        | _, _ => 0
        end
      + handovers (map roleOf items).
Proof.
  induction items as [|m items IH]; intros conv um; simpl.
  - destruct um; lia.
  - destruct (roleOf m) eqn:Em.
    + rewrite IH. destruct um; destruct (map roleOf items) as [|[|] ?]; lia.
    + destruct um as [u|].
      * rewrite IH, length_app. simpl. lia.
      * rewrite IH. lia.
Qed.

Variables sanitize innerHTMLText : string -> string.
Variable pg : Page.

(** The three sequential scans number their rounds 1, 2, ... in the order
    of the list, on the round and on both of its messages. *)
Theorem sequential_rounds_numbered_from_one :
  forall (container : Element) (messages : list ReactMessage),
    numberedFromOne
      (StructureStrategy.fallbackToSequentialPairing sanitize pg container)
    /\ numberedFromOne
         (conversation (ReactStrategy.extractFromDOM sanitize innerHTMLText pg
                                                     container))
    /\ numberedFromOne
         (conversation (ReactStrategy.extractFromReactData
                          sanitize innerHTMLText pg messages))
    /\ forall result round,
        ReactStrategy.execute sanitize innerHTMLText pg = Returned result
        \/ StructureStrategy.execute sanitize pg = Returned result ->
        In round (conversation result) ->
        user_index (round_user round) = round_index round
        /\ assistant_index (round_assistant round) = round_index round.
Proof.
  intros container messages. repeat split.
  - apply fallbackLoop_numbered; [reflexivity | reflexivity].
  - apply alternate_numbered; [reflexivity | reflexivity].
  - apply alternate_numbered; [reflexivity | reflexivity].
  - destruct H as [H|H].
    + pose proof (react_result_rounds
                    sanitize innerHTMLText pg
                    (fun r => user_index (round_user r) = round_index r)
                    ltac:(reflexivity) ltac:(reflexivity) result H) as HF.
      rewrite Forall_forall in HF. auto.
    + pose proof (structure_result_rounds
                    sanitize pg
                    (fun r => user_index (round_user r) = round_index r)
                    ltac:(reflexivity) result H) as HF.
      rewrite Forall_forall in HF. auto.
  - destruct H as [H|H].
    + pose proof (react_result_rounds
                    sanitize innerHTMLText pg
                    (fun r => assistant_index (round_assistant r) = round_index r)
                    ltac:(reflexivity) ltac:(reflexivity) result H) as HF.
      rewrite Forall_forall in HF. auto.
    + pose proof (structure_result_rounds
                    sanitize pg
                    (fun r => assistant_index (round_assistant r) = round_index r)
                    ltac:(reflexivity) result H) as HF.
      rewrite Forall_forall in HF. auto.
Qed.

(** Each sequential scan emits as many rounds as there are places in its
    input where a user-classified item is directly followed by an
    assistant-classified one; so at most half as many rounds as items. *)
Theorem sequential_rounds_count_handovers :
  forall (container : Element) (messages : list ReactMessage),
    let elements := extractMessageElements container in
    let structural :=
      StructureStrategy.fallbackToSequentialPairing sanitize pg container in
    let dom :=
      conversation (ReactStrategy.extractFromDOM sanitize innerHTMLText pg
                                                 container) in
    let probe :=
      conversation (ReactStrategy.extractFromReactData
                      sanitize innerHTMLText pg messages) in
    List.length structural = handovers (map classifyMessage elements)
    /\ List.length dom = handovers (map classifyMessage elements)
    /\ List.length probe = handovers (map rm_role messages)
    /\ 2 * List.length structural <= List.length elements
    /\ 2 * List.length probe <= List.length messages.
Proof.
  intros container messages elements structural dom probe.
  assert (Es : List.length structural = handovers (map classifyMessage elements)).
  { unfold structural, StructureStrategy.fallbackToSequentialPairing.
    fold elements.
    rewrite (fallbackLoop_alternate
               _ elements (extractMessageElements_NoDup container)
               elements [] []);
      [| rewrite app_nil_r; reflexivity | intros u E; discriminate].
    rewrite alternate_count. reflexivity. }
  assert (Ep : List.length probe = handovers (map rm_role messages)).
  { unfold probe, ReactStrategy.extractFromReactData. simpl.
    rewrite alternate_count. reflexivity. }
  repeat split; auto.
  - unfold dom, ReactStrategy.extractFromDOM. fold elements. simpl.
    rewrite alternate_count. reflexivity.
  - rewrite Es. pose proof (handovers_bound (map classifyMessage elements)) as [H _].
    rewrite length_map in H. exact H.
  - rewrite Ep. pose proof (handovers_bound (map rm_role messages)) as [H _].
    rewrite length_map in H. exact H.
Qed.

End Scans.

(** ** The probe *)

Section ProbeTree.

Import ReactStrategy.

Lemma traverse_app (node : Fiber) :
  forall messages, traverse node messages = messages ++ traverse node [].
Proof.
  induction node as [|type props child IHc sibling IHs]; intros messages; simpl.
  - rewrite app_nil_r. reflexivity.
  - destruct (isMessageComponent type _).
    + rewrite (IHs (traverse child _)), (IHc (messages ++ _)).
      rewrite (IHs (traverse child [_])), (IHc [_]).
      rewrite <- !app_assoc. reflexivity.
    + rewrite (IHs (traverse child messages)), (IHc messages).
      rewrite (IHs (traverse child [])).
      rewrite <- !app_assoc. reflexivity.
Qed.

(** The records of a retained tree come in depth-first order: the record
    of the node itself when it is a message component, then the records
    of its child subtree, then those of its sibling chain; every record
    carries the props of a node that passed the component test. *)
Theorem extractReactFiberData_preorder :
  forall (type : ComponentType) (memoizedProps : option Props)
         (child sibling : Fiber),
    let props := match memoizedProps with Some p => p | None => [] end in
    extractReactFiberData FiberNull = []
    /\ extractReactFiberData (FiberNode type memoizedProps child sibling)
       = (if isMessageComponent type props
          then [ {| rm_role := detectRoleFromComponent type props;
                    rm_content := contentOf props;
                    rm_props := props |} ]
          else [])
         ++ extractReactFiberData child
         ++ extractReactFiberData sibling
    /\ Forall (fun m => exists t, isMessageComponent t (rm_props m) = true)
              (extractReactFiberData
                 (FiberNode type memoizedProps child sibling)).
Proof.
  intros type memoizedProps child sibling props.
  split; [reflexivity|]. split.
  - unfold extractReactFiberData. simpl. fold props.
    rewrite (traverse_app sibling), (traverse_app child).
    destruct (isMessageComponent type props); simpl;
      rewrite <- ?app_assoc; reflexivity.
  - unfold extractReactFiberData.
    generalize (FiberNode type memoizedProps child sibling). intros node.
    assert (H : forall messages,
               Forall (fun m => exists t, isMessageComponent t (rm_props m) = true)
                      messages ->
               Forall (fun m => exists t, isMessageComponent t (rm_props m) = true)
                      (traverse node messages)).
    { induction node as [|t p c IHc s IHs]; intros messages Hm; simpl; auto.
      apply IHs, IHc.
      destruct (isMessageComponent t _) eqn:E; auto.
      apply Forall_app. split; auto. constructor; [|constructor].
      exists t. exact E. }
    apply H. constructor.
Qed.

Variables sanitize innerHTMLText : string -> string.

(** When the hook is there and a retained tree is found within ten levels
    of the container, the strategy returns what the tree yields and does
    not fall back to the DOM: a tree without message components gives a
    result with no round, which scores NaN and is never kept by the
    orchestrator. *)
Theorem empty_probe_yield_is_not_a_fallback :
  forall (pg : Page) (container : Element) (root : Fiber),
    BaseStrategy.findConversationContainer pg = Some container ->
    devtoolsHook pg = true ->
    findReactRoot container = Some root ->
    root <> FiberNull ->
    extractReactFiberData root = [] ->
    exists result,
      execute sanitize innerHTMLText pg = Returned result
      /\ conversation result = []
      /\ strategyUsed (metadata result) = "react-strategy"%string
      /\ DOMIntelligentAnalyzer.evaluateExtraction result = NaN
      /\ forall best,
          DOMIntelligentAnalyzer.tryStrategy best (Returned result) = best.
Proof.
  intros pg container root Hc Hh Hr Hn He.
  exists (extractFromReactData sanitize innerHTMLText pg []).
  assert (Ev : DOMIntelligentAnalyzer.evaluateExtraction
                 (extractFromReactData sanitize innerHTMLText pg []) = NaN).
  { apply evaluate_no_rounds. reflexivity. }
  split; [|split; [reflexivity|split; [reflexivity|split; [exact Ev|]]]].
  - unfold execute, tryGetReactData. rewrite Hc, Hh, Hr.
    destruct root; [contradiction|]. rewrite He. reflexivity.
  - intros best. cbn [DOMIntelligentAnalyzer.tryStrategy]. rewrite Ev.
    reflexivity.
Qed.

End ProbeTree.

Lemma empty_probe_yield_is_not_a_fallback_witness :
  exists result,
    ReactStrategy.execute Examples.sanitize Examples.innerHTMLText quietPage = Returned result
    /\ conversation result = []
    /\ strategyUsed (metadata result) = "react-strategy"%string.
Proof.
  destruct (empty_probe_yield_is_not_a_fallback
              Examples.sanitize Examples.innerHTMLText
              quietPage (Examples.containerOf quietPage) quietTree)
    as (result & H1 & H2 & H3 & _).
  - reflexivity.
  - reflexivity.
  - reflexivity.
  - discriminate.
  - reflexivity.
  - exists result. auto.
Defined.


(** ** Scoring and selection *)

Section Scoring.

Import DOMIntelligentAnalyzer.

Lemma sum_from_range (lo hi : Q) (xs : list Number) :
  Forall (fun x => exists q, x = Fin q /\ (lo <= q <= hi)%Q) xs ->
  forall a,
    exists s,
      fold_left Num.add xs (Fin a) = Fin s
      /\ (a + inject_Z (Z.of_nat (List.length xs)) * lo <= s)%Q
      /\ (s <= a + inject_Z (Z.of_nat (List.length xs)) * hi)%Q.
Proof.
  induction 1 as [|x xs (q & -> & Hq) _ IH]; intros a.
  - exists a. split; [reflexivity|].
    change (inject_Z (Z.of_nat (@List.length Number []))) with 0%Q.
    split; lra.
  - cbn [fold_left Num.add]. destruct (IH (a + q)%Q) as (s & -> & H1 & H2).
    exists s. split; [reflexivity|].
    replace (List.length (Fin q :: xs)) with (S (List.length xs)) by reflexivity.
    rewrite Nat2Z.inj_succ. unfold Z.succ. rewrite inject_Z_plus.
    change (inject_Z 1) with 1%Q. split; lra.
Qed.

(** The average-confidence term of a result with rounds whose confidences
    lie in a range lies in that range. *)
Lemma average_range (lo hi : Q) (conversation : list ConversationRound) :
  conversation <> [] ->
  Forall (confidenceWithin lo hi) conversation ->
  exists q,
    Num.div (confidenceSum conversation)
            (Num.ofNat (List.length conversation)) = Fin q
    /\ (lo <= q <= hi)%Q.
Proof.
  intros Hne HF. unfold confidenceSum, Num.sum, Num.zero.
  destruct (sum_from_range lo hi
              (map (fun round => extractionConfidence (round_metadata round))
                   conversation)) with (a := 0%Q)
    as (s & -> & H1 & H2).
  { apply Forall_map. exact HF. }
  rewrite length_map in H1, H2.
  set (n := inject_Z (Z.of_nat (List.length conversation))) in *.
  assert (Hn : (0 < n)%Q).
  { unfold n. change 0%Q with (inject_Z 0). rewrite <- Zlt_Qlt.
    destruct conversation; [contradiction | simpl; lia]. }
  unfold Num.div, Num.ofNat. fold n.
  destruct (Qcompare_spec n 0) as [E|L|G].
  - rewrite E in Hn. exfalso. revert Hn. apply Qlt_irrefl.
  - exfalso. apply (Qlt_irrefl 0). eapply Qlt_trans; eauto.
  - eexists. split; [reflexivity|]. split.
    + apply Qle_shift_div_l; [exact Hn|]. lra.
    + apply Qle_shift_div_r; [exact Hn|]. lra.
Qed.

Lemma roundCount_range (n : nat) :
  0 < n ->
  (10 <= inject_Z (Z.of_nat (Nat.min (n * 10) 30)) <= 30)%Q.
Proof.
  intros Hn. change 10%Q with (inject_Z 10). change 30%Q with (inject_Z 30).
  rewrite <- !Zle_Qle. lia.
Qed.

(** The score of a result with at least one round, all confidences between
    0 and 1, is a number between 10 and 100. *)
Lemma score_range (result : ExtractedConversation) :
  conversation result <> [] ->
  Forall (confidenceWithin 0 1) (conversation result) ->
  exists q, evaluateExtraction result = Fin q /\ (10 <= q <= 100)%Q.
Proof.
  intros Hne HF. unfold evaluateExtraction.
  destruct (average_range 0 1 _ Hne HF) as (avg & -> & Havg).
  assert (Hn : 0 < List.length (conversation result)).
  { destruct (conversation result); [contradiction | simpl; lia]. }
  pose proof (roundCount_range _ Hn) as Hc.
  destruct (Nat.ltb_spec 0 (List.length (conversation result))); [|lia].
  unfold Num.zero, Num.ofNat. cbn [Num.add Num.mul].
  destruct (existsb _ _); destruct (existsb _ _); cbn [Num.add];
    eexists; (split; [reflexivity|]); lra.
Qed.

Variables sanitize innerHTMLText : string -> string.
Variable pg : Page.

Lemma source_confidences (result : ExtractedConversation) :
  ReactStrategy.execute sanitize innerHTMLText pg = Returned result
  \/ StructureStrategy.execute sanitize pg = Returned result ->
  Forall (confidenceWithin 0 1) (conversation result).
Proof.
  intros [H|H].
  - eapply react_result_rounds; eauto.
    + intros i u a. exists (9 # 10)%Q. split; [reflexivity|]. lra.
    + intros i u a. destruct (domConfidence_range u a) as (q & E & Hq).
      exists q. split; [exact E|]. lra.
  - eapply structure_result_rounds; eauto.
    intros i u a. destruct (structureConfidence_range u a) as (q & E & Hq).
    exists q. split; [exact E|]. lra.
Qed.

(** A result of one of the two strategies that has a round scores between
    10 and 100, hence above the initial running best. *)
Theorem strategy_result_with_rounds_scores :
  forall result : ExtractedConversation,
    ReactStrategy.execute sanitize innerHTMLText pg = Returned result
    \/ StructureStrategy.execute sanitize pg = Returned result ->
    conversation result <> [] ->
    (exists q, evaluateExtraction result = Fin q /\ (10 <= q <= 100)%Q)
    /\ Num.gt (evaluateExtraction result) (bestScore initial) = true.
Proof.
  intros result H Hne.
  destruct (score_range result Hne (source_confidences result H))
    as (q & E & Hq).
  split; [eauto|]. rewrite E. simpl. qbool. lra.
Qed.

(** Results without rounds are never held, whatever the strategies. *)
Lemma analyze_throws_without_rounds
      (startTime : Z) (outcomes : list Outcome) :
  (forall r, In (Returned r) outcomes -> conversation r = []) ->
  analyze pg startTime outcomes = inl "所有提取策略均失败"%string.
Proof.
  intros H. unfold analyze.
  destruct (bestResult (runStrategies outcomes)) eqn:Eb; [|reflexivity].
  exfalso.
  destruct (held_was_scored outcomes) as (before & r & after & E & G).
  { rewrite Eb. discriminate. }
  assert (Hr : In (Returned r) outcomes).
  { rewrite E. apply in_or_app. right. left. reflexivity. }
  rewrite (evaluate_no_rounds r (H r Hr)) in G. discriminate.
Qed.

(** [analyze], run on the strategies of the constructor, throws exactly
    when every strategy threw or returned a result without rounds; the
    third strategy is taken with confidences between 0 and 1. *)
Theorem analyze_fails_iff_no_rounds :
  forall (startTime : Z) (visual : Outcome),
    (forall result, visual = Returned result ->
                    Forall (confidenceWithin 0 1) (conversation result)) ->
    (analyze pg startTime (strategies sanitize innerHTMLText pg visual)
     = inl "所有提取策略均失败"%string
     <-> forall result,
         In (Returned result) (strategies sanitize innerHTMLText pg visual) ->
         conversation result = []).
Proof.
  intros startTime visual Hv.
  set (outcomes := strategies sanitize innerHTMLText pg visual).
  assert (Hconf : forall r, In (Returned r) outcomes ->
                            Forall (confidenceWithin 0 1) (conversation r)).
  { intros r [E|[E|[E|[]]]].
    - apply source_confidences. left. exact E.
    - apply source_confidences. right. exact E.
    - apply Hv. exact E. }
  unfold analyze. split.
  - intros H r Hr.
    destruct (bestResult (runStrategies outcomes)) eqn:Eb; [discriminate|].
    destruct (conversation r) as [|x xs] eqn:Ec; [reflexivity|]. exfalso.
    destruct (score_range r) as (q & E & Hq).
    { rewrite Ec. discriminate. }
    { apply Hconf. exact Hr. }
    destruct (runStrategies_sound outcomes) as [_ _ Hmax].
    specialize (Hmax r Hr). rewrite (unheld_score_zero _ Eb), E in Hmax.
    simpl in Hmax. qbool. lra.
  - intros H. fold (analyze pg startTime outcomes).
    apply analyze_throws_without_rounds. exact H.
Qed.

Lemma beats_earlier (s b running : Number) :
  Num.gt s running = false -> Num.gt b running = true ->
  Num.gt b s = true \/ Num.isNaN s = true.
Proof.
  destruct s as [x| | |], b as [y| | |], running as [z| | |]; simpl;
    intros H1 H2; try discriminate; auto.
  left. qbool. lra.
Qed.

(** The result held at the end of the loop is the first of the best: every
    result returned before it scored strictly less (or NaN), and no result
    returned after it scored more. *)
Theorem first_strategy_wins_ties :
  forall (outcomes : list Outcome) (best : ExtractedConversation),
    bestResult (runStrategies outcomes) = Some best ->
    exists before after,
      outcomes = before ++ Returned best :: after
      /\ (forall r, In (Returned r) before ->
                    Num.gt (evaluateExtraction best) (evaluateExtraction r) = true
                    \/ Num.isNaN (evaluateExtraction r) = true)
      /\ (forall r, In (Returned r) after ->
                    Num.gt (evaluateExtraction r) (evaluateExtraction best)
                    = false).
Proof.
  induction outcomes as [|o outcomes IH] using rev_ind; intros best H;
    [discriminate|].
  rewrite runStrategies_snoc in H.
  destruct (runStrategies_sound outcomes) as [_ Hheld Hmax].
  assert (Hkeep : bestResult (runStrategies outcomes) = Some best ->
                  (forall r, o = Returned r ->
                             Num.gt (evaluateExtraction r)
                                    (evaluateExtraction best) = false) ->
                  exists before after,
                    outcomes ++ [o] = before ++ Returned best :: after
                    /\ (forall r, In (Returned r) before ->
                                  Num.gt (evaluateExtraction best)
                                         (evaluateExtraction r) = true
                                  \/ Num.isNaN (evaluateExtraction r) = true)
                    /\ (forall r, In (Returned r) after ->
                                  Num.gt (evaluateExtraction r)
                                         (evaluateExtraction best) = false)).
  { intros Hb Ho. destruct (IH best Hb) as (before & after & -> & H1 & H2).
    exists before, (after ++ [o]). split; [rewrite <- app_assoc; reflexivity|].
    split; [exact H1|]. intros r Hr.
    apply in_app_or in Hr as [Hr|[Hr|[]]]; auto. }
  destruct o as [m|r]; simpl in H.
  - apply Hkeep; auto. intros r E. discriminate.
  - destruct (Num.gt (evaluateExtraction r) (bestScore (runStrategies outcomes)))
      eqn:G; simpl in H.
    + injection H as <-. exists outcomes, []. split; [reflexivity|].
      split; [|intros r' []].
      intros r' Hr'. eapply beats_earlier; eauto.
    + apply Hkeep; auto. intros r' E. injection E as <-.
      destruct (Hheld best H) as [_ Es]. rewrite <- Es. exact G.
Qed.

(** What [analyze] returns describes itself: the statistics count the
    rounds returned, the success rate is 100 with a round and 0 without,
    the processing time is the time since the analyzer was built, the page
    facts are those of the page; version, strategy and rounds come from the
    result of a strategy that ran, the rounds being its rounds with two
    non-empty texts, in their order. *)
Theorem analyze_result_describes_itself :
  forall (startTime : Z) (outcomes : list Outcome)
         (out : ExtractedConversation),
    analyze pg startTime outcomes = inr out ->
    totalRounds (extractionStats out) = List.length (conversation out)
    /\ successRate (extractionStats out)
       = (if 0 <? List.length (conversation out) then 100 else 0)
    /\ processingTimeMs (extractionStats out) = (clock pg - startTime)%Z
    /\ domElementsAnalyzed (extractionStats out)
       = List.length (Dom.allElements pg)
    /\ sourceUrl (metadata out) = location_href pg
    /\ pi_title (pageInfo (metadata out)) = document_title pg
    /\ exists best,
        In (Returned best) outcomes
        /\ version out = version best
        /\ strategyUsed (metadata out) = strategyUsed (metadata best)
        /\ conversation out = filter nonEmptyRound (conversation best).
Proof.
  intros startTime outcomes out H.
  destruct (analyze_returns _ _ _ _ H) as (best & Hin & -> & _).
  repeat split; try reflexivity.
  exists best. repeat split; auto.
Qed.

End Scoring.

Lemma analyze_fails_iff_no_rounds_witness :
  DOMIntelligentAnalyzer.analyze
    (Examples.pageOf []) 0
    (DOMIntelligentAnalyzer.strategies
       Examples.sanitize Examples.innerHTMLText
       (Examples.pageOf []) (Threw "no layout"))
  = inl "所有提取策略均失败"%string.
Proof.
  apply (analyze_fails_iff_no_rounds
           Examples.sanitize Examples.innerHTMLText (Examples.pageOf [])
           0%Z (Threw "no layout")).
  - intros result H. discriminate.
  - intros result [E|[E|[E|[]]]]; vm_compute in E; discriminate.
Defined.

Lemma strategy_result_with_rounds_scores_witness :
  match StructureStrategy.execute Examples.sanitize Examples.stalePage with
  | Returned result =>
      Num.gt (DOMIntelligentAnalyzer.evaluateExtraction result)
             (DOMIntelligentAnalyzer.bestScore DOMIntelligentAnalyzer.initial)
      = true
  | Threw _ => False
  end.
Proof.
  destruct (StructureStrategy.execute Examples.sanitize Examples.stalePage)
    as [m|result] eqn:E.
  - vm_compute in E. discriminate.
  - apply (strategy_result_with_rounds_scores
             Examples.sanitize Examples.innerHTMLText Examples.stalePage
             result (or_intror E)).
    intros Hnil.
    assert (H : List.length (conversation result) = 2).
    { unfold StructureStrategy.execute in E. vm_compute in E.
      injection E as <-. reflexivity. }
    rewrite Hnil in H. discriminate.
Defined.

Lemma first_strategy_wins_ties_witness :
  match DOMIntelligentAnalyzer.bestResult
          (DOMIntelligentAnalyzer.runStrategies
             (DOMIntelligentAnalyzer.strategies
                Examples.sanitize Examples.innerHTMLText Examples.stalePage
                (Threw "no layout"))) with
  | Some best =>
      exists before after,
        DOMIntelligentAnalyzer.strategies
          Examples.sanitize Examples.innerHTMLText Examples.stalePage
          (Threw "no layout")
        = before ++ Returned best :: after
  | None => False
  end.
Proof.
  destruct (DOMIntelligentAnalyzer.bestResult _) as [best|] eqn:E.
  - destruct (first_strategy_wins_ties _ best E) as (before & after & H & _).
    exists before, after. exact H.
  - vm_compute in E. discriminate.
Defined.

Lemma analyze_result_describes_itself_witness :
  match Examples.staleRun with
  | inr out => totalRounds (extractionStats out) = List.length (conversation out)
  | inl _ => False
  end.
Proof.
  destruct Examples.staleRun as [e|out] eqn:E.
  - vm_compute in E. discriminate.
  - destruct (analyze_result_describes_itself
                Examples.stalePage 0%Z
                (DOMIntelligentAnalyzer.strategies
                   Examples.sanitize Examples.innerHTMLText Examples.stalePage
                   (Threw "no layout"))
                out E) as [H _].
    exact H.
Defined.

(** ** The message handler *)

Section Handler.

Import DeepSeekExtractor.

Variable D : Type.
Variable convertToStandardFormat : ExtractedConversation -> string + D.

(** The handler answers every request once: with success for a ping, and
    for an extraction that [analyze] and the conversion both complete;
    with the message of the error thrown otherwise, and with its own error
    for an unknown action.  In particular an extraction on which every
    strategy threw or returned no round is answered with the terminal
    error of [analyze], not with an exception. *)
Theorem handleMessage_answers :
  forall (analysis : string + ExtractedConversation) (action : string),
    let response := handleMessage D convertToStandardFormat analysis action in
    (success response = true
     <-> action = "ping"%string
         \/ (action = "extract"%string
             /\ exists extracted d,
                 analysis = inr extracted
                 /\ convertToStandardFormat extracted = inr d
                 /\ data response = Some d))
    /\ (success response = false <-> exists e, error response = Some e)
    /\ (action = "extract"%string ->
        forall e, analysis = inl e ->
                  response = {| success := false; data := None;
                                message := None; error := Some e |})
    /\ (action <> "extract"%string -> action <> "ping"%string ->
        error response = Some "未知操作"%string)
    /\ (forall (sanitize innerHTMLText : string -> string) (pg : Page)
               (startTime : Z) (visual : Outcome),
           analysis = DOMIntelligentAnalyzer.analyze
                        pg startTime
                        (DOMIntelligentAnalyzer.strategies
                           sanitize innerHTMLText pg visual) ->
           action = "extract"%string ->
           (forall result,
               In (Returned result)
                  (DOMIntelligentAnalyzer.strategies
                     sanitize innerHTMLText pg visual) ->
               conversation result = []) ->
           error response = Some "所有提取策略均失败"%string).
Proof.
  intros analysis action response. unfold response, handleMessage.
  destruct (String.eqb_spec action "extract") as [Ee|Ee].
  - subst action. unfold extractConversation.
    destruct analysis as [e|extracted];
      [|destruct (convertToStandardFormat extracted) as [e|d] eqn:Ec];
      cbn [success data error]; (split; [|split; [|split; [|split]]]).
    + split; [discriminate|].
      intros [H|(_ & x & d & H & _)]; discriminate.
    + split; [intros _; exists e; reflexivity | reflexivity].
    + intros _ e' E. injection E as <-. reflexivity.
    + intros He. contradiction He. reflexivity.
    + intros sanitize innerHTMLText pg startTime visual Ha _ Hall.
      apply (analyze_throws_without_rounds pg startTime) in Hall.
      rewrite <- Ha in Hall. injection Hall as ->. reflexivity.
    + split; [discriminate|].
      intros [H|(_ & x & d & H & Hc & _)]; [discriminate|].
      injection H as <-. congruence.
    + split; [intros _; exists e; reflexivity | reflexivity].
    + intros _ e' E. discriminate.
    + intros He. contradiction He. reflexivity.
    + intros sanitize innerHTMLText pg startTime visual Ha _ Hall.
      apply (analyze_throws_without_rounds pg startTime) in Hall.
      rewrite <- Ha in Hall. discriminate.
    + split; [|reflexivity].
      intros _. right. split; [reflexivity|]. exists extracted, d. auto.
    + split; [discriminate | intros (e & H); discriminate].
    + intros _ e' E. discriminate.
    + intros He. contradiction He. reflexivity.
    + intros sanitize innerHTMLText pg startTime visual Ha _ Hall.
      apply (analyze_throws_without_rounds pg startTime) in Hall.
      rewrite <- Ha in Hall. discriminate.
  - destruct (String.eqb_spec action "ping") as [Ep|Ep];
      cbn [success data error]; (split; [|split; [|split; [|split]]]).
    + split; [intros _; left; exact Ep | reflexivity].
    + split; [discriminate | intros (e & H); discriminate].
    + intros H. contradiction.
    + intros _ H. contradiction.
    + intros sanitize innerHTMLText pg startTime visual Hv Ha H. contradiction.
    + split; [discriminate|]. intros [H|[H _]]; contradiction.
    + split; [intros _; eexists; reflexivity | reflexivity].
    + intros H. contradiction.
    + reflexivity.
    + intros sanitize innerHTMLText pg startTime visual Hv Ha H. contradiction.
Qed.

End Handler.

Section VariantB.

Import Dom.

(** Confidence variant B, computed in doubles as the program computes it,
    takes one of four values: 0.7; 0.7 + 0.1, which is the double just
    below 0.8 (printed 0.7999999999999999), with a shared class word only;
    0.7 + 0.2, which is the double just below 0.9 (printed
    0.8999999999999999), with the assistant below the user only; and the
    cap 0.95 with both.  The value over exact rationals is within 2^-52 of
    it. *)
Theorem calculateConfidence_values :
  forall userElement assistantElement : Element,
    let below :=
      negb (Qle_bool (rectTop (node assistantElement))
                     (rectBottom (node userElement))) in
    let shared :=
      JsString.truthy (className (node userElement))
      && JsString.truthy (className (node assistantElement))
      && (0 <? List.length
                 (ReactStrategy.findCommonWords
                    (className (node userElement))
                    (className (node assistantElement)))) in
    let sharedOnly :=
      Double.literal 7999999999999999 10000000000000000 in
    let belowOnly :=
      Double.literal 8999999999999999 10000000000000000 in
    Double.calculateConfidence userElement assistantElement
    = match below, shared with
      | true, true => Double.literal 95 100
      | true, false => belowOnly
      | false, true => sharedOnly
      | false, false => Double.literal 7 10
      end
    /\ sharedOnly = Double.add (Double.literal 7 10) (Double.literal 1 10)
    /\ sharedOnly = Double.pred (Double.literal 8 10)
    /\ belowOnly = Double.add (Double.literal 7 10) (Double.literal 2 10)
    /\ belowOnly = Double.pred (Double.literal 9 10)
    /\ exists q d,
        ReactStrategy.calculateConfidence userElement assistantElement = Fin q
        /\ Double.toQ (Double.calculateConfidence userElement assistantElement)
           = Some d
        /\ (Qabs (q - d) <= 1 # 4503599627370496)%Q.
Proof.
  intros userElement assistantElement below shared sharedOnly belowOnly.
  split; [|split; [|split; [|split; [|split]]]].
  2-5: vm_compute; reflexivity.
  - unfold Double.calculateConfidence. fold below. unfold shared.
    destruct below;
      destruct (JsString.truthy (className (node userElement)));
      destruct (JsString.truthy (className (node assistantElement)));
      try destruct (0 <? List.length _);
      vm_compute; reflexivity.
  - unfold Double.calculateConfidence, ReactStrategy.calculateConfidence.
    fold below.
    destruct below;
      destruct (JsString.truthy (className (node userElement)));
      destruct (JsString.truthy (className (node assistantElement)));
      try destruct (0 <? List.length _);
      (eexists; eexists;
       split; [vm_compute; reflexivity|];
       split; [vm_compute; reflexivity|];
       apply Qle_bool_iff; vm_compute; reflexivity).
Qed.

End VariantB.

(** ** Format analysis *)

Section Format.

Lemma headingMatches_step (c : ascii) (s : string) :
  JsString.headingMatches (String c s)
  = match Ascii.eqb c "<", s with
    | true, String c2 (String d _) =>
        if Ascii.eqb c2 "h"
        then if (49 <=? JsString.code d) && (JsString.code d <=? 54)
             then (JsString.code d - 48) :: JsString.headingMatches s
             else JsString.headingMatches s
        else JsString.headingMatches s
    | _, _ => JsString.headingMatches s
    end.
Proof.
  destruct c as [[] [] [] [] [] [] [] []]; try reflexivity.
  destruct s as [|c2 s2]; [reflexivity|].
  destruct c2 as [[] [] [] [] [] [] [] []]; try reflexivity;
    destruct s2; reflexivity.
Qed.

Lemma fenceMatches_step (c : ascii) (s : string) :
  JsString.fenceMatches (String c s)
  = match Ascii.eqb c "`", s with
    | true, String c2 (String c3 t) =>
        if Ascii.eqb c2 "`" && Ascii.eqb c3 "`"
        then match JsString.wordPrefix t with
             | EmptyString => JsString.fenceMatches s
             | w => w :: JsString.fenceMatches s
             end
        else JsString.fenceMatches s
    | _, _ => JsString.fenceMatches s
    end.
Proof.
  destruct c as [[] [] [] [] [] [] [] []]; try reflexivity.
  destruct s as [|c2 s2]; [reflexivity|].
  destruct c2 as [[] [] [] [] [] [] [] []]; try reflexivity;
    destruct s2 as [|c3 s3]; try reflexivity.
  destruct c3 as [[] [] [] [] [] [] [] []]; reflexivity.
Qed.

Lemma headingMatches_levels (s : string) :
  Forall (fun level => 1 <= level <= 6) (JsString.headingMatches s).
Proof.
  induction s as [|c s IH]; [constructor|].
  rewrite headingMatches_step.
  destruct (Ascii.eqb c "<"); auto.
  destruct s as [|c2 [|d s3]]; auto.
  destruct (Ascii.eqb c2 "h"); auto.
  destruct ((49 <=? JsString.code d) && (JsString.code d <=? 54)) eqn:E; auto.
  constructor; auto.
  apply andb_true_iff in E as [E1 E2].
  apply Nat.leb_le in E1, E2. lia.
Qed.

Lemma fenceMatches_words (s : string) :
  Forall (fun lang => lang <> EmptyString) (JsString.fenceMatches s).
Proof.
  induction s as [|c s IH]; [constructor|].
  rewrite fenceMatches_step.
  destruct (Ascii.eqb c "`"); auto.
  destruct s as [|c2 [|c3 t]]; auto.
  destruct (Ascii.eqb c2 "`" && Ascii.eqb c3 "`"); auto.
  destruct (JsString.wordPrefix t) eqn:E; auto.
  constructor; auto. discriminate.
Qed.

Lemma fenceMatches_fence (s : string) :
  JsString.fenceMatches s <> [] -> JsString.includes s "```" = true.
Proof.
  induction s as [|c s IH]; [intros H; contradiction H; reflexivity|].
  rewrite fenceMatches_step. intros H.
  assert (Hrec : JsString.fenceMatches s <> [] ->
                 JsString.includes (String c s) "```" = true).
  { intros H'. simpl. rewrite (IH H'). apply orb_true_r. }
  destruct (Ascii.eqb c "`") eqn:E1; auto.
  destruct s as [|c2 [|c3 t]]; auto.
  destruct (Ascii.eqb c2 "`") eqn:E2; [|auto].
  destruct (Ascii.eqb c3 "`") eqn:E3; [|auto].
  apply Ascii.eqb_eq in E1, E2, E3. subst.
  cbn [JsString.includes]. apply orb_true_iff. left.
  destruct t; vm_compute; reflexivity.
Qed.

Lemma distinctNat_spec (l : list nat) :
  forall seen,
    NoDup seen ->
    let r := fold_left
               (fun seen x => if existsb (Nat.eqb x) seen then seen else seen ++ [x])
               l seen in
    NoDup r /\ forall x, In x r <-> In x seen \/ In x l.
Proof.
  induction l as [|y l IH]; intros seen Hs; cbv zeta; simpl.
  - split; [exact Hs | intros x; tauto].
  - destruct (existsb (Nat.eqb y) seen) eqn:E.
    + destruct (IH seen Hs) as [Hn Hin]. split; [exact Hn|].
      intros x. rewrite Hin.
      apply existsb_exists in E as (z & Hz & Ez). apply Nat.eqb_eq in Ez. subst z.
      split; [tauto|]. intros [H|[<-|H]]; auto.
    + assert (Hs' : NoDup (seen ++ [y])).
      { apply NoDup_app; auto.
        - constructor; [intros []|constructor].
        - intros a Ha [<-|[]].
          assert (existsb (Nat.eqb y) seen = true).
          { apply existsb_exists. exists y. split; [exact Ha|apply Nat.eqb_refl]. }
          congruence. }
      destruct (IH _ Hs') as [Hn Hin]. split; [exact Hn|].
      intros x. rewrite Hin, in_app_iff. simpl. tauto.
Qed.

Lemma nonempty_same_members {A : Type} (l1 l2 : list A) :
  (forall x, In x l1 <-> In x l2) -> (l1 <> [] <-> l2 <> []).
Proof.
  intros H. split; intros Hne E; subst.
  - destruct l1 as [|x l1]; [contradiction|]. apply (H x). left. reflexivity.
  - destruct l2 as [|x l2]; [contradiction|]. apply (H x). left. reflexivity.
Qed.

(** What both [analyzeFormat]s share: the heading and language fields, as
    computed from the markup [html], with any value of the code flag that
    is set whenever the markup holds a fence. *)
Lemma format_fields_consistent (html : string) (code lists tables : bool) :
  (JsString.includes html "```" = true -> code = true) ->
  formatConsistent
    {| hasCodeBlocks := code;
       codeLanguages := JsString.distinct (JsString.fenceMatches html);
       hasHeadings := 0 <? List.length (JsString.headingMatches html);
       headingLevels :=
         StructureStrategy.distinctNat (JsString.headingMatches html);
       hasLists := lists;
       hasTables := tables |}.
Proof.
  intros Hcode. unfold formatConsistent. cbn.
  destruct (distinctNat_spec (JsString.headingMatches html) [] (NoDup_nil _))
    as [Hn Hin].
  cbv zeta in Hn, Hin. fold (StructureStrategy.distinctNat
                               (JsString.headingMatches html)) in Hn, Hin.
  assert (Hmem : forall x, In x (StructureStrategy.distinctNat
                                   (JsString.headingMatches html))
                           <-> In x (JsString.headingMatches html)).
  { intros x. rewrite Hin. simpl. tauto. }
  split; [exact Hn|]. split; [|split; [|split; [|split]]].
  - apply Forall_forall. intros x Hx. apply Hmem in Hx.
    pose proof (headingMatches_levels html) as HF.
    rewrite Forall_forall in HF. auto.
  - rewrite (nonempty_same_members _ _ Hmem).
    destruct (JsString.headingMatches html) as [|k ks]; simpl; split.
    + intros H. discriminate H.
    + intros H. contradiction H. reflexivity.
    + intros _. discriminate.
    + intros _. reflexivity.
  - apply distinct_NoDup.
  - apply Forall_forall. intros x Hx. apply (proj1 (distinct_In _ _)) in Hx.
    pose proof (fenceMatches_words html) as HF.
    rewrite Forall_forall in HF. auto.
  - intros Hne. apply Hcode. apply fenceMatches_fence.
    apply (proj1 (nonempty_same_members _ _ (distinct_In _))). exact Hne.
Qed.

(** The format analysis of an assistant message is consistent, whether it
    is computed from a markup string or from an element; so is the analysis
    carried by every round of a result of the two strategies. *)
Theorem analyzeFormat_consistent :
  forall (sanitize innerHTMLText : string -> string) (pg : Page),
    (forall html, formatConsistent (ReactStrategy.analyzeFormat html))
    /\ (forall element, formatConsistent (StructureStrategy.analyzeFormat element))
    /\ (forall result round,
           ReactStrategy.execute sanitize innerHTMLText pg = Returned result
           \/ StructureStrategy.execute sanitize pg = Returned result ->
           In round (conversation result) ->
           formatConsistent (formatAnalysis (round_assistant round))).
Proof.
  intros sanitize innerHTMLText pg.
  assert (Hr : forall html, formatConsistent (ReactStrategy.analyzeFormat html)).
  { intros html. unfold ReactStrategy.analyzeFormat.
    apply format_fields_consistent. intros H. rewrite H. apply orb_true_r. }
  assert (Hs : forall element,
             formatConsistent (StructureStrategy.analyzeFormat element)).
  { intros element. unfold StructureStrategy.analyzeFormat.
    apply format_fields_consistent. intros H.
    unfold StructureStrategy.containsCode. rewrite H.
    rewrite !orb_true_r. reflexivity. }
  split; [exact Hr|]. split; [exact Hs|].
  intros result round [H|H] Hin.
  - pose proof (react_result_rounds
                  sanitize innerHTMLText pg
                  (fun r => formatConsistent (formatAnalysis (round_assistant r)))
                  (fun i u a => Hr _) (fun i u a => Hr _) result H) as HF.
    rewrite Forall_forall in HF. auto.
  - pose proof (structure_result_rounds
                  sanitize pg
                  (fun r => formatConsistent (formatAnalysis (round_assistant r)))
                  (fun i u a => Hs _) result H) as HF.
    rewrite Forall_forall in HF. auto.
Qed.

End Format.

(** ** Message texts *)

Section Texts.

Lemma trimStart_head (s : string) :
  JsString.trimStart s = EmptyString
  \/ exists c t, JsString.trimStart s = String c t /\ JsString.isSpace c = false.
Proof.
  induction s as [|c s IH]; simpl; auto.
  destruct (JsString.isSpace c) eqn:E; auto.
  right. exists c, s. auto.
Qed.

Lemma trimEnd_cons (c : ascii) (s : string) :
  JsString.trimEnd (String c s)
  = match JsString.trimEnd s with
    | EmptyString =>
        if JsString.isSpace c then EmptyString else String c EmptyString
    | t => String c t
    end.
Proof. reflexivity. Qed.

Lemma trimEnd_idem (s : string) :
  JsString.trimEnd (JsString.trimEnd s) = JsString.trimEnd s.
Proof.
  induction s as [|c s IH]; [reflexivity|].
  rewrite trimEnd_cons.
  destruct (JsString.trimEnd s) as [|d t] eqn:E.
  - destruct (JsString.isSpace c) eqn:Ec; [reflexivity|].
    rewrite trimEnd_cons. simpl. rewrite Ec. reflexivity.
  - rewrite trimEnd_cons, IH. reflexivity.
Qed.

Lemma trimEnd_head (c : ascii) (t : string) :
  JsString.isSpace c = false ->
  exists t', JsString.trimEnd (String c t) = String c t'.
Proof.
  intros E. rewrite trimEnd_cons.
  destruct (JsString.trimEnd t); [rewrite E|]; eauto.
Qed.

Lemma trim_idem (s : string) :
  JsString.trim (JsString.trim s) = JsString.trim s.
Proof.
  unfold JsString.trim.
  destruct (trimStart_head s) as [E|(c & t & E & Ec)]; rewrite E.
  - reflexivity.
  - destruct (trimEnd_head c t Ec) as (t' & Et). rewrite Et.
    cbn [JsString.trimStart]. rewrite Ec, <- Et. apply trimEnd_idem.
Qed.

Variables sanitize innerHTMLText : string -> string.
Variable pg : Page.

(** The two texts of every round of a result of the two strategies are
    stored trimmed, so the validation pass keeps such a round exactly when
    neither text is the empty string. *)
Theorem round_texts_are_trimmed :
  forall (result : ExtractedConversation) (round : ConversationRound),
    ReactStrategy.execute sanitize innerHTMLText pg = Returned result
    \/ StructureStrategy.execute sanitize pg = Returned result ->
    In round (conversation result) ->
    JsString.trim (user_text (round_user round)) = user_text (round_user round)
    /\ JsString.trim (assistant_text (round_assistant round))
       = assistant_text (round_assistant round)
    /\ (DOMIntelligentAnalyzer.nonEmptyRound round = true
        <-> user_text (round_user round) <> EmptyString
            /\ assistant_text (round_assistant round) <> EmptyString).
Proof.
  intros result round H Hin.
  assert (Ht : JsString.trim (user_text (round_user round))
               = user_text (round_user round)
               /\ JsString.trim (assistant_text (round_assistant round))
                  = assistant_text (round_assistant round)).
  { set (P := fun r : ConversationRound =>
                JsString.trim (user_text (round_user r))
                = user_text (round_user r)
                /\ JsString.trim (assistant_text (round_assistant r))
                   = assistant_text (round_assistant r)).
    assert (HF : Forall P (conversation result)).
    { destruct H as [H|H].
      - eapply react_result_rounds; eauto;
          intros i u a; split; apply trim_idem.
      - eapply structure_result_rounds; eauto.
        intros i u a; split; apply trim_idem. }
    rewrite Forall_forall in HF. apply HF. exact Hin. }
  destruct Ht as [Eu Ea]. split; [exact Eu|]. split; [exact Ea|].
  unfold DOMIntelligentAnalyzer.nonEmptyRound. rewrite Eu, Ea.
  rewrite andb_true_iff.
  destruct (user_text (round_user round));
    destruct (assistant_text (round_assistant round)); simpl; split;
    try (intros [H1 H2]; try discriminate; try (contradiction H1; reflexivity);
         try (contradiction H2; reflexivity));
    try (split; [reflexivity | reflexivity]);
    try (split; discriminate).
Qed.

End Texts.

Lemma round_texts_are_trimmed_witness :
  match StructureStrategy.execute Examples.sanitize Examples.stalePage with
  | Returned result =>
      Forall (fun round =>
                JsString.trim (user_text (round_user round))
                = user_text (round_user round))
             (conversation result)
  | Threw _ => False
  end.
Proof.
  destruct (StructureStrategy.execute Examples.sanitize Examples.stalePage)
    as [m|result] eqn:E.
  - vm_compute in E. discriminate.
  - apply Forall_forall. intros round Hin.
    destruct (round_texts_are_trimmed
                Examples.sanitize Examples.innerHTMLText Examples.stalePage
                result round (or_intror E) Hin)
      as [H _].
    exact H.
Defined.


Section ProbeRoot.

Import ReactStrategy.

Lemma nth_error_firstn_lt {A : Type} (n j : nat) (l : list A) :
  j < n -> nth_error (firstn n l) j = nth_error l j.
Proof.
  intros H. rewrite nth_error_firstn.
  destruct (Nat.ltb_spec j n); [reflexivity|lia].
Qed.

(** The probe takes the reference of the nearest node that carries one
    among the container and its first nine ancestors; a reference attached
    farther up is not seen. *)
Theorem findReactRoot_nearest_within_ten :
  forall element : Element,
    let chain := node element :: ancestors element in
    (forall reference,
        findReactRoot element = Some reference ->
        exists k n,
          k < 10
          /\ nth_error chain k = Some n
          /\ reactRef n = Some reference
          /\ forall j m, j < k -> nth_error chain j = Some m ->
                         reactRef m = None)
    /\ (findReactRoot element = None
        <-> forall k n, k < 10 -> nth_error chain k = Some n ->
                        reactRef n = None).
Proof.
  intros element chain. unfold findReactRoot. fold chain. split.
  - intros reference H.
    destruct (find _ (firstn 10 chain)) as [n|] eqn:E; [|discriminate].
    destruct (find_first _ _ _ E) as (before & after & Hsplit & Hb).
    exists (List.length before), n.
    assert (Hk : List.length before < 10).
    { pose proof (firstn_le_length 10 chain) as Hl. rewrite Hsplit in Hl.
      rewrite length_app in Hl. cbn [List.length] in Hl. lia. }
    assert (Hnth : forall j, j < 10 ->
                             nth_error chain j = nth_error (firstn 10 chain) j).
    { intros j Hj. symmetry. apply nth_error_firstn_lt. exact Hj. }
    split; [exact Hk|]. split; [|split; [exact H|]].
    + rewrite (Hnth _ Hk), Hsplit, nth_error_app2 by lia.
      rewrite Nat.sub_diag. reflexivity.
    + intros j m Hj Hm. rewrite (Hnth j) in Hm by lia.
      rewrite Hsplit, nth_error_app1 in Hm by lia.
      apply nth_error_In in Hm. specialize (Hb m Hm).
      destruct (reactRef m); [discriminate|reflexivity].
  - split.
    + intros H k n Hk Hn.
      destruct (find _ (firstn 10 chain)) as [m|] eqn:E.
      * apply find_some in E as [_ E]. rewrite H in E. discriminate.
      * assert (Hin : In n (firstn 10 chain)).
        { eapply nth_error_In. rewrite nth_error_firstn_lt by exact Hk.
          exact Hn. }
        pose proof (find_none _ _ E n Hin) as Hf. cbv beta in Hf.
        destruct (reactRef n); [discriminate|reflexivity].
    + intros H.
      destruct (find _ (firstn 10 chain)) as [m|] eqn:E; [|reflexivity].
      apply find_some in E as [Hin E].
      apply In_nth_error in Hin as (k & Hk).
      assert (Hlt : k < 10).
      { assert (k < List.length (firstn 10 chain))
          by (apply nth_error_Some; congruence).
        pose proof (firstn_le_length 10 chain). lia. }
      rewrite nth_error_firstn_lt in Hk by exact Hlt.
      rewrite (H k m Hlt Hk) in E. discriminate.
Qed.

End ProbeRoot.

(** ** The runs on the example pages *)

Section Runs.

Import DOMIntelligentAnalyzer.

(** C7, at the failing input.  On [stalePage] the structural strategy wins
    with two rounds of confidence 0.9 and 0.95 and the aggregate 0.925; the
    validation pass drops the first round, whose user text is empty, and
    leaves the aggregate as it was: the result returned has one round of
    confidence 0.95 and the aggregate 0.925. *)
Theorem validation_leaves_confidenceScore_stale :
  match Examples.staleRun with
  | inr out =>
      strategyUsed (metadata out) = "structure-analysis"%string
      /\ map (fun round => extractionConfidence (round_metadata round))
             (conversation out) = [Fin (95 # 100)]
      /\ totalRounds (extractionStats out) = 1
      /\ Num.strictEq (meanConfidence (conversation out)) (Fin (95 # 100)) = true
      /\ Num.strictEq (confidenceScore (metadata out)) (Fin (925 # 1000)) = true
      /\ Num.strictEq (confidenceScore (metadata out))
                      (meanConfidence (conversation out)) = false
  | inl _ => False
  end.
Proof. vm_compute. repeat split. Qed.

(** With the hook present and a retained tree that yields a user record
    and then an assistant record, the probe gives one round of confidence
    0.9. *)
Example probe_gives_one_round :
  match ReactStrategy.execute Examples.sanitize Examples.innerHTMLText
                              Examples.probePage with
  | Returned result =>
      strategyUsed (metadata result) = "react-strategy"%string
      /\ map (fun round => (user_text (round_user round),
                            assistant_text (round_assistant round),
                            extractionConfidence (round_metadata round)))
             (conversation result)
         = [("What is 2+2?"%string, "It is 4."%string, Fin (9 # 10))]
  | Threw _ => False
  end.
Proof. vm_compute. split; reflexivity. Qed.

(** With no element matching any selector, both strategies throw and
    [analyze] throws its terminal error. *)
Example no_container_no_result :
  analyze (Examples.pageOf []) 0
          (strategies Examples.sanitize Examples.innerHTMLText
                      (Examples.pageOf []) (Threw "no layout"))
  = inl "所有提取策略均失败"%string.
Proof. reflexivity. Qed.

Lemma analyze_rounds_valid_witness :
  match Examples.staleRun with
  | inr out => Forall validRound (conversation out)
  | inl _ => False
  end.
Proof.
  destruct Examples.staleRun as [e|out] eqn:E.
  - vm_compute in E. discriminate.
  - apply (analyze_rounds_valid
             Examples.sanitize Examples.innerHTMLText Examples.stalePage
             0%Z (Threw "no layout") out).
    + intros result H. discriminate.
    + exact E.
Defined.

Lemma analyze_fails_iff_no_strategy_scored_witness :
  exists best,
    In (Returned best)
       (DOMIntelligentAnalyzer.strategies
          Examples.sanitize Examples.innerHTMLText Examples.stalePage
          (Threw "no layout"))
    /\ Num.gt (DOMIntelligentAnalyzer.evaluateExtraction best) (Fin 0) = true
    /\ Examples.staleRun
       = inr (DOMIntelligentAnalyzer.setProcessingTime
                (clock Examples.stalePage - 0)
                (DOMIntelligentAnalyzer.validateAndEnhance
                   Examples.stalePage best)).
Proof.
  destruct (analyze_fails_iff_no_strategy_scored
              Examples.stalePage 0%Z
              (DOMIntelligentAnalyzer.strategies
                 Examples.sanitize Examples.innerHTMLText Examples.stalePage
                 (Threw "no layout")))
    as (_ & _ & _ & _ & _ & _ & Hreturns).
  destruct Hreturns as (best & Hin & Habove & Hrun & _).
  - destruct (StructureStrategy.execute Examples.sanitize Examples.stalePage)
      as [m|result] eqn:E; [vm_compute in E; discriminate|].
    exists result. split.
    + right. left. exact E.
    + vm_compute in E. injection E as <-. vm_compute. reflexivity.
  - exists best. split; [exact Hin|]. split; [exact Habove | exact Hrun].
Defined.

Lemma zero_round_candidate_never_best_witness :
  evaluateExtraction
    (StructureStrategy.createExtractedConversation Examples.stalePage [])
  = NaN.
Proof.
  destruct (zero_round_candidate_never_best
              (StructureStrategy.createExtractedConversation
                 Examples.stalePage [])
              eq_refl) as [H _].
  exact H.
Defined.

End Runs.

(** ** Strings *)

Example trim_ex : JsString.trim "  a b  " = "a b"%string.
Proof. reflexivity. Qed.

Example split_ex : JsString.split " > " "div > p.x > " = ["div"; "p.x"; ""]%string.
Proof. reflexivity. Qed.

Example tokens_ex : JsString.tokens JsString.isSpace " msg  user-q " = ["msg"; "user-q"]%string.
Proof. reflexivity. Qed.

Example ofNat_ex : JsString.ofNat 0 = "0"%string /\ JsString.ofNat 12 = "12"%string.
Proof. split; reflexivity. Qed.

